(** * OptiPrice: option pricing engines and analysis utilities

    A shallow embedding of [backend/models/black_scholes.py],
    [backend/models/binomial_tree.py], [backend/models/monte_carlo.py] and
    [backend/utils/analyzer.py], and the properties of the specification
    checked against it.

    Numbers.  Python [float] and [numpy.float64] are modelled by the real
    numbers [R]: [+], [-], [*], [/] are exact, there is no overflow, no
    rounding, no [inf] and no [nan].  What the embedding does keep of the
    run-time representation is the one distinction that changes control
    flow: dividing a Python [float] by zero raises [ZeroDivisionError],
    dividing a [numpy.float64] by zero does not.  Every scalar therefore
    carries a tag saying which of the two it is.  Where a real-valued
    function of the Standard Library is total and numpy's is not ([ln] and
    [sqrt] off their domain, division by zero), the model returns a number
    where numpy returns [nan] or [inf]; in both the call returns.

    Library functions.  [norm.pdf] and [norm.cdf] are defined, the latter as
    an integral of the former.  [norm.ppf] and the sequence of normal draws
    that numpy's process-wide generator produces for a seed are parameters
    of the Monte Carlo engine.

    Step and simulation counts are natural numbers; option kinds, exercise
    styles and target names are strings. *)

From Stdlib Require Import Reals Lra Lia List String Ascii Bool Arith ZArith.
Import ListNotations.

Open Scope R_scope.

(** ** Python run-time: exceptions, results, strings, scalars *)

Module Py.

Inductive exn : Type :=
| ValueError (msg : string)
| ZeroDivisionError.

Inductive result (A : Type) : Type :=
| Ok (a : A)
| Raise (e : exn).
Arguments Ok {A} a.
Arguments Raise {A} e.

Definition bind {A B : Type} (x : result A) (k : A -> result B) : result B :=
  match x with
  | Ok a => k a
  | Raise e => Raise e
  end.

(** [for x in xs: acc = body(acc, x)] where the body may raise. *)
Fixpoint for_each {A X : Type} (xs : list X) (body : A -> X -> result A)
         (acc : A) : result A :=
  match xs with
  | [] => Ok acc
  | x :: xs' => bind (body acc x) (for_each xs' body)
  end.

(** [str.lower()] on the ASCII range. *)
Definition ascii_lower (c : ascii) : ascii :=
  let n := nat_of_ascii c in
  if (65 <=? n)%nat && (n <=? 90)%nat then ascii_of_nat (n + 32) else c.

Fixpoint lower (s : string) : string :=
  match s with
  | EmptyString => EmptyString
  | String c s' => String (ascii_lower c) (lower s')
  end.

(** A scalar and its run-time representation. *)
Record scalar : Type := { val : R; is_numpy : bool }.

Definition float (x : R) : scalar := {| val := x; is_numpy := false |}.
Definition float64 (x : R) : scalar := {| val := x; is_numpy := true |}.

(** [a / b]: Python raises when both operands are Python numbers and the
    divisor is zero; as soon as one operand is a numpy scalar the division
    is numpy's and returns. *)
Definition truediv (a b : scalar) : result R :=
  if is_numpy a || is_numpy b then Ok (val a / val b)
  else if Req_dec_T (val b) 0 then Raise ZeroDivisionError
       else Ok (val a / val b).

(** [a / n] with [n] a Python [int]. *)
Definition truediv_int (a : scalar) (n : nat) : result R :=
  truediv a (float (INR n)).

End Py.

Import Py.

Declare Scope py_scope.
Delimit Scope py_scope with py.
Notation "x <- c ;; k" := (Py.bind c (fun x => k))
  (at level 61, c at next level, right associativity) : py_scope.
Notation "' p <- c ;; k" := (Py.bind c (fun p => k))
  (at level 61, p pattern, c at next level, right associativity) : py_scope.
Open Scope py_scope.

Coercion Py.val : Py.scalar >-> R.

(** ** numpy and scipy.stats.norm *)

Module Np.

(** [np.maximum(a, b)] element-wise on one value, and the builtin
    [max(a, b)]; on reals both are [Rmax]. *)
Definition maximum (a b : R) : R := Rmax a b.

Definition sum (l : list R) : R := fold_right Rplus 0 l.

Definition mean (l : list R) : R := sum l / INR (List.length l).

(** [np.std]: the population standard deviation. *)
Definition std (l : list R) : R :=
  sqrt (mean (map (fun x => (x - mean l) ^ 2) l)).

(** [np.linspace(start, stop, num)] for [num >= 2]: the step is
    [(stop - start) / (num - 1)], entry [k] is [start + k * step], and the
    last entry is overwritten with [stop]. *)
Definition linspace (start stop : R) (num : nat) : list R :=
  let step := (stop - start) / INR (num - 1) in
  map (fun k => if (k =? num - 1)%nat then stop else start + INR k * step)
      (seq 0 num).

(** A two-dimensional [ndarray] of floats, as a function of its two
    indices: [a j i] is [a[j, i]].  Every index the engines use lies inside
    the shape the array was allocated with, so no [IndexError] arises and
    the shape is not recorded. *)
Definition ndarray : Type := nat -> nat -> R.

Definition zeros : ndarray := fun _ _ => 0.

(** [a[j, i] = v] *)
Definition setitem (a : ndarray) (j i : nat) (v : R) : ndarray :=
  fun j' i' => if (j' =? j)%nat && (i' =? i)%nat then v else a j' i'.

(** [a[:, t] = col], the column given by its entries. *)
Definition setcolumn (a : ndarray) (t : nat) (col : nat -> R) : ndarray :=
  fun j' i' => if (i' =? t)%nat then col j' else a j' i'.

(** [a[:, t]] of an array with [rows] rows. *)
Definition column (a : ndarray) (rows t : nat) : list R :=
  map (fun i => a i t) (seq 0 rows).

(** [norm.pdf]: the standard normal density. *)
Definition norm_pdf (x : R) : R := exp (- (x * x) / 2) / sqrt (2 * PI).

Lemma norm_pdf_continuous : forall x, continuity_pt norm_pdf x.
Proof.
  intro x. apply derivable_continuous_pt.
  unfold norm_pdf. reg.
Qed.

(** The density is integrable on every interval, in either direction. *)
Lemma norm_pdf_integrable : forall a b, Riemann_integrable norm_pdf a b.
Proof.
  intros a b. destruct (Rle_dec a b) as [Hab | Hab].
  - apply continuity_implies_RiemannInt; [exact Hab|].
    intros; apply norm_pdf_continuous.
  - apply RiemannInt_P1. apply continuity_implies_RiemannInt; [lra|].
    intros; apply norm_pdf_continuous.
Qed.

(** [norm.cdf]: the standard normal distribution function, written from
    its value [1/2] at the origin. *)
Definition norm_cdf (x : R) : R :=
  1 / 2 + RiemannInt (norm_pdf_integrable 0 x).

(* [norm.ppf], the quantile function, is applied once, to the requested
   confidence level; the Monte Carlo engine takes it as a parameter. *)

End Np.

(** ** models/black_scholes.py *)

Module BlackScholes.

Record BlackScholesModel : Type := {
  S : scalar;
  K : scalar;
  T : scalar;
  r : scalar;
  sigma : scalar;
  option_type : string
}.

(** [__init__]: stores its arguments, the option type in lower case. *)
Definition __init__ (S K T r sigma : scalar) (option_type : string)
  : BlackScholesModel :=
  {| S := S; K := K; T := T; r := r; sigma := sigma;
     option_type := lower option_type |}.

(** [_calculate_d1_d2]: [self.S / self.K] is the only division whose two
    operands are constructor arguments; everything after [np.log] is a
    numpy scalar. *)
Definition _calculate_d1_d2 (self : BlackScholesModel) : result (R * R) :=
  q <- truediv (S self) (K self) ;;
  let d1 := (ln q + (r self + 0.5 * sigma self ^ 2) * T self)
            / (sigma self * sqrt (T self)) in
  let d2 := d1 - sigma self * sqrt (T self) in
  Ok (d1, d2).

Definition price (self : BlackScholesModel) : result R :=
  ' (d1, d2) <- _calculate_d1_d2 self ;;
  if (option_type self =? "call")%string then
    Ok (S self * Np.norm_cdf d1
        - K self * exp (- r self * T self) * Np.norm_cdf d2)
  else if (option_type self =? "put")%string then
    Ok (K self * exp (- r self * T self) * Np.norm_cdf (- d2)
        - S self * Np.norm_cdf (- d1))
  else Raise (ValueError "option_type must be 'call' or 'put'").

Definition delta (self : BlackScholesModel) : result R :=
  ' (d1, _) <- _calculate_d1_d2 self ;;
  if (option_type self =? "call")%string then Ok (Np.norm_cdf d1)
  else Ok (Np.norm_cdf d1 - 1).

Definition gamma (self : BlackScholesModel) : result R :=
  ' (d1, _) <- _calculate_d1_d2 self ;;
  Ok (Np.norm_pdf d1 / (S self * sigma self * sqrt (T self))).

Definition vega (self : BlackScholesModel) : result R :=
  ' (d1, _) <- _calculate_d1_d2 self ;;
  Ok (S self * Np.norm_pdf d1 * sqrt (T self) / 100).

Definition theta (self : BlackScholesModel) : result R :=
  ' (d1, d2) <- _calculate_d1_d2 self ;;
  let theta :=
    if (option_type self =? "call")%string then
      - S self * Np.norm_pdf d1 * sigma self / (2 * sqrt (T self))
      - r self * K self * exp (- r self * T self) * Np.norm_cdf d2
    else
      - S self * Np.norm_pdf d1 * sigma self / (2 * sqrt (T self))
      + r self * K self * exp (- r self * T self) * Np.norm_cdf (- d2) in
  Ok (theta / 365).

Definition rho (self : BlackScholesModel) : result R :=
  ' (_, d2) <- _calculate_d1_d2 self ;;
  if (option_type self =? "call")%string then
    Ok (K self * T self * exp (- r self * T self) * Np.norm_cdf d2 / 100)
  else
    Ok (- K self * T self * exp (- r self * T self) * Np.norm_cdf (- d2) / 100).

(** The dictionary returned by [greeks]; its entries are evaluated in the
    order of the dictionary display. *)
Record Greeks : Type := {
  g_delta : R; g_gamma : R; g_vega : R; g_theta : R; g_rho : R
}.

Definition greeks (self : BlackScholesModel) : result Greeks :=
  dl <- delta self ;;
  gm <- gamma self ;;
  vg <- vega self ;;
  th <- theta self ;;
  rh <- rho self ;;
  Ok {| g_delta := dl; g_gamma := gm; g_vega := vg;
        g_theta := th; g_rho := rh |}.

End BlackScholes.

(** ** models/binomial_tree.py *)

Module BinomialTree.

Record BinomialTreeModel : Type := {
  S : scalar;
  K : scalar;
  T : scalar;
  r : scalar;
  sigma : scalar;
  steps : nat;
  option_type : string;
  exercise : string;
  dt : R;
  u : R;
  d : R;
  p : R;
  discount : R
}.

(** [__init__]: [T / steps] divides a constructor argument by a Python
    [int]; from [np.sqrt] on every value is a numpy scalar. *)
Definition __init__ (S K T r sigma : scalar) (steps : nat)
           (option_type exercise : string) : result BinomialTreeModel :=
  dt <- truediv_int T steps ;;
  let u := exp (sigma * sqrt dt) in
  let d := 1 / u in
  let p := (exp (r * dt) - d) / (u - d) in
  let discount := exp (- r * dt) in
  Ok {| S := S; K := K; T := T; r := r; sigma := sigma; steps := steps;
        option_type := lower option_type; exercise := lower exercise;
        dt := dt; u := u; d := d; p := p; discount := discount |}.

Definition _build_stock_tree (self : BinomialTreeModel) : Np.ndarray :=
  fold_left
    (fun stock_tree i =>
       fold_left
         (fun stock_tree j =>
            Np.setitem stock_tree j i
                       (S self * u self ^ (i - j) * d self ^ j))
         (seq 0 (i + 1)) stock_tree)
    (seq 0 (steps self + 1)) Np.zeros.

Definition _calculate_option_value (self : BinomialTreeModel)
           (stock_price : R) : result R :=
  if (option_type self =? "call")%string then
    Ok (Np.maximum 0 (stock_price - K self))
  else if (option_type self =? "put")%string then
    Ok (Np.maximum 0 (K self - stock_price))
  else Raise (ValueError "option_type must be 'call' or 'put'").

(** One node of the backward induction: the body of the inner loop. *)
Definition induction_node (self : BinomialTreeModel)
           (stock_tree : Np.ndarray) (i : nat)
           (option_tree : Np.ndarray) (j : nat) : result Np.ndarray :=
  let option_tree :=
    Np.setitem option_tree j i
      (discount self
       * (p self * option_tree j (i + 1)%nat
          + (1 - p self) * option_tree (j + 1)%nat (i + 1)%nat)) in
  if (exercise self =? "american")%string then
    exercise_value <- _calculate_option_value self (stock_tree j i) ;;
    Ok (Np.setitem option_tree j i
                   (Np.maximum (option_tree j i) exercise_value))
  else Ok option_tree.

Definition price (self : BinomialTreeModel) : result R :=
  let stock_tree := _build_stock_tree self in
  let option_tree := Np.zeros in
  option_tree <-
    for_each (seq 0 (steps self + 1))
      (fun option_tree j =>
         v <- _calculate_option_value self (stock_tree j (steps self)) ;;
         Ok (Np.setitem option_tree j (steps self) v))
      option_tree ;;
  option_tree <-
    for_each (rev (seq 0 (steps self)))
      (fun option_tree i =>
         for_each (seq 0 (i + 1)) (induction_node self stock_tree i)
                  option_tree)
      option_tree ;;
  Ok (option_tree 0%nat 0%nat).

End BinomialTree.

(** ** numpy's process-wide random generator *)

Module Random.

(** The legacy generator behind [np.random.seed] and
    [np.random.standard_normal] hands out one fixed sequence of normal
    draws per seed, whatever the sizes of the requests; its state is that
    sequence and the number of draws already handed out. *)
Record state : Type := { stream : nat -> R; pos : nat }.

(** A computation that reads and advances the generator and may raise.
    The generator keeps what was consumed before an exception. *)
Definition M (A : Type) : Type := state -> result A * state.

Definition ret {A : Type} (a : A) : M A := fun g => (Ok a, g).

Definition raise {A : Type} (e : exn) : M A := fun g => (Raise e, g).

Definition lift {A : Type} (x : result A) : M A := fun g => (x, g).

Definition bind {A B : Type} (x : M A) (k : A -> M B) : M B :=
  fun g => match x g with
           | (Ok a, g') => k a g'
           | (Raise e, g') => (Raise e, g')
           end.

Fixpoint for_each {A X : Type} (xs : list X) (body : A -> X -> M A)
         (acc : A) : M A :=
  match xs with
  | [] => ret acc
  | x :: xs' => bind (body acc x) (for_each xs' body)
  end.

(** The generator after [n] more draws. *)
Definition advance (g : state) (n : nat) : state :=
  {| stream := stream g; pos := pos g + n |}.

(** [np.random.standard_normal(n)] *)
Definition standard_normal (n : nat) : M (list R) :=
  fun g => (Ok (map (fun k => stream g (pos g + k)) (seq 0 n)), advance g n).

Section Seeding.

(** The sequence of normal draws numpy produces after [np.random.seed(s)]. *)
Variable seeded_normals : Z -> nat -> R.

Definition seed (s : Z) : M unit :=
  fun _ => (Ok tt, {| stream := seeded_normals s; pos := 0 |}).

End Seeding.

End Random.

Notation "x <~ c ;; k" := (Random.bind c (fun x => k))
  (at level 61, c at next level, right associativity) : py_scope.

(** ** models/monte_carlo.py *)

Module MonteCarlo.

Record MonteCarloModel : Type := {
  S : scalar;
  K : scalar;
  T : scalar;
  r : scalar;
  sigma : scalar;
  simulations : nat;
  option_type : string;
  seed : option Z
}.

(** [self.simulations = n] *)
Definition set_simulations (self : MonteCarloModel) (n : nat)
  : MonteCarloModel :=
  {| S := S self; K := K self; T := T self; r := r self;
     sigma := sigma self; simulations := n;
     option_type := option_type self; seed := seed self |}.

(** The dictionary returned by [price_with_confidence]. *)
Record Confidence : Type := {
  c_price : R;
  c_std : R;
  c_std_error : R;
  c_lower_bound : R;
  c_upper_bound : R
}.

Section Engine.

Variable seeded_normals : Z -> nat -> R.
Variable norm_ppf : R -> R.

(** [__init__]: a seed, when given, re-seeds the process-wide generator. *)
Definition __init__ (S K T r sigma : scalar) (simulations : nat)
           (option_type : string) (seed : option Z)
  : Random.M MonteCarloModel :=
  let self := {| S := S; K := K; T := T; r := r; sigma := sigma;
                 simulations := simulations;
                 option_type := lower option_type; seed := seed |} in
  match seed with
  | Some s => _ <~ Random.seed seeded_normals s ;; Random.ret self
  | None => Random.ret self
  end.

(** [_simulate_paths]: [paths[i, t]] is path [i] at time step [t]. *)
Definition _simulate_paths (self : MonteCarloModel) (steps : nat)
  : Random.M Np.ndarray :=
  dt <~ Random.lift (truediv_int (T self) steps) ;;
  let paths := Np.zeros in
  let paths := Np.setcolumn paths 0 (fun _ => S self) in
  Random.for_each (seq 1 steps)
    (fun paths t =>
       z <~ Random.standard_normal (simulations self) ;;
       Random.ret
         (Np.setcolumn paths t
            (fun i => paths i (t - 1)%nat
                      * exp ((r self - 0.5 * sigma self ^ 2) * dt
                             + sigma self * sqrt dt * nth i z 0))))
    paths.

(** [paths[:, -1]] of an array with [steps + 1] columns. *)
Definition final_column (self : MonteCarloModel) (steps : nat)
           (paths : Np.ndarray) : list R :=
  Np.column paths (simulations self) steps.

Definition price (self : MonteCarloModel) (steps : nat) : Random.M R :=
  paths <~ _simulate_paths self steps ;;
  let final_prices := final_column self steps paths in
  if (option_type self =? "call")%string then
    let payoffs := map (fun x => Np.maximum (x - K self) 0) final_prices in
    Random.ret (exp (- r self * T self) * Np.mean payoffs)
  else if (option_type self =? "put")%string then
    let payoffs := map (fun x => Np.maximum (K self - x) 0) final_prices in
    Random.ret (exp (- r self * T self) * Np.mean payoffs)
  else Random.raise (ValueError "option_type must be 'call' or 'put'").

Definition price_with_confidence (self : MonteCarloModel) (steps : nat)
           (confidence : R) : Random.M Confidence :=
  paths <~ _simulate_paths self steps ;;
  let final_prices := final_column self steps paths in
  let payoffs :=
    if (option_type self =? "call")%string
    then map (fun x => Np.maximum (x - K self) 0) final_prices
    else map (fun x => Np.maximum (K self - x) 0) final_prices in
  let discounted_payoffs :=
    map (fun x => exp (- r self * T self) * x) payoffs in
  let price := Np.mean discounted_payoffs in
  let std := Np.std discounted_payoffs in
  let std_error := std / sqrt (INR (simulations self)) in
  let z_score := norm_ppf ((1 + confidence) / 2) in
  Random.ret {| c_price := price;
                c_std := std;
                c_std_error := std_error;
                c_lower_bound := price - z_score * std_error;
                c_upper_bound := price + z_score * std_error |}.

(** [get_paths] assigns [self.simulations] twice; the engine it leaves
    behind is returned next to the result.  When [_simulate_paths] raises,
    the second assignment is not reached. *)
Definition get_paths (self : MonteCarloModel) (num_paths steps : nat)
  : Random.state -> result Np.ndarray * MonteCarloModel * Random.state :=
  fun g =>
    let original_simulations := simulations self in
    let self := set_simulations self num_paths in
    match _simulate_paths self steps g with
    | (Ok paths, g') =>
        (Ok paths, set_simulations self original_simulations, g')
    | (Raise e, g') => (Raise e, self, g')
    end.

End Engine.

End MonteCarlo.

(** ** utils/analyzer.py *)

Module OptionsAnalyzer.

Section ImpliedVolatility.

Variables (market_price : R) (S K T r : scalar) (option_type : string).
Variable tolerance : R.

(** The body of [for i in range(max_iterations)], run over the remaining
    iterations; [sigma] is the loop-carried variable.  [Ok None] is the
    [return None] of the source, [Ok (Some sigma)] its [return sigma]. *)
Fixpoint newton_loop (iterations : list nat) (sigma : scalar)
  : result (option R) :=
  match iterations with
  | [] => Ok None
  | _ :: iterations' =>
      let model := BlackScholes.__init__ S K T r sigma option_type in
      price <- BlackScholes.price model ;;
      v <- BlackScholes.vega model ;;
      let vega := v * 100 in
      let price_diff := market_price - price in
      if Rlt_dec (Rabs price_diff) tolerance then Ok (Some (val sigma))
      else if Req_dec_T vega 0 then Ok None
      else
        let sigma := float64 (sigma + price_diff / vega) in
        let sigma := if Rle_dec sigma 0 then float 0.01 else sigma in
        newton_loop iterations' sigma
  end.

Definition calculate_implied_volatility (max_iterations : nat)
  : result (option R) :=
  let sigma := float 0.3 in
  newton_loop (seq 0 max_iterations) sigma.

End ImpliedVolatility.

Definition default_max_iterations : nat := 100.
Definition default_tolerance : R := 1e-5.

Record PayoffDiagram : Type := {
  spot_prices : list R;
  payoff : list R;
  profit_loss : list R
}.

Definition payoff_diagram (S_range : list R) (K premium : R)
           (option_type position : string) : PayoffDiagram :=
  let payoff :=
    if (option_type =? "call")%string
    then map (fun s => Np.maximum (s - K) 0) S_range
    else map (fun s => Np.maximum (K - s) 0) S_range in
  if (position =? "long")%string then
    let profit_loss := map (fun x => x - premium) payoff in
    {| spot_prices := S_range; payoff := payoff;
       profit_loss := profit_loss |}
  else
    let payoff := map (fun x => - x) payoff in
    let profit_loss := map (fun x => - x + premium) payoff in
    {| spot_prices := S_range; payoff := payoff;
       profit_loss := profit_loss |}.

(** A dictionary with string keys, read only at keys it holds. *)
Definition dict : Type := string -> scalar.

Definition dict_set (d : dict) (key : string) (v : scalar) : dict :=
  fun k => if (k =? key)%string then v else d k.

Definition param_map (parameter : string) : option string :=
  if (parameter =? "spot")%string then Some "S"%string
  else if (parameter =? "volatility")%string then Some "sigma"%string
  else if (parameter =? "time")%string then Some "T"%string
  else if (parameter =? "rate")%string then Some "r"%string
  else None.

Record Sensitivity : Type := {
  s_parameter : string;
  s_values : list R;
  s_prices : list R
}.

Definition sensitivity_analysis (S K T r sigma : scalar)
           (option_type parameter : string) (variation_range : R)
  : result Sensitivity :=
  let base_values : dict :=
    dict_set (dict_set (dict_set (dict_set (dict_set (fun _ => float 0)
      "S" S) "K" K) "T" T) "r" r) "sigma" sigma in
  match param_map parameter with
  | None => Raise (ValueError ("Invalid parameter: " ++ parameter))
  | Some param_key =>
      let base_value := base_values param_key in
      let param_values :=
        if (parameter =? "time")%string then
          Np.linspace (Np.maximum 0.01 (base_value * (1 - variation_range)))
                      (base_value * (1 + variation_range)) 50
        else
          Np.linspace (base_value * (1 - variation_range))
                      (base_value * (1 + variation_range)) 50 in
      prices <-
        for_each param_values
          (fun prices value =>
             let params := dict_set base_values param_key (float64 value) in
             let model :=
               BlackScholes.__init__ (params "S"%string) (params "K"%string)
                                 (params "T"%string) (params "r"%string)
                                 (params "sigma"%string) option_type in
             pr <- BlackScholes.price model ;;
             Ok (prices ++ [pr]))
          [] ;;
      Ok {| s_parameter := parameter; s_values := param_values;
            s_prices := prices |}
  end.

Definition default_variation_range : R := 0.2.

End OptionsAnalyzer.

(** ** Indexing an array of known shape *)

Module Indexed.

(** The exceptions of the engines, and numpy's [IndexError]: "index [index]
    is out of bounds for axis [axis] with size [size]". *)
Inductive exn : Type :=
| Raised (e : Py.exn)
| IndexError (index axis size : nat).

Inductive result (A : Type) : Type :=
| Ok (a : A)
| Raise (e : exn).
Arguments Ok {A} a.
Arguments Raise {A} e.

Definition bind {A B : Type} (x : result A) (k : A -> result B) : result B :=
  match x with
  | Ok a => k a
  | Raise e => Raise e
  end.

Definition lift {A : Type} (x : Py.result A) : result A :=
  match x with
  | Py.Ok a => Ok a
  | Py.Raise e => Raise (Raised e)
  end.

(** A two-dimensional array with its shape. *)
Record array2 : Type := { shape0 : nat; shape1 : nat; data : Np.ndarray }.

(** [a[j, i]] for non-negative [j] and [i]: axis 0 is checked first. *)
Definition getitem (a : array2) (j i : nat) : result R :=
  if (shape0 a <=? j)%nat then Raise (IndexError j 0 (shape0 a))
  else if (shape1 a <=? i)%nat then Raise (IndexError i 1 (shape1 a))
  else Ok (data a j i).

End Indexed.

Notation "x <-- c ;; k" := (Indexed.bind c (fun x => k))
  (at level 61, c at next level, right associativity) : py_scope.
Notation "' p <-- c ;; k" := (Indexed.bind c (fun p => k))
  (at level 61, p pattern, c at next level, right associativity) : py_scope.

(** ** models/binomial_tree.py: the trees and the lattice Greeks *)

Module BinomialGreeks.

(** [get_tree]: the loops of [price] once more; both trees are returned,
    with their shape [(steps + 1, steps + 1)]. *)
Definition get_tree (self : BinomialTree.BinomialTreeModel)
  : Py.result (Indexed.array2 * Indexed.array2) :=
  let steps := BinomialTree.steps self in
  let stock_tree := BinomialTree._build_stock_tree self in
  let option_tree := Np.zeros in
  option_tree <-
    for_each (seq 0 (steps + 1))
      (fun option_tree j =>
         v <- BinomialTree._calculate_option_value self (stock_tree j steps) ;;
         Py.Ok (Np.setitem option_tree j steps v))
      option_tree ;;
  option_tree <-
    for_each (rev (seq 0 steps))
      (fun option_tree i =>
         for_each (seq 0 (i + 1))
                  (BinomialTree.induction_node self stock_tree i)
                  option_tree)
      option_tree ;;
  Py.Ok ({| Indexed.shape0 := steps + 1; Indexed.shape1 := steps + 1;
            Indexed.data := stock_tree |},
         {| Indexed.shape0 := steps + 1; Indexed.shape1 := steps + 1;
            Indexed.data := option_tree |}).

(** [delta]: the operands are read left to right. *)
Definition delta (self : BinomialTree.BinomialTreeModel) : Indexed.result R :=
  ' (stock_tree, option_tree) <-- Indexed.lift (get_tree self) ;;
  o01 <-- Indexed.getitem option_tree 0 1 ;;
  o11 <-- Indexed.getitem option_tree 1 1 ;;
  s01 <-- Indexed.getitem stock_tree 0 1 ;;
  s11 <-- Indexed.getitem stock_tree 1 1 ;;
  Indexed.Ok ((o01 - o11) / (s01 - s11)).

Definition gamma (self : BinomialTree.BinomialTreeModel) : Indexed.result R :=
  ' (stock_tree, option_tree) <-- Indexed.lift (get_tree self) ;;
  o02 <-- Indexed.getitem option_tree 0 2 ;;
  o12 <-- Indexed.getitem option_tree 1 2 ;;
  s02 <-- Indexed.getitem stock_tree 0 2 ;;
  s12 <-- Indexed.getitem stock_tree 1 2 ;;
  let delta_up := (o02 - o12) / (s02 - s12) in
  o12' <-- Indexed.getitem option_tree 1 2 ;;
  o22 <-- Indexed.getitem option_tree 2 2 ;;
  s12' <-- Indexed.getitem stock_tree 1 2 ;;
  s22 <-- Indexed.getitem stock_tree 2 2 ;;
  let delta_down := (o12' - o22) / (s12' - s22) in
  s02' <-- Indexed.getitem stock_tree 0 2 ;;
  s22' <-- Indexed.getitem stock_tree 2 2 ;;
  Indexed.Ok ((delta_up - delta_down) / ((s02' - s22') / 2)).

End BinomialGreeks.

(** ** models/monte_carlo.py: the finite-difference Greeks *)

Module MonteCarloGreeks.

(** [self.S = v] and [self.sigma = v] *)
Definition set_S (self : MonteCarlo.MonteCarloModel) (v : scalar)
  : MonteCarlo.MonteCarloModel :=
  {| MonteCarlo.S := v; MonteCarlo.K := MonteCarlo.K self;
     MonteCarlo.T := MonteCarlo.T self; MonteCarlo.r := MonteCarlo.r self;
     MonteCarlo.sigma := MonteCarlo.sigma self;
     MonteCarlo.simulations := MonteCarlo.simulations self;
     MonteCarlo.option_type := MonteCarlo.option_type self;
     MonteCarlo.seed := MonteCarlo.seed self |}.

Definition set_sigma (self : MonteCarlo.MonteCarloModel) (v : scalar)
  : MonteCarlo.MonteCarloModel :=
  {| MonteCarlo.S := MonteCarlo.S self; MonteCarlo.K := MonteCarlo.K self;
     MonteCarlo.T := MonteCarlo.T self; MonteCarlo.r := MonteCarlo.r self;
     MonteCarlo.sigma := v;
     MonteCarlo.simulations := MonteCarlo.simulations self;
     MonteCarlo.option_type := MonteCarlo.option_type self;
     MonteCarlo.seed := MonteCarlo.seed self |}.

(** The default [steps] of [price]. *)
Definition default_steps : nat := 100.

(** [a * b] and [a + b] with a Python [float] [b]: the result is numpy's
    exactly when [a] is. *)
Definition scale (a : scalar) (b : R) : scalar :=
  {| val := a * b; is_numpy := is_numpy a |}.

Definition shift (a : scalar) (b : R) : scalar :=
  {| val := a + b; is_numpy := is_numpy a |}.

(** [delta]: the engine it leaves behind is returned next to the result.
    An exception of either [price] call leaves the method where it is
    raised. *)
Definition delta (self : MonteCarlo.MonteCarloModel) (bump : R)
  : Random.state -> result R * MonteCarlo.MonteCarloModel * Random.state :=
  fun g =>
    match MonteCarlo.price self default_steps g with
    | (Py.Raise e, g1) => (Py.Raise e, self, g1)
    | (Py.Ok price_original, g1) =>
        let original_S := MonteCarlo.S self in
        let self := set_S self (scale original_S (1 + bump)) in
        match MonteCarlo.price self default_steps g1 with
        | (Py.Raise e, g2) => (Py.Raise e, self, g2)
        | (Py.Ok price_bumped, g2) =>
            let self := set_S self original_S in
            (Py.Ok ((price_bumped - price_original) / (original_S * bump)),
             self, g2)
        end
    end.

Definition vega (self : MonteCarlo.MonteCarloModel) (bump : R)
  : Random.state -> result R * MonteCarlo.MonteCarloModel * Random.state :=
  fun g =>
    match MonteCarlo.price self default_steps g with
    | (Py.Raise e, g1) => (Py.Raise e, self, g1)
    | (Py.Ok price_original, g1) =>
        let original_sigma := MonteCarlo.sigma self in
        let self := set_sigma self (shift original_sigma bump) in
        match MonteCarlo.price self default_steps g1 with
        | (Py.Raise e, g2) => (Py.Raise e, self, g2)
        | (Py.Ok price_bumped, g2) =>
            let self := set_sigma self original_sigma in
            (Py.Ok ((price_bumped - price_original) / bump / 100), self, g2)
        end
    end.

End MonteCarloGreeks.

(** ** utils/analyzer.py: the comparison of the three models *)

Module Comparison.

Record BlackScholesReport : Type := {
  bs_price : R;
  bs_greeks : BlackScholes.Greeks
}.

Record BinomialReport : Type := {
  bt_price : R;
  bt_delta : R;
  bt_gamma : R
}.

Record MonteCarloReport : Type := {
  mc_price : R;
  mc_confidence_interval : R * R;
  mc_std_error : R
}.

Record Report : Type := {
  black_scholes : BlackScholesReport;
  binomial_tree : BinomialReport;
  monte_carlo : MonteCarloReport
}.

Definition binomial_steps : nat := 100.
Definition monte_carlo_simulations : nat := 100 * 100.
Definition monte_carlo_seed : Z := 42.
Definition default_confidence : R := 0.95.

Section CompareModels.

Variable seeded_normals : Z -> nat -> R.
Variable norm_ppf : R -> R.

(** [compare_models]: the three models in turn; the first exception ends
    the comparison, with the generator as it is at that point. *)
Definition compare_models (S K T r sigma : scalar) (option_type : string)
  : Random.state -> Indexed.result Report * Random.state :=
  fun g =>
    let bs_model := BlackScholes.__init__ S K T r sigma option_type in
    match BlackScholes.price bs_model with
    | Py.Raise e => (Indexed.Raise (Indexed.Raised e), g)
    | Py.Ok price =>
    match BlackScholes.greeks bs_model with
    | Py.Raise e => (Indexed.Raise (Indexed.Raised e), g)
    | Py.Ok greeks =>
    match BinomialTree.__init__ S K T r sigma binomial_steps option_type
                                "european" with
    | Py.Raise e => (Indexed.Raise (Indexed.Raised e), g)
    | Py.Ok bt_model =>
    match BinomialTree.price bt_model with
    | Py.Raise e => (Indexed.Raise (Indexed.Raised e), g)
    | Py.Ok bt_price =>
    match BinomialGreeks.delta bt_model with
    | Indexed.Raise e => (Indexed.Raise e, g)
    | Indexed.Ok bt_delta =>
    match BinomialGreeks.gamma bt_model with
    | Indexed.Raise e => (Indexed.Raise e, g)
    | Indexed.Ok bt_gamma =>
    match MonteCarlo.__init__ seeded_normals S K T r sigma
                              monte_carlo_simulations option_type
                              (Some monte_carlo_seed) g with
    | (Py.Raise e, g1) => (Indexed.Raise (Indexed.Raised e), g1)
    | (Py.Ok mc_model, g1) =>
    match MonteCarlo.price_with_confidence norm_ppf mc_model
            MonteCarloGreeks.default_steps default_confidence g1 with
    | (Py.Raise e, g2) => (Indexed.Raise (Indexed.Raised e), g2)
    | (Py.Ok mc_result, g2) =>
        (Indexed.Ok
           {| black_scholes := {| bs_price := price; bs_greeks := greeks |};
              binomial_tree := {| bt_price := bt_price; bt_delta := bt_delta;
                                  bt_gamma := bt_gamma |};
              monte_carlo :=
                {| mc_price := MonteCarlo.c_price mc_result;
                   mc_confidence_interval :=
                     (MonteCarlo.c_lower_bound mc_result,
                      MonteCarlo.c_upper_bound mc_result);
                   mc_std_error := MonteCarlo.c_std_error mc_result |} |},
         g2)
    end end end end end end end end.

End CompareModels.

End Comparison.

(** * Reference definitions

    The quantities the properties below are stated with: the formulas of
    the specification, the closed forms of what the loops compute, and the
    call sequences and sample inputs the properties run. *)

Definition kind_error : exn :=
  ValueError "option_type must be 'call' or 'put'".

(** ** Black-Scholes *)

Definition bs_d1 (S K T r sigma : R) : R :=
  (ln (S / K) + (r + 0.5 * sigma ^ 2) * T) / (sigma * sqrt T).

Definition bs_d2 (S K T r sigma : R) : R :=
  bs_d1 S K T r sigma - sigma * sqrt T.

(** The Black-Scholes price of a call, and of a put for any other kind. *)
Definition bs_value (kind : string) (S K T r sigma : R) : R :=
  if (kind =? "call")%string then
    S * Np.norm_cdf (bs_d1 S K T r sigma)
    - K * exp (- r * T) * Np.norm_cdf (bs_d2 S K T r sigma)
  else
    K * exp (- r * T) * Np.norm_cdf (- bs_d2 S K T r sigma)
    - S * Np.norm_cdf (- bs_d1 S K T r sigma).

(** ** Payoff diagrams *)

Definition intrinsic_value (call : bool) (K s : R) : R :=
  if call then Rmax (s - K) 0 else Rmax (K - s) 0.

(** ** Sensitivity analysis *)

Inductive target : Type := Spot | Volatility | TimeToMaturity | Rate.

Definition target_name (t : target) : string :=
  match t with
  | Spot => "spot" | Volatility => "volatility"
  | TimeToMaturity => "time" | Rate => "rate"
  end.

Definition target_base (t : target) (S T r sigma : R) : R :=
  match t with
  | Spot => S | Volatility => sigma | TimeToMaturity => T | Rate => r
  end.

(** The contract with the swept parameter replaced by [v]. *)
Definition contract_at (t : target) (v : scalar) (S K T r sigma : scalar)
           (kind : string) : BlackScholes.BlackScholesModel :=
  match t with
  | Spot => BlackScholes.__init__ v K T r sigma kind
  | Volatility => BlackScholes.__init__ S K T r v kind
  | TimeToMaturity => BlackScholes.__init__ S K v r sigma kind
  | Rate => BlackScholes.__init__ S K T v sigma kind
  end.

Definition contract_value (t : target) (v : R) (S K T r sigma : R)
           (kind : string) : R :=
  match t with
  | Spot => bs_value (lower kind) v K T r sigma
  | Volatility => bs_value (lower kind) S K T r v
  | TimeToMaturity => bs_value (lower kind) S K v r sigma
  | Rate => bs_value (lower kind) S K T v sigma
  end.

(** Where the sweep starts: raised to 0.01 for the time target. *)
Definition sweep_start (t : target) (base range : R) : R :=
  match t with
  | TimeToMaturity => Rmax 0.01 (base * (1 - range))
  | _ => base * (1 - range)
  end.

(** ** The implied-volatility solver in the words of the specification *)

(** What one run of the solver reports. *)
Inductive outcome : Type :=
| Converged (sigma : R)
| ZeroVega
| BudgetExhausted.

Section SolverSpec.

Variables (market_price S K T r : R) (kind : string) (tolerance : R).

(** The vega the update divides by: not scaled by 1/100. *)
Definition full_vega (sigma : R) : R :=
  S * Np.norm_pdf (bs_d1 S K T r sigma) * sqrt T.

Definition clamp_sigma (sigma : R) : R :=
  if Rle_dec sigma 0 then 0.01 else sigma.

Fixpoint solver_spec (budget : nat) (sigma : R) : outcome :=
  match budget with
  | O => BudgetExhausted
  | Datatypes.S budget' =>
      let price := bs_value kind S K T r sigma in
      if Rlt_dec (Rabs (market_price - price)) tolerance then Converged sigma
      else if Req_dec_T (full_vega sigma) 0 then ZeroVega
      else solver_spec budget'
             (clamp_sigma (sigma + (market_price - price) / full_vega sigma))
  end.

End SolverSpec.

(** What the caller of the code receives: the two failures are the same
    [None]. *)
Definition report (o : outcome) : option R :=
  match o with
  | Converged sigma => Some sigma
  | ZeroVega => None
  | BudgetExhausted => None
  end.

(** ** The binomial lattice *)

Section Lattice.

Variable self : BinomialTree.BinomialTreeModel.

(** The stock price at node (j, i): [i - j] up-moves and [j] down-moves. *)
Definition node_price (j i : nat) : R :=
  BinomialTree.S self * BinomialTree.u self ^ (i - j)
  * BinomialTree.d self ^ j.

(** The exercise value of a call, and of a put for any other kind. *)
Definition exercise_payoff (stock_price : R) : R :=
  if (BinomialTree.option_type self =? "call")%string
  then Rmax 0 (stock_price - BinomialTree.K self)
  else Rmax 0 (BinomialTree.K self - stock_price).

Definition continuation (below_j below_j1 : R) : R :=
  BinomialTree.discount self
  * (BinomialTree.p self * below_j + (1 - BinomialTree.p self) * below_j1).

(** The value at node (j, i) of a lattice whose last column lies [depth]
    columns further on. *)
Fixpoint lattice_value (depth j i : nat) : R :=
  match depth with
  | O => exercise_payoff (node_price j i)
  | S depth' =>
      let c := continuation (lattice_value depth' j (i + 1))
                            (lattice_value depth' (j + 1) (i + 1)) in
      if (BinomialTree.exercise self =? "american")%string
      then Rmax c (exercise_payoff (node_price j i))
      else c
  end.

(** The loop bodies of [price] on a call or a put, where they do not
    raise. *)
Definition terminal_node (option_tree : Np.ndarray) (j : nat) : Np.ndarray :=
  Np.setitem option_tree j (BinomialTree.steps self)
    (exercise_payoff
       (BinomialTree._build_stock_tree self j (BinomialTree.steps self))).

Definition backward_node (i : nat) (option_tree : Np.ndarray) (j : nat)
  : Np.ndarray :=
  let option_tree' :=
    Np.setitem option_tree j i
      (continuation (option_tree j (i + 1)%nat)
                    (option_tree (j + 1)%nat (i + 1)%nat)) in
  if (BinomialTree.exercise self =? "american")%string
  then Np.setitem option_tree' j i
         (Np.maximum
            (option_tree' j i)
            (exercise_payoff (BinomialTree._build_stock_tree self j i)))
  else option_tree'.

Definition backward_column (option_tree : Np.ndarray) (i : nat) : Np.ndarray :=
  fold_left (backward_node i) (seq 0 (i + 1)) option_tree.

(** The value [backward_node] writes at (j, i), read off column [i + 1]. *)
Definition node_value (option_tree : Np.ndarray) (j i : nat) : R :=
  let c := continuation (option_tree j (i + 1)%nat)
                        (option_tree (j + 1)%nat (i + 1)%nat) in
  if (BinomialTree.exercise self =? "american")%string
  then Rmax c (exercise_payoff (BinomialTree._build_stock_tree self j i))
  else c.

(** The invariant of the backward induction: the columns from [from] on
    hold the lattice values. *)
Definition columns_done (from : nat) (option_tree : Np.ndarray) : Prop :=
  forall i j, (from <= i <= BinomialTree.steps self)%nat -> (j <= i)%nat ->
    option_tree j i = lattice_value (BinomialTree.steps self - i) j i.

End Lattice.

(** Two engines that differ in nothing but the exercise style. *)
Definition same_lattice (a b : BinomialTree.BinomialTreeModel) : Prop :=
  BinomialTree.S a = BinomialTree.S b /\
  BinomialTree.K a = BinomialTree.K b /\
  BinomialTree.u a = BinomialTree.u b /\
  BinomialTree.d a = BinomialTree.d b /\
  BinomialTree.p a = BinomialTree.p b /\
  BinomialTree.discount a = BinomialTree.discount b /\
  BinomialTree.option_type a = BinomialTree.option_type b.

(** ** Monte Carlo paths and prices *)

Section Paths.

Variable self : MonteCarlo.MonteCarloModel.
Variable dt : R.

(** One step of the discretised geometric Brownian motion. *)
Definition gbm_factor (z : R) : R :=
  exp ((MonteCarlo.r self - 0.5 * MonteCarlo.sigma self ^ 2) * dt
       + MonteCarlo.sigma self * sqrt dt * z).

(** Path [i] at step [t] when the draws are [normals 0], [normals 1], ...:
    step [t] of path [i] uses draw number [(t - 1) * simulations + i]. *)
Fixpoint gbm_path (normals : nat -> R) (i t : nat) : R :=
  match t with
  | O => MonteCarlo.S self
  | S t' =>
      gbm_path normals i t'
      * gbm_factor (normals (t' * MonteCarlo.simulations self + i)%nat)
  end.

(** The body of the loop of [_simulate_paths]. *)
Definition path_step (paths : Np.ndarray) (t : nat) : Random.M Np.ndarray :=
  z <~ Random.standard_normal (MonteCarlo.simulations self) ;;
  Random.ret
    (Np.setcolumn paths t
       (fun i => paths i (t - 1)%nat * gbm_factor (nth i z 0))).

End Paths.

(** The draws still to come: draw [k] counted from the current position. *)
Definition upcoming (g : Random.state) : nat -> R :=
  fun k => Random.stream g (Random.pos g + k).

Definition step_length (self : MonteCarlo.MonteCarloModel) (steps : nat) : R :=
  MonteCarlo.T self / INR steps.

(** The payoff of a call, and of a put for any other kind. *)
Definition mc_payoff (self : MonteCarlo.MonteCarloModel) (x : R) : R :=
  if (MonteCarlo.option_type self =? "call")%string
  then Rmax (x - MonteCarlo.K self) 0
  else Rmax (MonteCarlo.K self - x) 0.

(** The terminal prices of the simulated paths. *)
Definition terminal_prices (self : MonteCarlo.MonteCarloModel) (steps : nat)
           (normals : nat -> R) : list R :=
  map (fun i => gbm_path self (step_length self steps) normals i steps)
      (seq 0 (MonteCarlo.simulations self)).

Definition mc_price_value (self : MonteCarlo.MonteCarloModel) (steps : nat)
           (normals : nat -> R) : R :=
  exp (- MonteCarlo.r self * MonteCarlo.T self)
  * Np.mean (map (mc_payoff self) (terminal_prices self steps normals)).

Definition mc_confidence_value (norm_ppf : R -> R)
           (self : MonteCarlo.MonteCarloModel) (steps : nat) (confidence : R)
           (normals : nat -> R) : MonteCarlo.Confidence :=
  let discounted :=
    map (fun x => exp (- MonteCarlo.r self * MonteCarlo.T self) * x)
        (map (mc_payoff self) (terminal_prices self steps normals)) in
  let price := Np.mean discounted in
  let std_error :=
    Np.std discounted / sqrt (INR (MonteCarlo.simulations self)) in
  let z := norm_ppf ((1 + confidence) / 2) in
  {| MonteCarlo.c_price := price;
     MonteCarlo.c_std := Np.std discounted;
     MonteCarlo.c_std_error := std_error;
     MonteCarlo.c_lower_bound := price - z * std_error;
     MonteCarlo.c_upper_bound := price + z * std_error |}.

(** ** Call sequences on the process-wide generator *)

Section TwoEngines.

Variable seeded_normals : Z -> nat -> R.
Variable norm_ppf : R -> R.

Variables (S K T r sigma : scalar) (simulations : nat) (kind : string).
Variable seed : Z.
Variables (steps : nat) (confidence : R).

(** Each engine is priced right after its own construction. *)
Definition construct_price_construct_price
  : Random.M (MonteCarlo.Confidence * MonteCarlo.Confidence) :=
  a <~ MonteCarlo.__init__ seeded_normals S K T r sigma simulations kind
                       (Some seed) ;;
  ra <~ MonteCarlo.price_with_confidence norm_ppf a steps confidence ;;
  b <~ MonteCarlo.__init__ seeded_normals S K T r sigma simulations kind
                       (Some seed) ;;
  rb <~ MonteCarlo.price_with_confidence norm_ppf b steps confidence ;;
  Random.ret (ra, rb).

(** Both engines are constructed before either is priced. *)
Definition construct_construct_price_price
  : Random.M (MonteCarlo.Confidence * MonteCarlo.Confidence) :=
  a <~ MonteCarlo.__init__ seeded_normals S K T r sigma simulations kind
                       (Some seed) ;;
  b <~ MonteCarlo.__init__ seeded_normals S K T r sigma simulations kind
                       (Some seed) ;;
  ra <~ MonteCarlo.price_with_confidence norm_ppf a steps confidence ;;
  rb <~ MonteCarlo.price_with_confidence norm_ppf b steps confidence ;;
  Random.ret (ra, rb).

(** The engine the constructor builds. *)
Definition constructed : MonteCarlo.MonteCarloModel :=
  {| MonteCarlo.S := S; MonteCarlo.K := K; MonteCarlo.T := T;
     MonteCarlo.r := r; MonteCarlo.sigma := sigma;
     MonteCarlo.simulations := simulations;
     MonteCarlo.option_type := lower kind;
     MonteCarlo.seed := Some seed |}.

End TwoEngines.

(** [self.get_paths(num_paths, path_steps)] followed by
    [self.price(steps)]. *)
Definition inspect_then_price (self : MonteCarlo.MonteCarloModel)
           (num_paths path_steps steps : nat) : Random.M R :=
  fun g =>
    match MonteCarlo.get_paths self num_paths path_steps g with
    | (Ok _, self', g') => MonteCarlo.price self' steps g'
    | (Raise e, _, g') => (Raise e, g')
    end.

(** ** Sample inputs *)

(** A generator to run the engines on: whatever the seed, the draws are
    0, 1, 2, ...; and a quantile function returning 1.96 throughout. *)
Definition counting_normals : Z -> nat -> R := fun _ n => INR n.

Definition z_95 : R -> R := fun _ => 1.96.

(** The generator before any seeding, and after [np.random.seed(42)]. *)
Definition unseeded : Random.state :=
  {| Random.stream := fun _ => 0; Random.pos := 0 |}.

Definition seeded_42 : Random.state :=
  {| Random.stream := counting_normals 42; Random.pos := 0 |}.

(** The at-the-money call on S = K = 100, T = 1, r = 0.05, sigma = 0.2 with
    seed 42, as an engine of 1000 simulations and as one of a single
    simulation. *)
Definition sample_engine : MonteCarlo.MonteCarloModel :=
  constructed (float 100) (float 100) (float 1) (float 0.05) (float 0.2)
              1000 "call" 42.

Definition single_path_engine : MonteCarlo.MonteCarloModel :=
  constructed (float 100) (float 100) (float 1) (float 0.05) (float 0.2)
              1 "call" 42.

(** ** Ranges in which the embedding follows the source *)

(** Python's [x ** 2] on a [float] raises OverflowError once the square
    leaves the range of a double, a little above |x| = 1.34e154; the
    embedding writes [x ^ 2] and follows the source for the [x] below. *)
Definition square_in_float_range (x : R) : Prop := Rabs x <= 1e154.

(** Step and simulation counts are positive integers; [max_count], the
    default number of simulations, bounds the ones the statements on all
    values speak of, so that the arrays are of a size numpy allocates. *)
Definition max_count : nat := 100 * 100.

Definition count_in_range (n : nat) : Prop := (1 <= n <= max_count)%nat.

(** [np.random.seed] accepts the integers from 0 to 2^32 - 1 and raises
    ValueError on any other; an engine constructed without a seed does not
    call it. *)
Definition seed_accepted (seed : option Z) : Prop :=
  match seed with
  | Some s => (0 <= s < 2 ^ 32)%Z
  | None => True
  end.

(** * Properties *)

(** ** The Python run-time and numpy *)

Lemma truediv_nonzero : forall a b : scalar,
  val b <> 0 -> truediv a b = Ok (val a / val b).
Proof.
  intros a b Hb. unfold truediv.
  destruct (is_numpy a || is_numpy b); [reflexivity|].
  destruct (Req_dec_T (val b) 0) as [E | _]; [contradiction | reflexivity].
Qed.

Lemma truediv_int_nonzero : forall (a : scalar) (n : nat),
  n <> 0%nat -> truediv_int a n = Ok (val a / INR n).
Proof.
  intros a n Hn. unfold truediv_int.
  rewrite truediv_nonzero; [reflexivity|]. simpl. apply not_0_INR; exact Hn.
Qed.

(** ** The standard normal distribution function *)

Lemma norm_pdf_even : forall x, Np.norm_pdf (- x) = Np.norm_pdf x.
Proof. intro x. unfold Np.norm_pdf. do 3 f_equal. ring. Qed.

Lemma norm_pdf_pos : forall x, 0 < Np.norm_pdf x.
Proof.
  intro x. unfold Np.norm_pdf. apply Rdiv_lt_0_compat.
  - apply exp_pos.
  - apply sqrt_lt_R0. pose proof PI_RGT_0. lra.
Qed.

(** The mass between [0] and [b] equals the mass between [-b] and [0]:
    both primitives of an even density differ by a constant. *)
Lemma half_mass_reflect_nonneg :
  forall b (pb : Riemann_integrable Np.norm_pdf 0 b)
         (pc : Riemann_integrable Np.norm_pdf 0 (- b)),
    0 <= b -> RiemannInt pb = - RiemannInt pc.
Proof.
  intros b pb pc Hb.
  assert (h : - b <= b) by lra.
  assert (C0 : forall x, - b <= x <= b -> continuity_pt Np.norm_pdf x)
    by (intros; apply Np.norm_pdf_continuous).
  pose (P := primitive h (FTC_P1 h C0)).
  assert (HP : antiderivative Np.norm_pdf P (- b) b) by apply RiemannInt_P29.
  assert (HQ : antiderivative Np.norm_pdf (fun x => - P (- x)) (- b) b).
  { split; [|exact h]. intros x Hx.
    destruct HP as [HP _]. destruct (HP (- x)) as [pr Hpr]; [lra|].
    assert (Hlim : derivable_pt_lim (fun x => - P (- x)) x (Np.norm_pdf x)).
    { replace (Np.norm_pdf x) with (- (Np.norm_pdf (- x) * -1))
        by (rewrite norm_pdf_even; ring).
      apply (derivable_pt_lim_opp (fun x => P (- x))).
      apply (derivable_pt_lim_comp (fun x => - x) P).
      - replace (-1) with (- 1) by ring.
        apply (derivable_pt_lim_opp id). apply derivable_pt_lim_id.
      - rewrite Hpr. destruct pr as [l Hl]. exact Hl. }
    exists (exist _ (Np.norm_pdf x) Hlim).
    symmetry. apply derive_pt_eq_0. exact Hlim. }
  destruct (antiderivative_Ucte _ _ _ _ _ HP HQ) as [c Hc].
  assert (Pa : P (- b) = 0).
  { unfold P, primitive.
    destruct (Rle_dec (- b) (- b)) as [q|n]; [|exfalso; clear -n; lra].
    destruct (Rle_dec (- b) b) as [q0|n]; [|exfalso; clear -n Hb; lra].
    apply RiemannInt_P9. }
  assert (Pb : P b = RiemannInt (Np.norm_pdf_integrable (- b) b)).
  { unfold P, primitive.
    destruct (Rle_dec (- b) b) as [q|n]; [|exfalso; clear -n Hb; lra].
    destruct (Rle_dec b b) as [q0|n]; [|exfalso; clear -n; lra].
    apply RiemannInt_P5. }
  assert (P0 : P 0 = RiemannInt (Np.norm_pdf_integrable (- b) 0)).
  { unfold P, primitive.
    destruct (Rle_dec (- b) 0) as [q|n]; [|exfalso; clear -n Hb; lra].
    destruct (Rle_dec 0 b) as [q0|n]; [|exfalso; clear -n Hb; lra].
    apply RiemannInt_P5. }
  pose proof (Hc b ltac:(lra)) as Eb. cbv beta in Eb. rewrite Pa in Eb.
  pose proof (Hc 0 ltac:(lra)) as E0. cbv beta in E0.
  replace (- 0) with 0 in E0 by ring.
  pose proof (RiemannInt_P26 (Np.norm_pdf_integrable (- b) 0) pb
                             (Np.norm_pdf_integrable (- b) b)) as Ch.
  pose proof (RiemannInt_P8 (Np.norm_pdf_integrable (- b) 0) pc) as Sw.
  lra.
Qed.

Lemma half_mass_reflect :
  forall b c (pb : Riemann_integrable Np.norm_pdf 0 b)
         (pc : Riemann_integrable Np.norm_pdf 0 c),
    c = - b -> RiemannInt pb = - RiemannInt pc.
Proof.
  intros b c pb pc ->. destruct (Rle_dec 0 b) as [Hb | Hb].
  - apply half_mass_reflect_nonneg; exact Hb.
  - assert (pb' : Riemann_integrable Np.norm_pdf 0 (- - b))
      by apply Np.norm_pdf_integrable.
    rewrite (half_mass_reflect_nonneg (- b) pc pb') by lra.
    assert (E : RiemannInt pb' = RiemannInt pb).
    { clear. revert pb'. rewrite Ropp_involutive. intros; apply RiemannInt_P5. }
    lra.
Qed.

(** [norm.cdf(-x) = 1 - norm.cdf(x)] *)
Lemma norm_cdf_sym : forall x, Np.norm_cdf (- x) = 1 - Np.norm_cdf x.
Proof.
  intro x. unfold Np.norm_cdf.
  rewrite (half_mass_reflect x (- x) (Np.norm_pdf_integrable 0 x)
                             (Np.norm_pdf_integrable 0 (- x)) eq_refl).
  lra.
Qed.

(** ** Black-Scholes *)

Lemma bs_d1_d2_ok : forall (S K T r sigma : scalar) kind,
  val K <> 0 ->
  BlackScholes._calculate_d1_d2 (BlackScholes.__init__ S K T r sigma kind)
  = Ok (bs_d1 S K T r sigma, bs_d2 S K T r sigma).
Proof.
  intros S K T r sigma kind HK. unfold BlackScholes._calculate_d1_d2.
  simpl. rewrite truediv_nonzero by exact HK. reflexivity.
Qed.

Lemma bs_d1_d2_zero_strike : forall (S T r sigma : scalar) kind,
  is_numpy S = false ->
  BlackScholes._calculate_d1_d2
    (BlackScholes.__init__ S (float 0) T r sigma kind)
  = Raise ZeroDivisionError.
Proof.
  intros S T r sigma kind HS. unfold BlackScholes._calculate_d1_d2, truediv.
  simpl. rewrite HS. simpl.
  destruct (Req_dec_T 0 0) as [_ | N]; [reflexivity|].
  contradiction N; reflexivity.
Qed.

Lemma bs_price_call : forall (S K T r sigma : scalar) kind,
  val K <> 0 -> lower kind = "call"%string ->
  BlackScholes.price (BlackScholes.__init__ S K T r sigma kind)
  = Ok (S * Np.norm_cdf (bs_d1 S K T r sigma)
        - K * exp (- r * T) * Np.norm_cdf (bs_d2 S K T r sigma)).
Proof.
  intros S K T r sigma kind HK Hk. unfold BlackScholes.price.
  rewrite bs_d1_d2_ok by exact HK. simpl. rewrite Hk. reflexivity.
Qed.

Lemma bs_price_put : forall (S K T r sigma : scalar) kind,
  val K <> 0 -> lower kind = "put"%string ->
  BlackScholes.price (BlackScholes.__init__ S K T r sigma kind)
  = Ok (K * exp (- r * T) * Np.norm_cdf (- bs_d2 S K T r sigma)
        - S * Np.norm_cdf (- bs_d1 S K T r sigma)).
Proof.
  intros S K T r sigma kind HK Hk. unfold BlackScholes.price.
  rewrite bs_d1_d2_ok by exact HK. simpl. rewrite Hk. reflexivity.
Qed.

Lemma bs_price_unknown_kind : forall (S K T r sigma : scalar) kind,
  lower kind <> "call"%string -> lower kind <> "put"%string ->
  BlackScholes.price (BlackScholes.__init__ S K T r sigma kind)
  = (_ <- BlackScholes._calculate_d1_d2
            (BlackScholes.__init__ S K T r sigma kind) ;;
     Raise kind_error).
Proof.
  intros S K T r sigma kind Hc Hp. unfold BlackScholes.price.
  destruct (BlackScholes._calculate_d1_d2 _) as [[d1 d2] | e]; simpl;
    [|reflexivity].
  apply String.eqb_neq in Hc, Hp. rewrite Hc, Hp. reflexivity.
Qed.

Lemma bs_vega_ok : forall (S K T r sigma : scalar) kind,
  val K <> 0 ->
  BlackScholes.vega (BlackScholes.__init__ S K T r sigma kind)
  = Ok (S * Np.norm_pdf (bs_d1 S K T r sigma) * sqrt T / 100).
Proof.
  intros S K T r sigma kind HK. unfold BlackScholes.vega.
  rewrite bs_d1_d2_ok by exact HK. reflexivity.
Qed.

(** C4.  For every valid contract (S, K, T and sigma strictly positive) the
    Black-Scholes engine prices both the call and the put, and the call
    price minus the put price is S - K * exp(-r*T): put-call parity, exact
    over the reals. *)
Theorem put_call_parity : forall (S K T r sigma : scalar),
  0 < S -> 0 < K -> 0 < T -> 0 < sigma ->
  exists call put : R,
    BlackScholes.price (BlackScholes.__init__ S K T r sigma "call") = Ok call /\
    BlackScholes.price (BlackScholes.__init__ S K T r sigma "put") = Ok put /\
    call - put = S - K * exp (- r * T).
Proof.
  intros S K T r sigma HS HK HT Hsig.
  assert (HK0 : val K <> 0) by lra.
  eexists; eexists. split; [|split].
  - apply bs_price_call; [exact HK0 | reflexivity].
  - apply bs_price_put; [exact HK0 | reflexivity].
  - rewrite !norm_cdf_sym. ring.
Qed.

Lemma put_call_parity_witness :
  exists call put : R,
    BlackScholes.price
      (BlackScholes.__init__ (float 100) (float 100) (float 1) (float 0.05)
                             (float 0.2) "call") = Ok call /\
    BlackScholes.price
      (BlackScholes.__init__ (float 100) (float 100) (float 1) (float 0.05)
                             (float 0.2) "put") = Ok put /\
    call - put = 100 - 100 * exp (- (0.05) * 1).
Proof.
  apply (put_call_parity (float 100) (float 100) (float 1) (float 0.05)
                         (float 0.2)); simpl; lra.
Defined.

Lemma calculate_d1_d2_ok : forall self : BlackScholes.BlackScholesModel,
  val (BlackScholes.K self) <> 0 ->
  BlackScholes._calculate_d1_d2 self
  = Ok (bs_d1 (BlackScholes.S self) (BlackScholes.K self)
              (BlackScholes.T self) (BlackScholes.r self)
              (BlackScholes.sigma self),
        bs_d2 (BlackScholes.S self) (BlackScholes.K self)
              (BlackScholes.T self) (BlackScholes.r self)
              (BlackScholes.sigma self)).
Proof.
  intros self HK. unfold BlackScholes._calculate_d1_d2.
  rewrite truediv_nonzero by exact HK. reflexivity.
Qed.

(** C10.  For every engine whose option kind is a string other than 'call',
    unknown kinds such as 'straddle' included, and whose strike is not zero:
    delta, theta and rho return the put formulas, gamma and vega their
    kind-independent value, the full Greeks computation succeeds with these
    five values, and the price operation raises ValueError when the kind is
    not 'put' either. *)
Theorem greeks_accept_unknown_kind :
  forall self : BlackScholes.BlackScholesModel,
  BlackScholes.option_type self <> "call"%string ->
  val (BlackScholes.K self) <> 0 ->
  let S := val (BlackScholes.S self) in
  let K := val (BlackScholes.K self) in
  let T := val (BlackScholes.T self) in
  let r := val (BlackScholes.r self) in
  let sigma := val (BlackScholes.sigma self) in
  let d1 := bs_d1 S K T r sigma in
  let d2 := bs_d2 S K T r sigma in
  let put_delta := Np.norm_cdf d1 - 1 in
  let put_theta :=
    (- S * Np.norm_pdf d1 * sigma / (2 * sqrt T)
     + r * K * exp (- r * T) * Np.norm_cdf (- d2)) / 365 in
  let put_rho := - K * T * exp (- r * T) * Np.norm_cdf (- d2) / 100 in
  let any_gamma := Np.norm_pdf d1 / (S * sigma * sqrt T) in
  let any_vega := S * Np.norm_pdf d1 * sqrt T / 100 in
  BlackScholes.delta self = Ok put_delta /\
  BlackScholes.theta self = Ok put_theta /\
  BlackScholes.rho self = Ok put_rho /\
  BlackScholes.gamma self = Ok any_gamma /\
  BlackScholes.greeks self
  = Ok {| BlackScholes.g_delta := put_delta;
          BlackScholes.g_gamma := any_gamma;
          BlackScholes.g_vega := any_vega;
          BlackScholes.g_theta := put_theta;
          BlackScholes.g_rho := put_rho |} /\
  (BlackScholes.option_type self <> "put"%string ->
   BlackScholes.price self = Raise kind_error).
Proof.
  intros self Hc HK S K T r sigma d1 d2.
  assert (Hd : BlackScholes._calculate_d1_d2 self = Ok (d1, d2))
    by (apply calculate_d1_d2_ok; exact HK).
  assert (Hk : (BlackScholes.option_type self =? "call")%string = false)
    by (apply String.eqb_neq; exact Hc).
  assert (Dl : BlackScholes.delta self = Ok (Np.norm_cdf d1 - 1)).
  { unfold BlackScholes.delta. rewrite Hd. cbn [Py.bind]. rewrite Hk.
    reflexivity. }
  assert (Gm : BlackScholes.gamma self
               = Ok (Np.norm_pdf d1 / (S * sigma * sqrt T))).
  { unfold BlackScholes.gamma. rewrite Hd. reflexivity. }
  assert (Vg : BlackScholes.vega self
               = Ok (S * Np.norm_pdf d1 * sqrt T / 100)).
  { unfold BlackScholes.vega. rewrite Hd. reflexivity. }
  assert (Th : BlackScholes.theta self
               = Ok ((- S * Np.norm_pdf d1 * sigma / (2 * sqrt T)
                      + r * K * exp (- r * T) * Np.norm_cdf (- d2)) / 365)).
  { unfold BlackScholes.theta. rewrite Hd. cbn [Py.bind]. rewrite Hk.
    reflexivity. }
  assert (Rh : BlackScholes.rho self
               = Ok (- K * T * exp (- r * T) * Np.norm_cdf (- d2) / 100)).
  { unfold BlackScholes.rho. rewrite Hd. cbn [Py.bind]. rewrite Hk.
    reflexivity. }
  repeat split; try assumption.
  - unfold BlackScholes.greeks. rewrite Dl, Gm, Vg, Th, Rh. reflexivity.
  - intro Hp. unfold BlackScholes.price. rewrite Hd. cbn [Py.bind].
    apply String.eqb_neq in Hp. rewrite Hk, Hp. reflexivity.
Qed.

Lemma greeks_accept_unknown_kind_witness :
  exists g : BlackScholes.Greeks,
    BlackScholes.greeks
      (BlackScholes.__init__ (float 100) (float 100) (float 1) (float 0.05)
                             (float 0.2) "straddle") = Ok g /\
    BlackScholes.price
      (BlackScholes.__init__ (float 100) (float 100) (float 1) (float 0.05)
                             (float 0.2) "straddle") = Raise kind_error.
Proof.
  pose (self := BlackScholes.__init__ (float 100) (float 100) (float 1)
                                      (float 0.05) (float 0.2) "straddle").
  assert (Hc : BlackScholes.option_type self <> "call"%string)
    by (simpl; discriminate).
  assert (Hp : BlackScholes.option_type self <> "put"%string)
    by (simpl; discriminate).
  assert (HK : val (BlackScholes.K self) <> 0) by (simpl; lra).
  destruct (greeks_accept_unknown_kind self Hc HK)
    as (_ & _ & _ & _ & Hg & Hprice).
  eexists. split; [exact Hg | exact (Hprice Hp)].
Defined.

(** ** Strings *)

Example lower_mixed_case : lower "StrAddle" = "straddle"%string.
Proof. reflexivity. Qed.

Example lower_keeps_other_characters :
  lower "Put-2 [x]" = "put-2 [x]"%string.
Proof. reflexivity. Qed.

(** ** Payoff diagrams *)

Lemma payoff_diagram_long : forall S_range K premium option_type,
  let call := (option_type =? "call")%string in
  OptionsAnalyzer.payoff_diagram S_range K premium option_type "long"
  = {| OptionsAnalyzer.spot_prices := S_range;
       OptionsAnalyzer.payoff := map (intrinsic_value call K) S_range;
       OptionsAnalyzer.profit_loss :=
         map (fun s => intrinsic_value call K s - premium) S_range |}.
Proof.
  intros S_range K premium option_type call.
  unfold OptionsAnalyzer.payoff_diagram. fold call. simpl.
  destruct call; simpl; rewrite map_map; reflexivity.
Qed.

Lemma payoff_diagram_short : forall S_range K premium option_type,
  let call := (option_type =? "call")%string in
  OptionsAnalyzer.payoff_diagram S_range K premium option_type "short"
  = {| OptionsAnalyzer.spot_prices := S_range;
       OptionsAnalyzer.payoff :=
         map (fun s => - intrinsic_value call K s) S_range;
       OptionsAnalyzer.profit_loss :=
         map (fun s => intrinsic_value call K s + premium) S_range |}.
Proof.
  intros S_range K premium option_type call.
  unfold OptionsAnalyzer.payoff_diagram. fold call. simpl.
  destruct call; simpl; rewrite !map_map;
    unfold intrinsic_value, Np.maximum; f_equal;
    apply map_ext; intro s; ring.
Qed.

(** The long call of the specification: strike 100, premium 5. *)
Example payoff_long_call_100_5 :
  OptionsAnalyzer.payoff_diagram [120; 80] 100 5 "call" "long"
  = {| OptionsAnalyzer.spot_prices := [120; 80];
       OptionsAnalyzer.payoff := [20; 0];
       OptionsAnalyzer.profit_loss := [15; -5] |}.
Proof.
  rewrite payoff_diagram_long. simpl. unfold intrinsic_value.
  rewrite (Rmax_left (120 - 100) 0) by lra.
  rewrite (Rmax_right (80 - 100) 0) by lra.
  f_equal; repeat (f_equal; try lra).
Qed.

(** C1.  The short call with strike 100 and premium 5 at spot 120: the
    reported payoff is the sign-inverted intrinsic value, -20, and the
    reported profit/loss is 25, the premium plus the intrinsic value; the
    premium minus the intrinsic value would be -15. *)
Theorem payoff_short_call_at_120 :
  OptionsAnalyzer.payoff_diagram [120] 100 5 "call" "short"
  = {| OptionsAnalyzer.spot_prices := [120];
       OptionsAnalyzer.payoff := [-20];
       OptionsAnalyzer.profit_loss := [25] |}
  /\ 25 <> 5 - Rmax (120 - 100) 0.
Proof.
  split.
  - rewrite payoff_diagram_short. simpl. unfold intrinsic_value.
    rewrite (Rmax_left (120 - 100) 0) by lra.
    f_equal; f_equal; lra.
  - rewrite (Rmax_left (120 - 100) 0) by lra. lra.
Qed.

(** ** Sensitivity analysis *)

Lemma linspace_length : forall a b n, List.length (Np.linspace a b n) = n.
Proof.
  intros. unfold Np.linspace. rewrite length_map, length_seq. reflexivity.
Qed.

Lemma linspace_50_nth : forall a b k, (k < 50)%nat ->
  nth k (Np.linspace a b 50) 0 = a + INR k * ((b - a) / 49).
Proof.
  intros a b k Hk. unfold Np.linspace.
  set (f := fun k => if (k =? 50 - 1)%nat then b
                     else a + INR k * ((b - a) / INR (50 - 1))).
  rewrite (nth_indep _ 0 (f 0%nat))
    by (rewrite length_map, length_seq; exact Hk).
  rewrite (map_nth f), seq_nth by exact Hk. unfold f.
  change (50 - 1)%nat with 49%nat. rewrite Nat.add_0_l.
  replace (INR 49) with 49 by (simpl; lra).
  destruct (Nat.eqb_spec k 49) as [-> | _]; [|reflexivity].
  replace (INR 49) with 49 by (simpl; lra). field.
Qed.

Lemma sweep_prices : forall (mk : R -> BlackScholes.BlackScholesModel)
                            (g : R -> R) (values acc : list R),
  (forall v, BlackScholes.price (mk v) = Ok (g v)) ->
  for_each values
    (fun prices value => pr <- BlackScholes.price (mk value) ;;
                         Ok (prices ++ [pr])) acc
  = Ok (acc ++ map g values).
Proof.
  intros mk g values. induction values as [|v vs IH]; intros acc H; simpl.
  - rewrite app_nil_r. reflexivity.
  - rewrite H. simpl. rewrite IH by exact H. rewrite <- app_assoc. reflexivity.
Qed.

Lemma bs_price_valid : forall (S K T r sigma : scalar) kind,
  val K <> 0 -> lower kind = "call"%string \/ lower kind = "put"%string ->
  BlackScholes.price (BlackScholes.__init__ S K T r sigma kind)
  = Ok (bs_value (lower kind) S K T r sigma).
Proof.
  intros S K T r sigma kind HK [Hk | Hk].
  - rewrite bs_price_call by assumption. unfold bs_value. rewrite Hk.
    reflexivity.
  - rewrite bs_price_put by assumption. unfold bs_value. rewrite Hk.
    reflexivity.
Qed.

Lemma contract_at_price : forall t (v : R) (S K T r sigma : scalar) kind,
  val K <> 0 -> lower kind = "call"%string \/ lower kind = "put"%string ->
  BlackScholes.price (contract_at t (float64 v) S K T r sigma kind)
  = Ok (contract_value t v S K T r sigma kind).
Proof.
  intros t v S K T r sigma kind HK Hk.
  destruct t; simpl; apply bs_price_valid; assumption.
Qed.

(** The loop of [sensitivity_analysis] with the dictionary look-ups done. *)
Lemma sensitivity_analysis_unfold :
  forall t (S K T r sigma : scalar) kind (range : R),
  OptionsAnalyzer.sensitivity_analysis S K T r sigma kind (target_name t) range
  = (let base := target_base t S T r sigma in
     let values :=
       Np.linspace (sweep_start t base range) (base * (1 + range)) 50 in
     prices <-
       for_each values
         (fun prices value =>
            pr <- BlackScholes.price
                    (contract_at t (float64 value) S K T r sigma kind) ;;
            Ok (prices ++ [pr])) [] ;;
     Ok {| OptionsAnalyzer.s_parameter := target_name t;
           OptionsAnalyzer.s_values := values;
           OptionsAnalyzer.s_prices := prices |}).
Proof. intros t S K T r sigma kind range. destruct t; reflexivity. Qed.

Lemma param_map_unrecognized : forall parameter,
  (forall t, parameter <> target_name t) ->
  OptionsAnalyzer.param_map parameter = None.
Proof.
  intros parameter H. unfold OptionsAnalyzer.param_map.
  destruct (String.eqb_spec parameter "spot") as [E|_];
    [exact (False_ind _ (H Spot E))|].
  destruct (String.eqb_spec parameter "volatility") as [E|_];
    [exact (False_ind _ (H Volatility E))|].
  destruct (String.eqb_spec parameter "time") as [E|_];
    [exact (False_ind _ (H TimeToMaturity E))|].
  destruct (String.eqb_spec parameter "rate") as [E|_];
    [exact (False_ind _ (H Rate E))|].
  reflexivity.
Qed.

(** What the analysis returns for a recognised target on a contract whose
    strike is not zero and whose kind is a call or a put. *)
Lemma sensitivity_analysis_result :
  forall t (S K T r sigma : scalar) (kind : string) (range : R),
  val K <> 0 -> lower kind = "call"%string \/ lower kind = "put"%string ->
  let base := target_base t S T r sigma in
  let values :=
    Np.linspace (sweep_start t base range) (base * (1 + range)) 50 in
  OptionsAnalyzer.sensitivity_analysis S K T r sigma kind (target_name t) range
  = Ok {| OptionsAnalyzer.s_parameter := target_name t;
          OptionsAnalyzer.s_values := values;
          OptionsAnalyzer.s_prices :=
            map (fun v => contract_value t v S K T r sigma kind) values |}.
Proof.
  intros t S K T r sigma kind range HK Hkind base values.
  rewrite sensitivity_analysis_unfold. cbv zeta. fold base. fold values.
  rewrite (sweep_prices
             (fun v => contract_at t (float64 v) S K T r sigma kind)
             (fun v => contract_value t v S K T r sigma kind)).
  - reflexivity.
  - intro v. apply contract_at_price; assumption.
Qed.

(** Evenly spaced values stay on the side of a bound both ends are on. *)
Lemma evenly_spaced_above : forall (start stop bound : R) (k : nat),
  (k < 50)%nat -> bound <= start -> bound <= stop ->
  bound <= start + INR k * ((stop - start) / 49).
Proof.
  intros start stop bound k Hk Hstart Hstop.
  assert (H0 : 0 <= INR k) by apply pos_INR.
  assert (H49 : INR k <= 49).
  { replace 49 with (INR 49) by (simpl; lra). apply le_INR. lia. }
  assert (P1 : 0 <= INR k * (stop - bound)) by (apply Rmult_le_pos; lra).
  assert (P2 : 0 <= (49 - INR k) * (start - bound))
    by (apply Rmult_le_pos; lra).
  lra.
Qed.

(** C9, amended.  For every valid contract and every target among spot,
    volatility, time and rate, the sensitivity analysis returns 50 parameter
    values and 50 prices: value k is start + k * (stop - start) / 49 with
    stop = base * (1 + range) and start = base * (1 - range), the start being
    raised to 0.01 when the target is time, and price k is the Black-Scholes
    price of the contract with the target set to value k.  For the time
    target every value is at least 0.01 as soon as base * (1 + range) is.
    For every other target name the analysis raises ValueError. *)
Theorem sensitivity_analysis_sweep :
  forall (S K T r sigma : scalar) (kind : string) (range : R),
  0 < S -> 0 < K -> 0 < T -> 0 < sigma ->
  lower kind = "call"%string \/ lower kind = "put"%string ->
  (forall t : target,
     let base := target_base t S T r sigma in
     let start := sweep_start t base range in
     let stop := base * (1 + range) in
     exists values prices : list R,
       OptionsAnalyzer.sensitivity_analysis S K T r sigma kind
                                            (target_name t) range
       = Ok {| OptionsAnalyzer.s_parameter := target_name t;
               OptionsAnalyzer.s_values := values;
               OptionsAnalyzer.s_prices := prices |} /\
       List.length values = 50%nat /\
       List.length prices = 50%nat /\
       (forall k, (k < 50)%nat ->
          nth k values 0 = start + INR k * ((stop - start) / 49)) /\
       (forall k, (k < 50)%nat ->
          BlackScholes.price
            (contract_at t (float64 (nth k values 0)) S K T r sigma kind)
          = Ok (nth k prices 0)) /\
       (t = TimeToMaturity -> 0.01 <= stop ->
        forall k, (k < 50)%nat -> 0.01 <= nth k values 0)) /\
  (forall parameter : string,
     (forall t, parameter <> target_name t) ->
     OptionsAnalyzer.sensitivity_analysis S K T r sigma kind parameter range
     = Raise (ValueError ("Invalid parameter: " ++ parameter))).
Proof.
  intros S K T r sigma kind range HS HK HT Hsig Hkind.
  assert (HK0 : val K <> 0) by lra.
  split.
  - intros t base start stop.
    set (values := Np.linspace start stop 50).
    set (g := fun v => contract_value t v S K T r sigma kind).
    exists values, (map g values).
    split; [|split; [|split; [|split; [|split]]]].
    + apply sensitivity_analysis_result; assumption.
    + apply linspace_length.
    + rewrite length_map. apply linspace_length.
    + intros k Hk. apply linspace_50_nth; exact Hk.
    + intros k Hk. rewrite contract_at_price by assumption.
      f_equal. fold (g (nth k values 0)).
      rewrite (nth_indep (map g values) 0 (g 0))
        by (rewrite length_map; unfold values; rewrite linspace_length;
            exact Hk).
      rewrite map_nth. reflexivity.
    + intros Ht Hstop k Hk. unfold values.
      rewrite linspace_50_nth by exact Hk.
      apply evenly_spaced_above; [exact Hk | | exact Hstop].
      unfold start. rewrite Ht. simpl. apply Rmax_l.
  - intros parameter Hp. unfold OptionsAnalyzer.sensitivity_analysis.
    rewrite (param_map_unrecognized parameter Hp). reflexivity.
Qed.

Lemma sensitivity_analysis_sweep_witness :
  (exists values prices : list R,
     OptionsAnalyzer.sensitivity_analysis
       (float 100) (float 100) (float 1) (float 0.05) (float 0.2)
       "call" "time" 0.2
     = Ok {| OptionsAnalyzer.s_parameter := "time";
             OptionsAnalyzer.s_values := values;
             OptionsAnalyzer.s_prices := prices |} /\
     List.length values = 50%nat /\ List.length prices = 50%nat) /\
  OptionsAnalyzer.sensitivity_analysis
    (float 100) (float 100) (float 1) (float 0.05) (float 0.2)
    "call" "strike" 0.2
  = Raise (ValueError "Invalid parameter: strike").
Proof.
  destruct (sensitivity_analysis_sweep
              (float 100) (float 100) (float 1) (float 0.05) (float 0.2)
              "call" 0.2) as [Hsweep Hbad];
    [simpl; lra | simpl; lra | simpl; lra | simpl; lra
     | left; reflexivity |].
  split.
  - destruct (Hsweep TimeToMaturity) as (values & prices & H1 & H2 & H3 & _).
    exists values, prices. split; [exact H1 | split; [exact H2 | exact H3]].
  - apply (Hbad "strike"%string). intro t; destruct t; discriminate.
Defined.

(** C9, as stated, fails.  A call with two days to maturity, T = 0.005, and
    the default range 0.2: the sweep of the time target runs from 0.01 down
    to 0.006, outside [0.004, 0.006] at its start and below 0.01 at its
    end. *)
Lemma short_dated_time_sweep :
  exists values prices : list R,
    OptionsAnalyzer.sensitivity_analysis
      (float 100) (float 100) (float 0.005) (float 0.05) (float 0.2)
      "call" "time" OptionsAnalyzer.default_variation_range
    = Ok {| OptionsAnalyzer.s_parameter := "time";
            OptionsAnalyzer.s_values := values;
            OptionsAnalyzer.s_prices := prices |} /\
    nth 0 values 0 = 0.01 /\
    nth 49 values 0 = 0.006 /\
    0.005 * (1 + 0.2) < nth 0 values 0 /\
    nth 49 values 0 < 0.01.
Proof.
  eexists; eexists. split.
  - apply (sensitivity_analysis_result TimeToMaturity);
      [simpl; lra | left; reflexivity].
  - cbv zeta. rewrite !linspace_50_nth by lia.
    unfold sweep_start, target_base, OptionsAnalyzer.default_variation_range.
    cbn [val float].
    rewrite (Rmax_left 0.01 (0.005 * (1 - 0.2))) by lra.
    replace (INR 0) with 0 by reflexivity.
    replace (INR 49) with 49 by (simpl; lra).
    repeat split; lra.
Qed.

(** ** The implied-volatility solver *)

Lemma newton_loop_refines :
  forall (market_price : R) (S K T r : scalar) (kind : string) (tolerance : R),
  val K <> 0 -> lower kind = "call"%string \/ lower kind = "put"%string ->
  forall (budget start : nat) (sigma : scalar),
  OptionsAnalyzer.newton_loop market_price S K T r kind tolerance
                              (seq start budget) sigma
  = Ok (report (solver_spec market_price S K T r (lower kind) tolerance
                            budget sigma)).
Proof.
  intros market_price S K T r kind tolerance HK Hkind budget.
  induction budget as [|n IH]; intros start sigma; [reflexivity|].
  cbn [seq OptionsAnalyzer.newton_loop solver_spec].
  rewrite bs_price_valid, bs_vega_ok by assumption.
  cbn [Py.bind].
  destruct (Rlt_dec _ tolerance) as [_ | _]; [reflexivity|].
  unfold full_vega.
  destruct (Req_dec_T (S * Np.norm_pdf (bs_d1 S K T r sigma) * sqrt T
                       / 100 * 100) 0) as [E1 | N1];
    destruct (Req_dec_T (S * Np.norm_pdf (bs_d1 S K T r sigma) * sqrt T) 0)
      as [E2 | N2]; try reflexivity; try (exfalso; lra).
  replace (S * Np.norm_pdf (bs_d1 S K T r sigma) * sqrt T / 100 * 100)
    with (S * Np.norm_pdf (bs_d1 S K T r sigma) * sqrt T) by field.
  unfold clamp_sigma. cbn [val float64].
  destruct (Rle_dec _ 0) as [_ | _]; rewrite IH; reflexivity.
Qed.

Lemma norm_pdf_le_1 : forall x, Np.norm_pdf x <= 1.
Proof.
  intro x. unfold Np.norm_pdf.
  assert (Hs : 1 <= sqrt (2 * PI)).
  { rewrite <- sqrt_1 at 1. apply sqrt_le_1_alt. pose proof PI2_1. lra. }
  assert (He : exp (- (x * x) / 2) <= 1).
  { rewrite <- exp_0. destruct (Req_dec (x * x) 0) as [E | N].
    - rewrite E. replace (- 0 / 2) with 0 by field. lra.
    - left. apply exp_increasing. pose proof (Rle_0_sqr x) as Q.
      unfold Rsqr in Q. lra. }
  apply Rle_trans with (1 / sqrt (2 * PI)).
  - unfold Rdiv. apply Rmult_le_compat_r; [|exact He].
    left. apply Rinv_0_lt_compat. lra.
  - unfold Rdiv. rewrite Rmult_1_l. apply Rle_trans with (/ 1).
    + apply Rinv_le_contravar; lra.
    + rewrite Rinv_1. lra.
Qed.

(** A crude enclosure of [norm.cdf] right of the origin. *)
Lemma norm_cdf_bounds : forall x, 0 <= x ->
  1 / 2 <= Np.norm_cdf x <= 1 / 2 + x.
Proof.
  intros x Hx. unfold Np.norm_cdf.
  pose proof (@RiemannInt_const_bound Np.norm_pdf 0 x 0 1
                (Np.norm_pdf_integrable 0 x) Hx) as B.
  assert (Hb : forall y, 0 < y < x -> 0 <= Np.norm_pdf y <= 1).
  { intros y _. split; [left; apply norm_pdf_pos | apply norm_pdf_le_1]. }
  specialize (B Hb). lra.
Qed.

Lemma ln_0 : ln 0 = 0.
Proof.
  unfold ln. destruct (Rlt_dec 0 0) as [H | _]; [|reflexivity].
  exfalso. exact (Rlt_irrefl 0 H).
Qed.

(** C5, as the code has it.  With a strike that is not zero and a call or
    put, the solver starts from sigma = 0.3 and runs at most [budget]
    iterations (100 by default): an iteration returns the current sigma
    when |market_price - price| < tolerance, returns None when the un-scaled
    vega is exactly zero, and otherwise continues from
    sigma + (market_price - price) / vega, replaced by 0.01 when that is
    <= 0; after the last iteration it returns None.  The zero-vega failure
    and non-convergence are the same None, no exception is raised, and a
    returned sigma prices within the tolerance of the market price. *)
Theorem implied_volatility_solver :
  forall (market_price : R) (S K T r : scalar) (kind : string)
         (tolerance : R) (max_iterations : nat),
  val K <> 0 -> lower kind = "call"%string \/ lower kind = "put"%string ->
  OptionsAnalyzer.calculate_implied_volatility
    market_price S K T r kind tolerance max_iterations
  = Ok (report (solver_spec market_price S K T r (lower kind) tolerance
                            max_iterations 0.3)) /\
  (forall sigma : R,
     OptionsAnalyzer.calculate_implied_volatility
       market_price S K T r kind tolerance max_iterations = Ok (Some sigma) ->
     Rabs (market_price - bs_value (lower kind) S K T r sigma) < tolerance).
Proof.
  intros market_price S K T r kind tolerance n HK Hkind.
  assert (E : OptionsAnalyzer.calculate_implied_volatility
                market_price S K T r kind tolerance n
              = Ok (report (solver_spec market_price S K T r (lower kind)
                                        tolerance n 0.3))).
  { unfold OptionsAnalyzer.calculate_implied_volatility.
    rewrite newton_loop_refines by assumption. reflexivity. }
  split; [exact E|].
  intros sigma Hs. rewrite E in Hs. clear E.
  generalize dependent 0.3. induction n as [|n IH]; intros s0 Hs.
  - discriminate.
  - cbn [solver_spec] in Hs.
    destruct (Rlt_dec _ tolerance) as [Hlt | _].
    + simpl in Hs. injection Hs as <-. exact Hlt.
    + destruct (Req_dec_T _ 0) as [_ | _]; [discriminate|].
      apply (IH _ Hs).
Qed.

Lemma implied_volatility_solver_witness :
  OptionsAnalyzer.calculate_implied_volatility
    10 (float 100) (float 100) (float 1) (float 0.05) "call"
    OptionsAnalyzer.default_tolerance OptionsAnalyzer.default_max_iterations
  = Ok (report (solver_spec 10 100 100 1 0.05 "call"
                            OptionsAnalyzer.default_tolerance
                            OptionsAnalyzer.default_max_iterations 0.3)).
Proof.
  apply (implied_volatility_solver 10 (float 100) (float 100) (float 1)
           (float 0.05) "call").
  - simpl; lra.
  - left; reflexivity.
Defined.

Lemma solver_spec_zero_vega :
  forall market_price S K T r kind tolerance budget sigma,
  ~ Rabs (market_price - bs_value kind S K T r sigma) < tolerance ->
  full_vega S K T r sigma = 0 ->
  solver_spec market_price S K T r kind tolerance (Datatypes.S budget) sigma
  = ZeroVega.
Proof.
  intros market_price S K T r kind tolerance budget sigma Hc Hv.
  cbn [solver_spec].
  destruct (Rlt_dec _ tolerance) as [C | _]; [contradiction|].
  destruct (Req_dec_T _ 0) as [_ | N]; [reflexivity | contradiction].
Qed.

Lemma solver_spec_last_iteration :
  forall market_price S K T r kind tolerance sigma,
  ~ Rabs (market_price - bs_value kind S K T r sigma) < tolerance ->
  full_vega S K T r sigma <> 0 ->
  solver_spec market_price S K T r kind tolerance 1 sigma = BudgetExhausted.
Proof.
  intros market_price S K T r kind tolerance sigma Hc Hv.
  cbn [solver_spec].
  destruct (Rlt_dec _ tolerance) as [C | _]; [contradiction|].
  destruct (Req_dec_T _ 0) as [Z | _]; [contradiction | reflexivity].
Qed.

(** The two runs compared below.  The first has spot 0, so the vega of its
    first iteration is exactly zero; the second asks 200 for a call on a
    stock worth 100 and has one iteration to find a volatility. *)
Lemma zero_vega_run_spec :
  solver_spec 10 0 100 1 0.05 "call" OptionsAnalyzer.default_tolerance
              OptionsAnalyzer.default_max_iterations 0.3 = ZeroVega.
Proof.
  change OptionsAnalyzer.default_max_iterations with (Datatypes.S 99).
  apply solver_spec_zero_vega.
  - assert (D2 : 0 <= bs_d2 0 100 1 0.05 0.3).
    { unfold bs_d2, bs_d1. replace (0 / 100) with 0 by field.
      rewrite ln_0, sqrt_1. lra. }
    assert (P : bs_value "call" 0 100 1 0.05 0.3 <= 0).
    { unfold bs_value. simpl String.eqb. cbv iota.
      pose proof (norm_cdf_bounds _ D2) as [B _].
      pose proof (exp_pos (- (0.05) * 1)) as E.
      assert (0 <= 100 * exp (- (0.05) * 1)
                   * Np.norm_cdf (bs_d2 0 100 1 0.05 0.3))
        by (apply Rmult_le_pos; lra).
      lra. }
    intro C. apply Rabs_def2 in C.
    unfold OptionsAnalyzer.default_tolerance in C. lra.
  - unfold full_vega. ring.
Qed.

Lemma exhausted_run_spec :
  solver_spec 200 100 100 1 0.05 "call" OptionsAnalyzer.default_tolerance
              1 0.3 = BudgetExhausted.
Proof.
  assert (D1 : bs_d1 100 100 1 0.05 0.3 = 0.095 / 0.3).
  { unfold bs_d1. replace (100 / 100) with 1 by field.
    rewrite ln_1, sqrt_1. lra. }
  assert (D2 : bs_d2 100 100 1 0.05 0.3 = 0.095 / 0.3 - 0.3).
  { unfold bs_d2. rewrite D1, sqrt_1. lra. }
  apply solver_spec_last_iteration.
  - assert (P : bs_value "call" 100 100 1 0.05 0.3 <= 100).
    { unfold bs_value. simpl String.eqb. cbv iota. rewrite D1, D2.
      pose proof (norm_cdf_bounds (0.095 / 0.3) ltac:(lra)) as [_ B1].
      pose proof (norm_cdf_bounds (0.095 / 0.3 - 0.3) ltac:(lra)) as [B2 _].
      pose proof (exp_pos (- (0.05) * 1)) as E.
      assert (0 <= 100 * exp (- (0.05) * 1) * Np.norm_cdf (0.095 / 0.3 - 0.3))
        by (apply Rmult_le_pos; lra).
      lra. }
    intro C. apply Rabs_def2 in C.
    unfold OptionsAnalyzer.default_tolerance in C. lra.
  - unfold full_vega. rewrite sqrt_1.
    pose proof (norm_pdf_pos (bs_d1 100 100 1 0.05 0.3)). lra.
Qed.

(** C5, as stated, fails.  A run stopped by a zero vega and a run that
    exhausts its budget hand the caller the same value, [None]: the
    zero-vega failure is not a distinct one. *)
Lemma implied_volatility_failures_coincide :
  solver_spec 10 0 100 1 0.05 "call" OptionsAnalyzer.default_tolerance
              OptionsAnalyzer.default_max_iterations 0.3 = ZeroVega /\
  solver_spec 200 100 100 1 0.05 "call" OptionsAnalyzer.default_tolerance
              1 0.3 = BudgetExhausted /\
  OptionsAnalyzer.calculate_implied_volatility
    10 (float 0) (float 100) (float 1) (float 0.05) "call"
    OptionsAnalyzer.default_tolerance OptionsAnalyzer.default_max_iterations
  = Ok None /\
  OptionsAnalyzer.calculate_implied_volatility
    200 (float 100) (float 100) (float 1) (float 0.05) "call"
    OptionsAnalyzer.default_tolerance 1
  = Ok None.
Proof.
  split; [exact zero_vega_run_spec | split; [exact exhausted_run_spec|]].
  assert (HK : val (float 100) <> 0) by (simpl; lra).
  assert (Hk : lower "call" = "call"%string \/ lower "call" = "put"%string)
    by (left; reflexivity).
  unfold OptionsAnalyzer.calculate_implied_volatility.
  rewrite !newton_loop_refines by assumption.
  change (lower "call") with "call"%string.
  cbn [val float].
  rewrite zero_vega_run_spec, exhausted_run_spec. split; reflexivity.
Qed.

(** ** The binomial lattice *)

Lemma setitem_same : forall a j i v, Np.setitem a j i v j i = v.
Proof. intros. unfold Np.setitem. rewrite !Nat.eqb_refl. reflexivity. Qed.

Lemma setitem_other : forall a j i v j' i',
  j' <> j \/ i' <> i -> Np.setitem a j i v j' i' = a j' i'.
Proof.
  intros a j i v j' i' H. unfold Np.setitem.
  destruct (Nat.eqb_spec j' j) as [->|_]; [|reflexivity].
  destruct (Nat.eqb_spec i' i) as [->|_]; [|reflexivity].
  exfalso. destruct H as [H | H]; apply H; reflexivity.
Qed.

Section StockTree.

Variable self : BinomialTree.BinomialTreeModel.

(** Filling one column of the stock tree. *)
Lemma stock_column : forall i n tree,
  let tree' :=
    fold_left (fun stock_tree j =>
                 Np.setitem stock_tree j i
                   (BinomialTree.S self * BinomialTree.u self ^ (i - j)
                    * BinomialTree.d self ^ j))
              (seq 0 n) tree in
  (forall j, (j < n)%nat -> tree' j i = node_price self j i) /\
  (forall j i', (n <= j)%nat \/ i' <> i -> tree' j i' = tree j i').
Proof.
  intros i n. induction n as [|n IH]; intro tree.
  - simpl. split; [intros j Hj; lia | reflexivity].
  - cbv zeta. rewrite seq_S, fold_left_app. simpl.
    destruct (IH tree) as [IH1 IH2]. split.
    + intros j Hj. destruct (Nat.eq_dec j n) as [-> | Hn].
      * rewrite setitem_same. reflexivity.
      * rewrite setitem_other by (left; exact Hn). apply IH1. lia.
    + intros j i' H. rewrite setitem_other by lia. apply IH2. lia.
Qed.

Lemma stock_columns : forall n,
  let tree :=
    fold_left
      (fun stock_tree i =>
         fold_left (fun stock_tree j =>
                      Np.setitem stock_tree j i
                        (BinomialTree.S self * BinomialTree.u self ^ (i - j)
                         * BinomialTree.d self ^ j))
                   (seq 0 (i + 1)) stock_tree)
      (seq 0 n) Np.zeros in
  forall j i, (i < n)%nat -> (j <= i)%nat -> tree j i = node_price self j i.
Proof.
  induction n as [|n IH]; cbv zeta; intros j i Hi Hj; [lia|].
  rewrite seq_S, fold_left_app. simpl.
  match goal with
  | |- fold_left _ _ ?t j i = _ =>
      destruct (stock_column n (n + 1) t) as [C1 C2]
  end.
  destruct (Nat.eq_dec i n) as [-> | Hn].
  - apply C1. lia.
  - rewrite C2 by (right; exact Hn). apply IH; lia.
Qed.

Lemma build_stock_tree_node : forall j i,
  (j <= i <= BinomialTree.steps self)%nat ->
  BinomialTree._build_stock_tree self j i = node_price self j i.
Proof.
  intros j i [Hj Hi]. unfold BinomialTree._build_stock_tree.
  apply stock_columns; lia.
Qed.

End StockTree.

Lemma for_each_pure : forall (A X : Type) (body : A -> X -> result A)
                             (f : A -> X -> A) (xs : list X) (acc : A),
  (forall a x, body a x = Ok (f a x)) ->
  for_each xs body acc = Ok (fold_left f xs acc).
Proof.
  intros A X body f xs. induction xs as [|x xs IH]; intros acc H; simpl.
  - reflexivity.
  - rewrite H. simpl. apply IH. exact H.
Qed.

Section Induction.

Variable self : BinomialTree.BinomialTreeModel.

Hypothesis kind_valid :
  BinomialTree.option_type self = "call"%string
  \/ BinomialTree.option_type self = "put"%string.

Lemma calculate_option_value_valid : forall s,
  BinomialTree._calculate_option_value self s = Ok (exercise_payoff self s).
Proof.
  intro s. unfold BinomialTree._calculate_option_value, exercise_payoff.
  destruct kind_valid as [E | E]; rewrite E; reflexivity.
Qed.

Lemma induction_node_pure : forall i option_tree j,
  BinomialTree.induction_node self (BinomialTree._build_stock_tree self)
                              i option_tree j
  = Ok (backward_node self i option_tree j).
Proof.
  intros i option_tree j.
  unfold BinomialTree.induction_node, backward_node, continuation.
  destruct (BinomialTree.exercise self =? "american")%string; [|reflexivity].
  rewrite calculate_option_value_valid. reflexivity.
Qed.

Lemma price_as_folds :
  BinomialTree.price self
  = Ok (fold_left (backward_column self)
                  (rev (seq 0 (BinomialTree.steps self)))
                  (fold_left (terminal_node self)
                             (seq 0 (BinomialTree.steps self + 1)) Np.zeros)
                  0%nat 0%nat).
Proof.
  unfold BinomialTree.price. cbv zeta.
  rewrite (for_each_pure _ _ _ (terminal_node self)).
  2:{ intros a x. rewrite calculate_option_value_valid. reflexivity. }
  cbn [Py.bind].
  rewrite (for_each_pure _ _ _ (backward_column self)).
  2:{ intros a i. unfold backward_column.
      apply for_each_pure. intros a' j. apply induction_node_pure. }
  reflexivity.
Qed.

Lemma backward_node_spec : forall i option_tree j,
  backward_node self i option_tree j j i = node_value self option_tree j i /\
  (forall j' i', j' <> j \/ i' <> i ->
     backward_node self i option_tree j j' i' = option_tree j' i').
Proof.
  intros i option_tree j. unfold backward_node, node_value.
  destruct (BinomialTree.exercise self =? "american")%string; split.
  - rewrite !setitem_same. reflexivity.
  - intros j' i' H. rewrite !setitem_other by exact H. reflexivity.
  - rewrite setitem_same. reflexivity.
  - intros j' i' H. rewrite setitem_other by exact H. reflexivity.
Qed.

Lemma backward_nodes_spec : forall i n option_tree,
  let option_tree' :=
    fold_left (backward_node self i) (seq 0 n) option_tree in
  (forall j, (j < n)%nat ->
     option_tree' j i = node_value self option_tree j i) /\
  (forall j i', (n <= j)%nat \/ i' <> i ->
     option_tree' j i' = option_tree j i').
Proof.
  intros i n. induction n as [|n IH]; intro option_tree.
  - simpl. split; [intros j Hj; lia | reflexivity].
  - cbv zeta. rewrite seq_S, fold_left_app. simpl.
    destruct (IH option_tree) as [IH1 IH2].
    match goal with
    | |- context [backward_node self i ?t n] =>
        destruct (backward_node_spec i t n) as [B1 B2]
    end.
    split.
    + intros j Hj. destruct (Nat.eq_dec j n) as [-> | Hn].
      * rewrite B1. unfold node_value.
        rewrite !IH2 by (right; lia). reflexivity.
      * rewrite B2 by (left; exact Hn). apply IH1. lia.
    + intros j i' H. rewrite B2 by lia. apply IH2. lia.
Qed.

Lemma terminal_nodes_spec : forall n,
  let option_tree := fold_left (terminal_node self) (seq 0 n) Np.zeros in
  forall j, (j < n)%nat ->
    option_tree j (BinomialTree.steps self)
    = exercise_payoff self
        (BinomialTree._build_stock_tree self j (BinomialTree.steps self)).
Proof.
  induction n as [|n IH]; cbv zeta; intros j Hj; [lia|].
  rewrite seq_S, fold_left_app. simpl. unfold terminal_node at 1.
  destruct (Nat.eq_dec j n) as [-> | Hn].
  - rewrite setitem_same. reflexivity.
  - rewrite setitem_other by (left; exact Hn). apply IH. lia.
Qed.

Lemma backward_column_done : forall n option_tree,
  (n < BinomialTree.steps self)%nat ->
  columns_done self (n + 1) option_tree ->
  columns_done self n (backward_column self option_tree n).
Proof.
  intros n option_tree Hn Hdone i j Hi Hj. unfold backward_column.
  destruct (backward_nodes_spec n (n + 1) option_tree) as [B1 B2].
  destruct (Nat.eq_dec i n) as [-> | Hne].
  - rewrite B1 by lia. unfold node_value.
    rewrite !Hdone by lia.
    replace (BinomialTree.steps self - n)%nat
      with (S (BinomialTree.steps self - (n + 1))) by lia.
    cbn [lattice_value].
    rewrite build_stock_tree_node by lia. reflexivity.
  - rewrite B2 by (right; exact Hne). apply Hdone; lia.
Qed.

Lemma backward_columns_done : forall n option_tree,
  (n <= BinomialTree.steps self)%nat ->
  columns_done self n option_tree ->
  columns_done self 0
    (fold_left (backward_column self) (rev (seq 0 n)) option_tree).
Proof.
  induction n as [|n IH]; intros option_tree Hn Hdone.
  - exact Hdone.
  - rewrite seq_S, rev_app_distr. simpl.
    apply IH; [lia|]. apply backward_column_done; [lia|].
    replace (n + 1)%nat with (S n) by lia. exact Hdone.
Qed.

Lemma terminal_column_done :
  columns_done self (BinomialTree.steps self)
    (fold_left (terminal_node self)
               (seq 0 (BinomialTree.steps self + 1)) Np.zeros).
Proof.
  intros i j Hi Hj. assert (i = BinomialTree.steps self) as -> by lia.
  rewrite terminal_nodes_spec by lia.
  rewrite Nat.sub_diag. cbn [lattice_value].
  rewrite build_stock_tree_node by lia. reflexivity.
Qed.

(** On a call or a put, [price] returns the root of the lattice. *)
Lemma binomial_price_lattice :
  BinomialTree.price self
  = Ok (lattice_value self (BinomialTree.steps self) 0 0).
Proof.
  rewrite price_as_folds. f_equal.
  rewrite (backward_columns_done (BinomialTree.steps self) _ (le_n _)
             terminal_column_done 0%nat 0%nat) by lia.
  rewrite Nat.sub_0_r. reflexivity.
Qed.

End Induction.

Lemma lattice_value_american_ge :
  forall am eu : BinomialTree.BinomialTreeModel,
  same_lattice am eu ->
  BinomialTree.exercise am = "american"%string ->
  BinomialTree.exercise eu = "european"%string ->
  0 <= BinomialTree.p eu <= 1 ->
  0 <= BinomialTree.discount eu ->
  forall depth j i,
    lattice_value eu depth j i <= lattice_value am depth j i.
Proof.
  intros am eu (HS & HK & Hu & Hd & Hp & Hdisc & Hkind) Ham Heu Hprob Hdpos.
  assert (Hnode : forall j i, node_price am j i = node_price eu j i).
  { intros. unfold node_price. rewrite HS, Hu, Hd. reflexivity. }
  assert (Hpay : forall s, exercise_payoff am s = exercise_payoff eu s).
  { intros. unfold exercise_payoff. rewrite HK, Hkind. reflexivity. }
  induction depth as [|depth IH]; intros j i; cbn [lattice_value].
  - rewrite Hnode, Hpay. apply Rle_refl.
  - rewrite Ham, Heu. simpl String.eqb. cbv iota.
    eapply Rle_trans; [|apply Rmax_l].
    unfold continuation. rewrite Hp, Hdisc.
    apply Rmult_le_compat_l; [exact Hdpos|].
    pose proof (IH j (i + 1)%nat). pose proof (IH (j + 1)%nat (i + 1)%nat).
    apply Rplus_le_compat; apply Rmult_le_compat_l; lra.
Qed.

(** The risk-neutral probability lies in [0, 1] as soon as the drift of one
    step does not exceed its volatility. *)
Lemma risk_neutral_probability_range : forall a b : R,
  0 < a -> Rabs b <= a ->
  0 <= (exp b - 1 / exp a) / (exp a - 1 / exp a) <= 1.
Proof.
  intros a b Ha Hb.
  assert (Hd : 1 / exp a = exp (- a)) by (rewrite exp_Ropp; field;
                                          apply Rgt_not_eq, exp_pos).
  rewrite Hd.
  assert (Hb' : - a <= b <= a)
    by (unfold Rabs in Hb; destruct (Rcase_abs b); lra).
  assert (Hlt : exp (- a) < exp a) by (apply exp_increasing; lra).
  assert (H1 : exp (- a) <= exp b).
  { destruct Hb' as [[L | E] _]; [left; apply exp_increasing; exact L|].
    rewrite E. apply Rle_refl. }
  assert (H2 : exp b <= exp a).
  { destruct Hb' as [_ [L | E]]; [left; apply exp_increasing; exact L|].
    rewrite E. apply Rle_refl. }
  split.
  - apply Rmult_le_pos; [lra|]. left. apply Rinv_0_lt_compat. lra.
  - apply (Rmult_le_reg_r (exp a - exp (- a))); [lra|].
    unfold Rdiv. rewrite Rmult_assoc, Rinv_l by lra. lra.
Qed.

(** C6, amended.  For every valid put contract, every step count N >= 1 and
    a rate whose drift over one step stays within the volatility of one
    step, |r| * dt <= sigma * sqrt(dt) with dt = T / N (so that the
    risk-neutral probability lies in [0, 1]), both engines are constructed,
    both prices are returned, and the American price is at least the
    European price. *)
Theorem american_put_dominates :
  forall (S K T r sigma : scalar) (N : nat),
  0 < S -> 0 < K -> 0 < T -> 0 < sigma -> (1 <= N)%nat ->
  Rabs (r * (T / INR N)) <= sigma * sqrt (T / INR N) ->
  exists am eu american european,
    BinomialTree.__init__ S K T r sigma N "put" "american" = Ok am /\
    BinomialTree.__init__ S K T r sigma N "put" "european" = Ok eu /\
    BinomialTree.price am = Ok american /\
    BinomialTree.price eu = Ok european /\
    european <= american.
Proof.
  intros S K T r sigma N HS HK HT Hsig HN Hdrift.
  assert (HN0 : N <> 0%nat) by lia.
  unfold BinomialTree.__init__. rewrite truediv_int_nonzero by exact HN0.
  cbn [Py.bind]. change (lower "put") with "put"%string.
  change (lower "american") with "american"%string.
  change (lower "european") with "european"%string.
  eexists; eexists; eexists; eexists.
  split; [reflexivity|]. split; [reflexivity|].
  split; [apply binomial_price_lattice; right; reflexivity|].
  split; [apply binomial_price_lattice; right; reflexivity|].
  cbn [BinomialTree.steps].
  assert (Hdt : 0 < T / INR N).
  { apply Rdiv_lt_0_compat; [exact HT|]. apply lt_0_INR. lia. }
  apply lattice_value_american_ge.
  - repeat split; reflexivity.
  - reflexivity.
  - reflexivity.
  - cbn [BinomialTree.p]. apply risk_neutral_probability_range.
    + apply Rmult_lt_0_compat; [exact Hsig|]. apply sqrt_lt_R0. exact Hdt.
    + exact Hdrift.
  - cbn [BinomialTree.discount]. left. apply exp_pos.
Qed.

Lemma american_put_dominates_witness :
  exists am eu american european,
    BinomialTree.__init__ (float 100) (float 100) (float 2) (float 0.05)
                          (float 0.2) 2 "put" "american" = Ok am /\
    BinomialTree.__init__ (float 100) (float 100) (float 2) (float 0.05)
                          (float 0.2) 2 "put" "european" = Ok eu /\
    BinomialTree.price am = Ok american /\
    BinomialTree.price eu = Ok european /\
    european <= american.
Proof.
  apply (american_put_dominates (float 100) (float 100) (float 2)
           (float 0.05) (float 0.2) 2); simpl; try lra; try lia.
  replace (2 / (1 + 1)) with 1 by lra. rewrite sqrt_1.
  rewrite Rabs_right; lra.
Defined.

(** A two-step put lattice struck at the money whose risk-neutral
    probability exceeds 1: early exercise at the lower middle node lowers
    the root. *)
Lemma two_step_put_gap :
  forall am eu : BinomialTree.BinomialTreeModel,
  same_lattice am eu ->
  BinomialTree.exercise am = "american"%string ->
  BinomialTree.exercise eu = "european"%string ->
  BinomialTree.option_type eu = "put"%string ->
  val (BinomialTree.K eu) = val (BinomialTree.S eu) ->
  0 < val (BinomialTree.S eu) ->
  1 < BinomialTree.u eu ->
  BinomialTree.d eu = 1 / BinomialTree.u eu ->
  1 < BinomialTree.p eu ->
  0 < BinomialTree.discount eu ->
  lattice_value am 2 0 0 = 0 /\ 0 < lattice_value eu 2 0 0.
Proof.
  intros am eu (HS & HK & Hu & Hd & Hp & Hdisc & Hkind)
         Ham Heu Hput HKS Hs Hu1 Hd1 Hp1 Hdpos.
  assert (Hnode : forall j i, node_price am j i = node_price eu j i).
  { intros. unfold node_price. rewrite HS, Hu, Hd. reflexivity. }
  assert (Hpay : forall s, exercise_payoff am s = exercise_payoff eu s).
  { intros. unfold exercise_payoff. rewrite HK, Hkind. reflexivity. }
  set (s := val (BinomialTree.S eu)) in *.
  set (u := BinomialTree.u eu) in *.
  set (d := BinomialTree.d eu) in *.
  set (p := BinomialTree.p eu) in *.
  set (disc := BinomialTree.discount eu) in *.
  assert (Hud : u * d = 1) by (rewrite Hd1; field; lra).
  assert (Hd0 : 0 < d < 1).
  { assert (0 < d) by (rewrite Hd1; apply Rdiv_lt_0_compat; lra). nra. }
  assert (Pay : forall x, exercise_payoff eu x = Rmax 0 (s - x)).
  { intro x. unfold exercise_payoff. rewrite Hput, HKS. reflexivity. }
  assert (Huu : 1 < u * u) by nra.
  assert (Hdd : d * d < 1) by nra.
  assert (Q22 : 0 < s * (1 - d * d)) by (apply Rmult_lt_0_compat; lra).
  assert (Q11 : 0 < s * (1 - d)) by (apply Rmult_lt_0_compat; lra).
  assert (Q20 : 0 < s * (u * u - 1)) by (apply Rmult_lt_0_compat; lra).
  assert (Q10 : 0 < s * (u - 1)) by (apply Rmult_lt_0_compat; lra).
  assert (Q21 : s * (u * d) = s) by (rewrite Hud; ring).
  assert (P20 : exercise_payoff eu (node_price eu 0 2) = 0).
  { rewrite Pay. unfold node_price. fold s u d. simpl.
    apply Rmax_left. lra. }
  assert (P21 : exercise_payoff eu (node_price eu 1 2) = 0).
  { rewrite Pay. unfold node_price. fold s u d. simpl.
    apply Rmax_left. lra. }
  assert (P22 : exercise_payoff eu (node_price eu 2 2) = s * (1 - d * d)).
  { rewrite Pay. unfold node_price. fold s u d. simpl.
    rewrite Rmax_right by lra. ring. }
  assert (P10 : exercise_payoff eu (node_price eu 0 1) = 0).
  { rewrite Pay. unfold node_price. fold s u d. simpl.
    apply Rmax_left. lra. }
  assert (P11 : exercise_payoff eu (node_price eu 1 1) = s * (1 - d)).
  { rewrite Pay. unfold node_price. fold s u d. simpl.
    rewrite Rmax_right by lra. ring. }
  assert (P00 : exercise_payoff eu (node_price eu 0 0) = 0).
  { rewrite Pay. unfold node_price. fold s u d. simpl.
    apply Rmax_left. lra. }
  split.
  - cbn [lattice_value Nat.add]. rewrite Ham. simpl String.eqb. cbv iota.
    rewrite !Hnode, !Hpay, P20, P21, P22, P10, P11, P00.
    unfold continuation. rewrite Hp, Hdisc. fold p disc.
    replace (disc * (p * 0 + (1 - p) * 0)) with 0 by ring.
    rewrite (Rmax_left 0 0) by lra.
    assert (N1 : disc * (p * 0 + (1 - p) * (s * (1 - d * d))) <= 0).
    { assert (0 <= disc * ((p - 1) * (s * (1 - d * d)))).
      { apply Rmult_le_pos; [lra|]. apply Rmult_le_pos; lra. }
      lra. }
    rewrite (Rmax_right _ (s * (1 - d))) by lra.
    apply Rmax_right.
    assert (0 <= disc * ((p - 1) * (s * (1 - d)))).
    { apply Rmult_le_pos; [lra|]. apply Rmult_le_pos; lra. }
    lra.
  - cbn [lattice_value Nat.add]. rewrite Heu. simpl String.eqb. cbv iota.
    rewrite P20, P21, P22.
    unfold continuation. fold p disc.
    replace (disc * (p * (disc * (p * 0 + (1 - p) * 0))
                     + (1 - p)
                       * (disc * (p * 0 + (1 - p) * (s * (1 - d * d))))))
      with ((disc * (p - 1)) * (disc * (p - 1)) * (s * (1 - d * d))) by ring.
    apply Rmult_lt_0_compat; [|exact Q22].
    assert (0 < disc * (p - 1)) by (apply Rmult_lt_0_compat; lra).
    apply Rmult_lt_0_compat; assumption.
Qed.

(** C6, as stated, fails.  A valid put contract (S = K = 100, T = 2,
    sigma = 0.1) with rate r = 0.3 on a two-step lattice: the American price
    is 0 and the European price is strictly positive. *)
Lemma american_put_below_european :
  exists am eu european,
    BinomialTree.__init__ (float 100) (float 100) (float 2) (float 0.3)
                          (float 0.1) 2 "put" "american" = Ok am /\
    BinomialTree.__init__ (float 100) (float 100) (float 2) (float 0.3)
                          (float 0.1) 2 "put" "european" = Ok eu /\
    BinomialTree.price am = Ok 0 /\
    BinomialTree.price eu = Ok european /\
    0 < european.
Proof.
  unfold BinomialTree.__init__. rewrite truediv_int_nonzero by lia.
  cbn [Py.bind]. change (lower "put") with "put"%string.
  change (lower "american") with "american"%string.
  change (lower "european") with "european"%string.
  cbn [val float].
  assert (Hdt : 2 / INR 2 = 1) by (simpl; lra).
  rewrite Hdt, sqrt_1.
  set (u := exp (0.1 * 1)).
  assert (Hu : 1 < u).
  { pose proof (exp_increasing 0 (0.1 * 1) ltac:(lra)) as H.
    rewrite exp_0 in H. exact H. }
  assert (Hdu : 0 < 1 / u < 1).
  { assert (0 < / u) by (apply Rinv_0_lt_compat; lra).
    assert (u * / u = 1) by (apply Rinv_r; lra). nra. }
  assert (Hr : u < exp (0.3 * 1)) by (apply exp_increasing; lra).
  assert (Hp : 1 < (exp (0.3 * 1) - 1 / u) / (u - 1 / u)).
  { set (dn := 1 / u) in *. set (rt := exp (0.3 * 1)) in *.
    apply (Rmult_lt_reg_r (u - dn)); [lra|].
    replace ((rt - dn) / (u - dn) * (u - dn)) with (rt - dn)
      by (field; lra).
    lra. }
  eexists; eexists; eexists.
  split; [reflexivity|]. split; [reflexivity|].
  match goal with
  | |- BinomialTree.price ?a = _ /\ BinomialTree.price ?e = _ /\ _ =>
      destruct (two_step_put_gap a e) as [G1 G2];
        [ repeat split; reflexivity | reflexivity | reflexivity | reflexivity
        | reflexivity | simpl; lra | exact Hu | reflexivity | exact Hp
        | apply exp_pos | ];
        rewrite (binomial_price_lattice a) by (right; reflexivity);
        rewrite (binomial_price_lattice e) by (right; reflexivity)
  end.
  cbn [BinomialTree.steps]. rewrite G1.
  split; [reflexivity|]. split; [reflexivity | exact G2].
Qed.

(** ** Monte Carlo *)

Lemma random_for_each_app :
  forall (A X : Type) (xs ys : list X) (body : A -> X -> Random.M A)
         (acc : A) (g : Random.state),
  Random.for_each (xs ++ ys) body acc g
  = Random.bind (Random.for_each xs body acc) (Random.for_each ys body) g.
Proof.
  intros A X xs ys body. induction xs as [|x xs IH]; intros acc g; simpl.
  - reflexivity.
  - unfold Random.bind. destruct (body acc x g) as [[a | e] g'].
    + rewrite IH. unfold Random.bind. reflexivity.
    + reflexivity.
Qed.

Lemma advance_advance : forall g a b,
  Random.advance (Random.advance g a) b = Random.advance g (a + b).
Proof.
  intros g a b. unfold Random.advance. simpl. f_equal. lia.
Qed.

Lemma normals_nth : forall (stream : nat -> R) (pos n i : nat),
  (i < n)%nat ->
  nth i (map (fun k => stream (pos + k)%nat) (seq 0 n)) 0
  = stream (pos + i)%nat.
Proof.
  intros stream pos n i Hi.
  set (f := fun k => stream (pos + k)%nat).
  rewrite (nth_indep _ 0 (f 0%nat))
    by (rewrite length_map, length_seq; exact Hi).
  rewrite (map_nth f), seq_nth by exact Hi. reflexivity.
Qed.

Section PathSteps.

Variable self : MonteCarlo.MonteCarloModel.
Variable dt : R.

Let sims := MonteCarlo.simulations self.

Lemma path_steps_spec : forall n paths0 g,
  exists paths,
    Random.for_each (seq 1 n) (path_step self dt) paths0 g
    = (Ok paths, Random.advance g (n * sims)) /\
    (forall i, paths i 0%nat = paths0 i 0%nat) /\
    (forall i t, (i < sims)%nat -> (1 <= t <= n)%nat ->
       paths i t
       = paths i (t - 1)%nat
         * gbm_factor self dt
             (Random.stream g (Random.pos g + ((t - 1) * sims + i)))).
Proof.
  induction n as [|n IH]; intros paths0 g.
  - exists paths0. simpl. unfold Random.ret.
    split; [|split; [reflexivity | intros; lia]].
    f_equal. unfold Random.advance. destruct g; simpl. f_equal. lia.
  - destruct (IH paths0 g) as (paths & Hrun & H0 & Hrec).
    rewrite seq_S, random_for_each_app. unfold Random.bind at 1.
    rewrite Hrun. simpl Random.for_each.
    unfold Random.bind, path_step, Random.standard_normal, Random.ret.
    simpl.
    eexists. split; [|split].
    + rewrite advance_advance. do 2 f_equal. lia.
    + intro i. unfold Np.setcolumn. simpl. apply H0.
    + intros i t Hi Ht. unfold Np.setcolumn.
      destruct (Nat.eqb_spec t (S n)) as [-> | Hne].
      * simpl Nat.sub. rewrite Nat.sub_0_r.
        destruct (Nat.eqb_spec n (S n)) as [E | _]; [lia|].
        rewrite normals_nth by exact Hi.
        do 3 f_equal. lia.
      * destruct (Nat.eqb_spec (t - 1) (S n)) as [E | _]; [lia|].
        apply Hrec; [exact Hi | lia].
Qed.

End PathSteps.

(** [_simulate_paths] returns the discretised geometric Brownian motion on
    the next [steps * simulations] draws and advances the generator by that
    many. *)
Lemma simulate_paths_spec : forall self steps g,
  steps <> 0%nat ->
  exists paths,
    MonteCarlo._simulate_paths self steps g
    = (Ok paths,
       Random.advance g (steps * MonteCarlo.simulations self)) /\
    (forall i t, (i < MonteCarlo.simulations self)%nat -> (t <= steps)%nat ->
       paths i t = gbm_path self (step_length self steps) (upcoming g) i t).
Proof.
  intros self steps g Hsteps.
  destruct (path_steps_spec self (step_length self steps) steps
              (Np.setcolumn Np.zeros 0 (fun _ => val (MonteCarlo.S self))) g)
    as (paths & Hrun & H0 & Hrec).
  exists paths. split.
  - unfold MonteCarlo._simulate_paths, Random.lift.
    rewrite truediv_int_nonzero by exact Hsteps.
    unfold Random.bind at 1. exact Hrun.
  - intros i t Hi. induction t as [|t IH]; intro Ht.
    + rewrite H0. reflexivity.
    + rewrite Hrec by (try exact Hi; lia).
      simpl Nat.sub. rewrite Nat.sub_0_r. rewrite IH by lia.
      reflexivity.
Qed.

(** When [T / steps] raises, nothing has been drawn. *)
Lemma simulate_paths_zero_steps : forall self g,
  is_numpy (MonteCarlo.T self) = false ->
  MonteCarlo._simulate_paths self 0 g = (Raise ZeroDivisionError, g).
Proof.
  intros self g HT. unfold MonteCarlo._simulate_paths, Random.lift, Random.bind.
  unfold truediv_int, truediv. rewrite HT. simpl.
  destruct (Req_dec_T 0 0) as [_ | N]; [reflexivity|].
  contradiction N; reflexivity.
Qed.

Lemma final_column_spec : forall self steps g paths,
  (forall i t, (i < MonteCarlo.simulations self)%nat -> (t <= steps)%nat ->
     paths i t = gbm_path self (step_length self steps) (upcoming g) i t) ->
  MonteCarlo.final_column self steps paths
  = terminal_prices self steps (upcoming g).
Proof.
  intros self steps g paths H.
  unfold MonteCarlo.final_column, Np.column, terminal_prices.
  apply map_ext_in. intros i Hi. apply in_seq in Hi. apply H; lia.
Qed.

Lemma mc_price_spec : forall self steps g,
  steps <> 0%nat ->
  MonteCarlo.option_type self = "call"%string
  \/ MonteCarlo.option_type self = "put"%string ->
  MonteCarlo.price self steps g
  = (Ok (mc_price_value self steps (upcoming g)),
     Random.advance g (steps * MonteCarlo.simulations self)).
Proof.
  intros self steps g Hsteps Hkind.
  destruct (simulate_paths_spec self steps g Hsteps) as (paths & Hrun & Hp).
  unfold MonteCarlo.price, Random.bind. rewrite Hrun.
  rewrite (final_column_spec self steps g paths Hp).
  unfold mc_price_value, mc_payoff, Random.ret, Np.maximum.
  destruct Hkind as [E | E]; rewrite E; reflexivity.
Qed.

Lemma mc_price_unknown_kind : forall self steps g,
  steps <> 0%nat ->
  MonteCarlo.option_type self <> "call"%string ->
  MonteCarlo.option_type self <> "put"%string ->
  MonteCarlo.price self steps g
  = (Raise kind_error,
     Random.advance g (steps * MonteCarlo.simulations self)).
Proof.
  intros self steps g Hsteps Hc Hp.
  destruct (simulate_paths_spec self steps g Hsteps) as (paths & Hrun & _).
  unfold MonteCarlo.price, Random.bind. rewrite Hrun.
  apply String.eqb_neq in Hc, Hp. rewrite Hc, Hp. reflexivity.
Qed.

Lemma mc_confidence_spec : forall norm_ppf self steps confidence g,
  steps <> 0%nat ->
  MonteCarlo.price_with_confidence norm_ppf self steps confidence g
  = (Ok (mc_confidence_value norm_ppf self steps confidence (upcoming g)),
     Random.advance g (steps * MonteCarlo.simulations self)).
Proof.
  intros norm_ppf self steps confidence g Hsteps.
  destruct (simulate_paths_spec self steps g Hsteps) as (paths & Hrun & Hp).
  unfold MonteCarlo.price_with_confidence, Random.bind. rewrite Hrun.
  rewrite (final_column_spec self steps g paths Hp).
  unfold mc_confidence_value, mc_payoff, Random.ret, Np.maximum.
  destruct (MonteCarlo.option_type self =? "call")%string; reflexivity.
Qed.

(** *** Two engines and one process-wide generator *)

Section TwoEngineRuns.

Variable seeded_normals : Z -> nat -> R.
Variable norm_ppf : R -> R.

Variables (S K T r sigma : scalar) (simulations : nat) (kind : string).
Variable seed : Z.
Variables (steps : nat) (confidence : R).

Let self := constructed S K T r sigma simulations kind seed.

Lemma construct_spec : forall g,
  MonteCarlo.__init__ seeded_normals S K T r sigma simulations kind
                      (Some seed) g
  = (Ok self, {| Random.stream := seeded_normals seed; Random.pos := 0 |}).
Proof. intro g. reflexivity. Qed.

Lemma sequential_run : forall g,
  steps <> 0%nat ->
  fst (construct_price_construct_price seeded_normals norm_ppf
         S K T r sigma simulations kind seed steps confidence g)
  = Ok (mc_confidence_value norm_ppf self steps confidence
                            (seeded_normals seed),
        mc_confidence_value norm_ppf self steps confidence
                            (seeded_normals seed)).
Proof.
  intros g Hsteps. unfold construct_price_construct_price.
  unfold Random.bind at 1. rewrite construct_spec.
  unfold Random.bind at 1.
  rewrite mc_confidence_spec by exact Hsteps.
  unfold Random.bind at 1. rewrite construct_spec.
  unfold Random.bind at 1.
  rewrite mc_confidence_spec by exact Hsteps.
  reflexivity.
Qed.

Lemma interleaved_run : forall g,
  steps <> 0%nat ->
  fst (construct_construct_price_price seeded_normals norm_ppf
         S K T r sigma simulations kind seed steps confidence g)
  = Ok (mc_confidence_value norm_ppf self steps confidence
                            (seeded_normals seed),
        mc_confidence_value norm_ppf self steps confidence
          (fun k => seeded_normals seed (steps * simulations + k)%nat)).
Proof.
  intros g Hsteps. unfold construct_construct_price_price.
  unfold Random.bind at 1. rewrite construct_spec.
  unfold Random.bind at 1. rewrite construct_spec.
  unfold Random.bind at 1.
  rewrite mc_confidence_spec by exact Hsteps.
  unfold Random.bind at 1.
  rewrite mc_confidence_spec by exact Hsteps.
  reflexivity.
Qed.

End TwoEngineRuns.

(** C7, amended.  For every seed and identical parameters, two separately
    constructed engines return the same price, standard deviation, standard
    error and confidence bounds when each is priced right after its own
    construction, whatever the generator held before; when both are
    constructed before either is priced, the second engine is priced on the
    draws that follow the ones the first consumed. *)
Theorem seeded_engines_agree_when_priced_in_turn :
  forall (seeded_normals : Z -> nat -> R) (norm_ppf : R -> R)
         (S K T r sigma : scalar) (simulations : nat) (kind : string)
         (seed : Z) (steps : nat) (confidence : R) (g : Random.state),
  steps <> 0%nat ->
  let self := constructed S K T r sigma simulations kind seed in
  let first := mc_confidence_value norm_ppf self steps confidence
                                   (seeded_normals seed) in
  let later := mc_confidence_value norm_ppf self steps confidence
                 (fun k => seeded_normals seed (steps * simulations + k)%nat) in
  fst (construct_price_construct_price seeded_normals norm_ppf
         S K T r sigma simulations kind seed steps confidence g)
  = Ok (first, first) /\
  fst (construct_construct_price_price seeded_normals norm_ppf
         S K T r sigma simulations kind seed steps confidence g)
  = Ok (first, later).
Proof.
  intros. split; [apply sequential_run | apply interleaved_run]; assumption.
Qed.

Lemma seeded_engines_agree_when_priced_in_turn_witness :
  exists c : MonteCarlo.Confidence,
    fst (construct_price_construct_price counting_normals z_95
           (float 100) (float 100) (float 1) (float 0.05) (float 0.2)
           1000 "call" 42 100 0.95 unseeded)
    = Ok (c, c).
Proof.
  assert (H : 100%nat <> 0%nat) by discriminate.
  destruct (seeded_engines_agree_when_priced_in_turn counting_normals z_95
              (float 100) (float 100) (float 1) (float 0.05) (float 0.2)
              1000 "call" 42 100 0.95 unseeded H) as [Hseq _].
  eexists. exact Hseq.
Defined.

Lemma mean_single : forall x, Np.mean [x] = x.
Proof. intro x. unfold Np.mean, Np.sum. simpl. field. Qed.

Lemma single_path_terminal : forall self normals,
  MonteCarlo.simulations self = 1%nat ->
  terminal_prices self 1 normals
  = [MonteCarlo.S self
     * gbm_factor self (step_length self 1) (normals 0%nat)].
Proof.
  intros self normals H. unfold terminal_prices. rewrite H. reflexivity.
Qed.

(** One path, one step, the at-the-money call on S = K = 100 with T = 1,
    r = 0.05, sigma = 0.2: the discounted payoff is larger on the draw 1
    than on the draw 0. *)
Lemma one_step_call_payoffs :
  let self := constructed (float 100) (float 100) (float 1) (float 0.05)
                          (float 0.2) 1 "call" 42 in
  let payoff (z : R) :=
    exp (- MonteCarlo.r self * MonteCarlo.T self)
    * mc_payoff self (MonteCarlo.S self
                      * gbm_factor self (step_length self 1) z) in
  payoff 0 < payoff 1.
Proof.
  intros self payoff. unfold payoff, mc_payoff, gbm_factor, step_length, self.
  cbn [constructed MonteCarlo.option_type MonteCarlo.S MonteCarlo.K
       MonteCarlo.T MonteCarlo.r MonteCarlo.sigma val float].
  change (lower "call") with "call"%string. simpl String.eqb. cbv iota.
  replace (1 / INR 1) with 1 by (simpl; field). rewrite sqrt_1.
  set (a0 := (0.05 - 0.5 * 0.2 ^ 2) * 1 + 0.2 * 1 * 0).
  set (a1 := (0.05 - 0.5 * 0.2 ^ 2) * 1 + 0.2 * 1 * 1).
  assert (H0 : 0 < a0) by (unfold a0; lra).
  assert (H1 : a0 < a1) by (unfold a0, a1; lra).
  pose proof (exp_increasing 0 a0 H0) as E0. rewrite exp_0 in E0.
  pose proof (exp_increasing a0 a1 H1) as E1.
  rewrite (Rmax_left (100 * exp a0 - 100) 0) by lra.
  rewrite (Rmax_left (100 * exp a1 - 100) 0) by lra.
  apply Rmult_lt_compat_l; [apply exp_pos | lra].
Qed.

(** C7, as stated, fails.  Seed 42, one simulation of one step on the
    at-the-money call: constructed one after the other and then priced one
    after the other, the two engines report different prices. *)
Lemma seeded_engines_differ_when_interleaved :
  exists ra rb : MonteCarlo.Confidence,
    fst (construct_construct_price_price counting_normals z_95
           (float 100) (float 100) (float 1) (float 0.05) (float 0.2)
           1 "call" 42 1 0.95 unseeded)
    = Ok (ra, rb) /\
    MonteCarlo.c_price ra <> MonteCarlo.c_price rb.
Proof.
  rewrite interleaved_run by discriminate.
  eexists; eexists. split; [reflexivity|].
  unfold mc_confidence_value. cbn [MonteCarlo.c_price].
  rewrite !single_path_terminal by reflexivity.
  cbn [map]. rewrite !mean_single.
  pose proof one_step_call_payoffs as H. cbv zeta in H.
  unfold counting_normals. cbn [Nat.mul Nat.add]. simpl INR.
  apply Rlt_not_eq. exact H.
Qed.

(** *** Path inspection *)

Lemma set_simulations_restore : forall self n,
  MonteCarlo.set_simulations (MonteCarlo.set_simulations self n)
                             (MonteCarlo.simulations self)
  = self.
Proof. intros self n. destruct self. reflexivity. Qed.

Lemma get_paths_spec : forall self num_paths path_steps g,
  path_steps <> 0%nat ->
  exists paths,
    MonteCarlo.get_paths self num_paths path_steps g
    = (Ok paths, self, Random.advance g (path_steps * num_paths)).
Proof.
  intros self num_paths path_steps g H.
  destruct (simulate_paths_spec (MonteCarlo.set_simulations self num_paths)
              path_steps g H) as (paths & Hrun & _).
  exists paths. unfold MonteCarlo.get_paths. rewrite Hrun.
  rewrite set_simulations_restore. reflexivity.
Qed.

(** With a step count of zero [get_paths] leaves through the exception of
    [T / steps], after the first assignment and before the second. *)
Lemma get_paths_zero_steps : forall self num_paths g,
  is_numpy (MonteCarlo.T self) = false ->
  MonteCarlo.get_paths self num_paths 0 g
  = (Raise ZeroDivisionError,
     MonteCarlo.set_simulations self num_paths, g).
Proof.
  intros self num_paths g HT. unfold MonteCarlo.get_paths.
  rewrite simulate_paths_zero_steps by exact HT. reflexivity.
Qed.

(** C8, amended.  When the path-inspection accessor returns, the engine has
    the fields it had before, the simulation count included, and the
    process-wide generator has handed out path_steps * num_paths more draws;
    a subsequent pricing call returns the price computed on the draws that
    follow them, where a pricing call without the inspection returns the
    price computed on the draws from the current position on. *)
Theorem get_paths_restores_engine_and_consumes_draws :
  forall (self : MonteCarlo.MonteCarloModel)
         (num_paths path_steps steps : nat) (g : Random.state),
  path_steps <> 0%nat -> steps <> 0%nat ->
  MonteCarlo.option_type self = "call"%string
  \/ MonteCarlo.option_type self = "put"%string ->
  let g' := Random.advance g (path_steps * num_paths) in
  (exists paths,
     MonteCarlo.get_paths self num_paths path_steps g = (Ok paths, self, g')) /\
  fst (inspect_then_price self num_paths path_steps steps g)
  = Ok (mc_price_value self steps (upcoming g')) /\
  fst (MonteCarlo.price self steps g)
  = Ok (mc_price_value self steps (upcoming g)).
Proof.
  intros self num_paths path_steps steps g Hp Hs Hkind g'.
  destruct (get_paths_spec self num_paths path_steps g Hp) as (paths & Hget).
  split; [exists paths; exact Hget|]. split.
  - unfold inspect_then_price. rewrite Hget.
    rewrite mc_price_spec by assumption. reflexivity.
  - rewrite mc_price_spec by assumption. reflexivity.
Qed.

Lemma get_paths_restores_engine_and_consumes_draws_witness :
  exists paths,
    MonteCarlo.get_paths sample_engine 100 100 seeded_42
    = (Ok paths, sample_engine, Random.advance seeded_42 (100 * 100)).
Proof.
  assert (H : 100%nat <> 0%nat) by discriminate.
  assert (Hk : MonteCarlo.option_type sample_engine = "call"%string
               \/ MonteCarlo.option_type sample_engine = "put"%string)
    by (left; reflexivity).
  destruct (get_paths_restores_engine_and_consumes_draws
              sample_engine 100 100 100 seeded_42 H H Hk) as [Hget _].
  exact Hget.
Defined.

(** C8, as stated, fails.  The engine of seed 42 with one simulation: the
    price of one step right after construction differs from the price of
    one step after inspecting one path of one step. *)
Lemma price_changes_after_get_paths :
  exists before after : R,
    fst (MonteCarlo.price single_path_engine 1 seeded_42) = Ok before /\
    fst (inspect_then_price single_path_engine 1 1 1 seeded_42) = Ok after /\
    before <> after.
Proof.
  assert (Hk : MonteCarlo.option_type single_path_engine = "call"%string
               \/ MonteCarlo.option_type single_path_engine = "put"%string)
    by (left; reflexivity).
  destruct (get_paths_spec single_path_engine 1 1 seeded_42
                           ltac:(discriminate))
    as (paths & Hget).
  unfold inspect_then_price. rewrite Hget.
  rewrite !mc_price_spec by (try discriminate; exact Hk).
  eexists; eexists. split; [reflexivity|]. split; [reflexivity|].
  unfold mc_price_value.
  rewrite !single_path_terminal by reflexivity.
  cbn [map]. rewrite !mean_single.
  pose proof one_step_call_payoffs as H. cbv zeta in H.
  unfold upcoming, seeded_42, counting_normals, Random.advance.
  cbn [Random.stream Random.pos Nat.mul Nat.add]. simpl INR.
  apply Rlt_not_eq. exact H.
Qed.

(** ** Option kinds outside call and put *)

Lemma binomial_price_unknown_kind : forall self,
  BinomialTree.option_type self <> "call"%string ->
  BinomialTree.option_type self <> "put"%string ->
  BinomialTree.price self = Raise kind_error.
Proof.
  intros self Hc Hp. unfold BinomialTree.price.
  rewrite Nat.add_1_r. cbn [seq for_each].
  unfold BinomialTree._calculate_option_value at 1.
  apply String.eqb_neq in Hc, Hp. rewrite Hc, Hp. reflexivity.
Qed.

(** C3, amended.  For every option kind that is neither 'call' nor 'put'
    once lower-cased, the price operation of each engine raises ValueError,
    after numeric work rather than before it: Black-Scholes evaluates d1 and
    d2 first, so that the error of that evaluation, if any, is the one
    raised; the binomial engine (constructed with a step count other than 0)
    raises at the first terminal node; Monte Carlo (with a step count other
    than 0) raises once the paths are simulated, steps * simulations draws
    later. *)
Theorem unknown_kind_raises_after_numeric_work :
  forall (S K T r sigma : scalar) (kind : string),
  lower kind <> "call"%string -> lower kind <> "put"%string ->
  (BlackScholes.price (BlackScholes.__init__ S K T r sigma kind)
   = (_ <- BlackScholes._calculate_d1_d2
             (BlackScholes.__init__ S K T r sigma kind) ;;
      Raise kind_error)) /\
  (val K <> 0 ->
   BlackScholes.price (BlackScholes.__init__ S K T r sigma kind)
   = Raise kind_error) /\
  (forall (N : nat) (exercise : string), N <> 0%nat ->
   exists self,
     BinomialTree.__init__ S K T r sigma N kind exercise = Ok self /\
     BinomialTree.price self = Raise kind_error) /\
  (forall (seeded_normals : Z -> nat -> R) (simulations : nat)
          (seed : option Z) (steps : nat) (g : Random.state),
   steps <> 0%nat ->
   exists self g1,
     MonteCarlo.__init__ seeded_normals S K T r sigma simulations kind seed g
     = (Ok self, g1) /\
     MonteCarlo.price self steps g1
     = (Raise kind_error, Random.advance g1 (steps * simulations))).
Proof.
  intros S K T r sigma kind Hc Hp. split; [|split; [|split]].
  - apply bs_price_unknown_kind; assumption.
  - intro HK. rewrite bs_price_unknown_kind by assumption.
    rewrite bs_d1_d2_ok by exact HK. reflexivity.
  - intros N exercise HN. unfold BinomialTree.__init__.
    rewrite truediv_int_nonzero by exact HN. cbn [Py.bind].
    eexists. split; [reflexivity|].
    apply binomial_price_unknown_kind; assumption.
  - intros seeded_normals simulations seed steps g Hsteps.
    unfold MonteCarlo.__init__.
    destruct seed as [s|]; eexists; eexists; (split; [reflexivity|]);
      rewrite mc_price_unknown_kind by assumption; reflexivity.
Qed.

Lemma unknown_kind_raises_after_numeric_work_witness :
  BlackScholes.price
    (BlackScholes.__init__ (float 100) (float 100) (float 1) (float 0.05)
                           (float 0.2) "straddle")
  = Raise kind_error.
Proof.
  assert (Hc : lower "straddle" <> "call"%string) by (simpl; discriminate).
  assert (Hp : lower "straddle" <> "put"%string) by (simpl; discriminate).
  destruct (unknown_kind_raises_after_numeric_work
              (float 100) (float 100) (float 1) (float 0.05) (float 0.2)
              "straddle" Hc Hp) as (_ & Hbs & _).
  apply Hbs. simpl. lra.
Defined.

(** C3, as stated, fails.  The Monte Carlo engine of kind 'straddle' with
    10 simulations, priced over 100 steps: the call raises ValueError and
    the generator, at position 0 after construction, is at position 1000
    afterwards. *)
Lemma straddle_raises_after_simulation :
  exists self g1 g2,
    MonteCarlo.__init__ counting_normals (float 100) (float 100) (float 1)
                        (float 0.05) (float 0.2) 10 "straddle" (Some 42%Z)
                    unseeded
    = (Ok self, g1) /\
    Random.pos g1 = 0%nat /\
    MonteCarlo.price self 100 g1 = (Raise kind_error, g2) /\
    Random.pos g2 = 1000%nat.
Proof.
  eexists; eexists; eexists. split; [reflexivity|]. split; [reflexivity|].
  split.
  - apply mc_price_unknown_kind; simpl; discriminate.
  - reflexivity.
Qed.

(** With a strike of zero the failure of Black-Scholes pricing on an
    unknown kind is the division error of d1, not ValueError. *)
Lemma straddle_zero_strike_division_error :
  BlackScholes.price
    (BlackScholes.__init__ (float 100) (float 0) (float 1) (float 0.05)
                           (float 0.2) "straddle")
  = Raise ZeroDivisionError.
Proof.
  rewrite bs_price_unknown_kind by (simpl; discriminate).
  rewrite bs_d1_d2_zero_strike by reflexivity. reflexivity.
Qed.

(** ** Inputs that are not positive *)

(** C2, amended.  None of the engines checks the sign of S, K, T or sigma;
    no value of them is rejected for being zero or negative.  For every S,
    K, T and r, every sigma whose square is in the range of a float where
    the engine squares it (Black-Scholes and Monte Carlo), and a call or a
    put: Black-Scholes pricing returns when the strike is not zero, and
    raises ZeroDivisionError from S / K when spot and strike are Python
    floats and the strike is exactly zero; the binomial engine is
    constructed for every step count from 1 to 10^4, keeps the four values
    as given and its pricing returns; the Monte Carlo engine is constructed
    for every simulation count from 1 to 10^4 and every seed that is absent
    or one numpy accepts, keeps the four values as given, and its pricing
    returns for every step count from 1 to 10^4.  What pricing returns is a
    real number here and a float in the source, nan and inf included. *)
Theorem engines_accept_any_sign :
  forall (S K T r sigma : scalar) (kind : string),
  lower kind = "call"%string \/ lower kind = "put"%string ->
  (val K <> 0 -> square_in_float_range sigma ->
   exists v, BlackScholes.price (BlackScholes.__init__ S K T r sigma kind)
             = Ok v) /\
  (is_numpy S = false -> is_numpy K = false -> val K = 0 ->
   BlackScholes.price (BlackScholes.__init__ S K T r sigma kind)
   = Raise ZeroDivisionError) /\
  (forall (N : nat) (exercise : string), count_in_range N ->
   exists self v,
     BinomialTree.__init__ S K T r sigma N kind exercise = Ok self /\
     BinomialTree.S self = S /\ BinomialTree.K self = K /\
     BinomialTree.T self = T /\ BinomialTree.sigma self = sigma /\
     BinomialTree.price self = Ok v) /\
  (forall (seeded_normals : Z -> nat -> R) (simulations : nat)
          (seed : option Z) (steps : nat) (g : Random.state),
   square_in_float_range sigma ->
   count_in_range simulations -> count_in_range steps ->
   seed_accepted seed ->
   exists self g1 v g2,
     MonteCarlo.__init__ seeded_normals S K T r sigma simulations kind seed g
     = (Ok self, g1) /\
     MonteCarlo.S self = S /\ MonteCarlo.K self = K /\
     MonteCarlo.T self = T /\ MonteCarlo.sigma self = sigma /\
     MonteCarlo.price self steps g1 = (Ok v, g2)).
Proof.
  intros S K T r sigma kind Hkind. split; [|split; [|split]].
  - intros HK _. eexists. apply bs_price_valid; assumption.
  - intros HS HK HK0. unfold BlackScholes.price, BlackScholes._calculate_d1_d2.
    cbn [BlackScholes.__init__ BlackScholes.S BlackScholes.K].
    unfold truediv. rewrite HS, HK. simpl orb. cbv iota.
    destruct (Req_dec_T K 0) as [_ | N]; [reflexivity | contradiction].
  - intros N exercise [HN _]. unfold BinomialTree.__init__.
    rewrite truediv_int_nonzero by lia. cbn [Py.bind].
    eexists; eexists. split; [reflexivity|].
    repeat (split; [reflexivity|]).
    apply binomial_price_lattice. exact Hkind.
  - intros seeded_normals simulations seed steps g _ _ [Hsteps _] _.
    unfold MonteCarlo.__init__.
    destruct seed as [s|]; eexists; eexists; eexists; eexists;
      (split; [reflexivity|]); repeat (split; [reflexivity|]);
      apply mc_price_spec; try assumption; lia.
Qed.

Lemma engines_accept_any_sign_witness :
  (exists v,
     BlackScholes.price
       (BlackScholes.__init__ (float (-100)) (float (-100)) (float (-1))
                              (float 0.05) (float 0) "put") = Ok v) /\
  (exists self v,
     BinomialTree.__init__ (float (-100)) (float (-100)) (float (-1))
                           (float 0.05) (float 0) 100 "put" "european"
     = Ok self /\
     BinomialTree.price self = Ok v) /\
  (exists self g1 v g2,
     MonteCarlo.__init__ counting_normals (float (-100)) (float (-100))
                         (float (-1)) (float 0.05) (float 0) 1000 "put"
                         (Some 42%Z) unseeded
     = (Ok self, g1) /\
     MonteCarlo.price self 100 g1 = (Ok v, g2)).
Proof.
  assert (Hsigma : square_in_float_range (float 0)).
  { unfold square_in_float_range. simpl. rewrite Rabs_R0. lra. }
  assert (H100 : count_in_range 100).
  { unfold count_in_range, max_count. lia. }
  assert (H1000 : count_in_range 1000).
  { unfold count_in_range, max_count. lia. }
  assert (Hseed : seed_accepted (Some 42%Z)).
  { unfold seed_accepted. lia. }
  destruct (engines_accept_any_sign
              (float (-100)) (float (-100)) (float (-1)) (float 0.05)
              (float 0) "put" (or_intror eq_refl))
    as (Hbs & _ & Hbt & Hmc).
  split; [|split].
  - apply Hbs; [simpl; lra | exact Hsigma].
  - destruct (Hbt 100%nat "european"%string H100)
      as (self & v & Hi & _ & _ & _ & _ & Hp).
    exists self, v. split; assumption.
  - destruct (Hmc counting_normals 1000%nat (Some 42%Z) 100%nat unseeded
                Hsigma H1000 H100 Hseed)
      as (self & g1 & v & g2 & Hi & _ & _ & _ & _ & Hp).
    exists self, g1, v, g2. split; assumption.
Defined.

(** C2, as stated, fails.  A negative spot, S = -100, with K = 100, T = 1,
    r = 0.05, sigma = 0.2: the binomial engine of one step is constructed
    and prices the call at 0. *)
Lemma negative_spot_is_priced :
  exists self,
    BinomialTree.__init__ (float (-100)) (float 100) (float 1) (float 0.05)
                          (float 0.2) 1 "call" "european" = Ok self /\
    BinomialTree.price self = Ok 0.
Proof.
  unfold BinomialTree.__init__. rewrite truediv_int_nonzero by discriminate.
  cbn [Py.bind]. eexists. split; [reflexivity|].
  rewrite binomial_price_lattice by (left; reflexivity).
  f_equal. cbn [BinomialTree.steps lattice_value Nat.add].
  cbn [BinomialTree.exercise]. change (lower "european") with "european"%string.
  simpl String.eqb. cbv iota.
  unfold exercise_payoff, node_price, continuation.
  cbn [BinomialTree.option_type BinomialTree.S BinomialTree.K BinomialTree.u
       BinomialTree.d BinomialTree.p BinomialTree.discount val float].
  change (lower "call") with "call"%string. simpl String.eqb. cbv iota.
  set (u := exp (0.2 * sqrt (1 / INR 1))).
  assert (Hu : 0 < u) by apply exp_pos.
  assert (Hd : 0 < 1 / u) by (apply Rdiv_lt_0_compat; lra).
  simpl pow.
  rewrite (Rmax_left 0 (-100 * (u * 1) * 1 - 100)) by nra.
  rewrite (Rmax_left 0 (-100 * 1 * (1 / u * 1) - 100)) by nra.
  ring.
Qed.

(** * Further properties of the engines *)

(** ** Black-Scholes: relations between the Greeks *)

Lemma norm_cdf_increasing : forall x y,
  x <= y -> Np.norm_cdf x <= Np.norm_cdf y.
Proof.
  intros x y Hxy. unfold Np.norm_cdf.
  pose proof (RiemannInt_P26 (Np.norm_pdf_integrable 0 x)
                             (Np.norm_pdf_integrable x y)
                             (Np.norm_pdf_integrable 0 y)) as Ch.
  pose proof (@RiemannInt_const_bound Np.norm_pdf x y 0 1
                (Np.norm_pdf_integrable x y) Hxy) as B.
  assert (Hb : forall z, x < z < y -> 0 <= Np.norm_pdf z <= 1).
  { intros z _. split; [left; apply norm_pdf_pos | apply norm_pdf_le_1]. }
  specialize (B Hb). lra.
Qed.

Lemma bs_delta_value : forall (S K T r sigma : scalar) kind,
  val K <> 0 ->
  BlackScholes.delta (BlackScholes.__init__ S K T r sigma kind)
  = Ok (if (lower kind =? "call")%string
        then Np.norm_cdf (bs_d1 S K T r sigma)
        else Np.norm_cdf (bs_d1 S K T r sigma) - 1).
Proof.
  intros S K T r sigma kind HK. unfold BlackScholes.delta.
  rewrite bs_d1_d2_ok by exact HK. cbn [Py.bind BlackScholes.__init__
                                         BlackScholes.option_type].
  destruct (lower kind =? "call")%string; reflexivity.
Qed.

Lemma bs_gamma_value : forall (S K T r sigma : scalar) kind,
  val K <> 0 ->
  BlackScholes.gamma (BlackScholes.__init__ S K T r sigma kind)
  = Ok (Np.norm_pdf (bs_d1 S K T r sigma) / (S * sigma * sqrt T)).
Proof.
  intros S K T r sigma kind HK. unfold BlackScholes.gamma.
  rewrite bs_d1_d2_ok by exact HK. reflexivity.
Qed.

(** X1.  The Greeks of a call and of the put on the same contract (strike
    not zero) differ by the Greeks of the forward: the deltas by 1, the
    daily thetas by -r K exp(-rT) / 365, the rhos by K T exp(-rT) / 100;
    gamma and vega are the same for both. *)
Theorem black_scholes_greeks_parity : forall (S K T r sigma : scalar),
  val K <> 0 ->
  let call := BlackScholes.__init__ S K T r sigma "call" in
  let put := BlackScholes.__init__ S K T r sigma "put" in
  exists dc dp tc tp rc rp : R,
    BlackScholes.delta call = Ok dc /\ BlackScholes.delta put = Ok dp /\
    BlackScholes.theta call = Ok tc /\ BlackScholes.theta put = Ok tp /\
    BlackScholes.rho call = Ok rc /\ BlackScholes.rho put = Ok rp /\
    dc - dp = 1 /\
    tc - tp = - (r * K * exp (- r * T)) / 365 /\
    rc - rp = K * T * exp (- r * T) / 100 /\
    BlackScholes.gamma call = BlackScholes.gamma put /\
    BlackScholes.vega call = BlackScholes.vega put.
Proof.
  intros S K T r sigma HK call put.
  unfold call, put, BlackScholes.theta, BlackScholes.rho.
  rewrite !bs_delta_value, !bs_gamma_value, !bs_vega_ok, !bs_d1_d2_ok
    by exact HK.
  cbn [Py.bind BlackScholes.__init__ BlackScholes.option_type
       BlackScholes.S BlackScholes.K BlackScholes.T BlackScholes.r
       BlackScholes.sigma].
  change (lower "call") with "call"%string.
  change (lower "put") with "put"%string.
  simpl String.eqb. cbv iota.
  do 6 eexists. repeat (split; [reflexivity|]).
  rewrite !norm_cdf_sym.
  split; [lra|]. split; [unfold Rdiv; ring|]. split; [unfold Rdiv; ring|].
  split; reflexivity.
Qed.

Lemma black_scholes_greeks_parity_witness :
  exists dc dp : R,
    BlackScholes.delta
      (BlackScholes.__init__ (float 100) (float 100) (float 1) (float 0.05)
                             (float 0.2) "call") = Ok dc /\
    BlackScholes.delta
      (BlackScholes.__init__ (float 100) (float 100) (float 1) (float 0.05)
                             (float 0.2) "put") = Ok dp /\
    dc - dp = 1.
Proof.
  assert (HK : val (float 100) <> 0) by (simpl; lra).
  destruct (black_scholes_greeks_parity (float 100) (float 100) (float 1)
              (float 0.05) (float 0.2) HK)
    as (dc & dp & tc & tp & rc & rp & H1 & H2 & _ & _ & _ & _ & H3 & _).
  exists dc, dp. split; [exact H1 | split; [exact H2 | exact H3]].
Defined.

(** X2.  For every valid contract, whatever its kind, gamma and vega are
    returned and are not negative, and they satisfy
    100 * vega = S^2 * sigma * T * gamma. *)
Theorem black_scholes_vega_gamma : forall (S K T r sigma : scalar) kind,
  0 < S -> 0 < K -> 0 < T -> 0 < sigma ->
  exists gamma vega : R,
    BlackScholes.gamma (BlackScholes.__init__ S K T r sigma kind) = Ok gamma /\
    BlackScholes.vega (BlackScholes.__init__ S K T r sigma kind) = Ok vega /\
    0 <= gamma /\ 0 <= vega /\
    100 * vega = S ^ 2 * sigma * T * gamma.
Proof.
  intros S K T r sigma kind HS HK HT Hsig.
  assert (HK0 : val K <> 0) by lra.
  rewrite bs_gamma_value, bs_vega_ok by exact HK0.
  do 2 eexists. split; [reflexivity|]. split; [reflexivity|].
  pose proof (norm_pdf_pos (bs_d1 S K T r sigma)) as Hpdf.
  pose proof (sqrt_lt_R0 T HT) as Hsq.
  assert (Hsq2 : sqrt T * sqrt T = T) by (apply sqrt_sqrt; lra).
  split; [|split].
  - left. apply Rdiv_lt_0_compat; [exact Hpdf|].
    apply Rmult_lt_0_compat; [apply Rmult_lt_0_compat|]; assumption.
  - left. unfold Rdiv. apply Rmult_lt_0_compat; [|lra].
    apply Rmult_lt_0_compat; [apply Rmult_lt_0_compat|]; assumption.
  - set (q := sqrt T) in *. set (pdf := Np.norm_pdf _) in *.
    rewrite <- Hsq2. field. lra.
Qed.

Lemma black_scholes_vega_gamma_witness :
  exists gamma vega : R,
    BlackScholes.gamma
      (BlackScholes.__init__ (float 100) (float 100) (float 1) (float 0.05)
                             (float 0.2) "put") = Ok gamma /\
    BlackScholes.vega
      (BlackScholes.__init__ (float 100) (float 100) (float 1) (float 0.05)
                             (float 0.2) "put") = Ok vega /\
    100 * vega = 100 ^ 2 * 0.2 * 1 * gamma.
Proof.
  destruct (black_scholes_vega_gamma (float 100) (float 100) (float 1)
              (float 0.05) (float 0.2) "put")
    as (g & v & H1 & H2 & _ & _ & H3); [simpl; lra ..|].
  exists g, v. repeat split; assumption.
Defined.

(** X3.  For fixed positive strike, maturity and volatility, the delta of a
    call and the delta of a put do not decrease when the spot rises. *)
Theorem black_scholes_delta_monotone :
  forall (S1 S2 K T r sigma : scalar) kind,
  0 < S1 -> S1 <= S2 -> 0 < K -> 0 < T -> 0 < sigma ->
  exists d1 d2 : R,
    BlackScholes.delta (BlackScholes.__init__ S1 K T r sigma kind) = Ok d1 /\
    BlackScholes.delta (BlackScholes.__init__ S2 K T r sigma kind) = Ok d2 /\
    d1 <= d2.
Proof.
  intros S1 S2 K T r sigma kind HS1 HS HK HT Hsig.
  assert (HK0 : val K <> 0) by lra.
  rewrite !bs_delta_value by exact HK0.
  do 2 eexists. split; [reflexivity|]. split; [reflexivity|].
  assert (Hd : bs_d1 S1 K T r sigma <= bs_d1 S2 K T r sigma).
  { unfold bs_d1. unfold Rdiv at 1 3.
    apply Rmult_le_compat_r.
    - left. apply Rinv_0_lt_compat. apply Rmult_lt_0_compat; [exact Hsig|].
      apply sqrt_lt_R0. exact HT.
    - apply Rplus_le_compat_r.
      assert (Hq : 0 < S1 / K) by (apply Rdiv_lt_0_compat; lra).
      assert (Hle : S1 / K <= S2 / K).
      { unfold Rdiv. apply Rmult_le_compat_r; [|exact HS].
        left. apply Rinv_0_lt_compat. exact HK. }
      destruct Hle as [Hlt | Heq].
      + left. apply ln_increasing; assumption.
      + rewrite Heq. apply Rle_refl. }
  pose proof (norm_cdf_increasing _ _ Hd).
  destruct (lower kind =? "call")%string; lra.
Qed.

Lemma black_scholes_delta_monotone_witness :
  exists d1 d2 : R,
    BlackScholes.delta
      (BlackScholes.__init__ (float 90) (float 100) (float 1) (float 0.05)
                             (float 0.2) "call") = Ok d1 /\
    BlackScholes.delta
      (BlackScholes.__init__ (float 110) (float 100) (float 1) (float 0.05)
                             (float 0.2) "call") = Ok d2 /\
    d1 <= d2.
Proof.
  apply (black_scholes_delta_monotone (float 90) (float 110) (float 100)
           (float 1) (float 0.05) (float 0.2) "call"); simpl; lra.
Defined.

(** ** Option kinds and exercise styles are case-insensitive *)

Lemma ascii_lower_idempotent : forall c : ascii,
  ascii_lower (ascii_lower c) = ascii_lower c.
Proof.
  intro c. destruct c as [[] [] [] [] [] [] [] []]; reflexivity.
Qed.

Lemma lower_idempotent : forall s : string, lower (lower s) = lower s.
Proof.
  induction s as [|c s IH]; simpl; [reflexivity|].
  rewrite ascii_lower_idempotent, IH. reflexivity.
Qed.

(** X4.  The constructors of the three engines give the same engine for an
    option kind (and exercise style) and for its lower-case form: the
    strings are folded to lower case once, and folding a folded string
    changes nothing. *)
Theorem engines_fold_kind_once :
  forall (seeded_normals : Z -> nat -> R) (S K T r sigma : scalar)
         (N simulations : nat) (kind exercise : string) (seed : option Z)
         (g : Random.state),
  BlackScholes.__init__ S K T r sigma (lower kind)
  = BlackScholes.__init__ S K T r sigma kind /\
  BinomialTree.__init__ S K T r sigma N (lower kind) (lower exercise)
  = BinomialTree.__init__ S K T r sigma N kind exercise /\
  MonteCarlo.__init__ seeded_normals S K T r sigma simulations (lower kind)
                      seed g
  = MonteCarlo.__init__ seeded_normals S K T r sigma simulations kind seed g.
Proof.
  intros. unfold BlackScholes.__init__, BinomialTree.__init__,
            MonteCarlo.__init__.
  rewrite !lower_idempotent. repeat split; reflexivity.
Qed.

(** ** A strike of zero *)

(** X5.  With a strike of zero and a spot that is a Python float, the price,
    each of the five Greeks and the dictionary of Greeks all raise
    ZeroDivisionError, for every option kind, known or not: the division
    S / K comes before anything that looks at the kind. *)
Theorem black_scholes_zero_strike :
  forall (S T r sigma : scalar) (kind : string),
  is_numpy S = false ->
  let self := BlackScholes.__init__ S (float 0) T r sigma kind in
  BlackScholes.price self = Raise ZeroDivisionError /\
  BlackScholes.delta self = Raise ZeroDivisionError /\
  BlackScholes.gamma self = Raise ZeroDivisionError /\
  BlackScholes.vega self = Raise ZeroDivisionError /\
  BlackScholes.theta self = Raise ZeroDivisionError /\
  BlackScholes.rho self = Raise ZeroDivisionError /\
  BlackScholes.greeks self = Raise ZeroDivisionError.
Proof.
  intros S T r sigma kind HS self.
  assert (Hd : BlackScholes._calculate_d1_d2 self = Raise ZeroDivisionError)
    by (apply bs_d1_d2_zero_strike; exact HS).
  assert (Hdelta : BlackScholes.delta self = Raise ZeroDivisionError)
    by (unfold BlackScholes.delta; rewrite Hd; reflexivity).
  repeat split;
    try (unfold BlackScholes.price, BlackScholes.gamma, BlackScholes.vega,
         BlackScholes.theta, BlackScholes.rho; rewrite Hd; reflexivity).
  - exact Hdelta.
  - unfold BlackScholes.greeks. rewrite Hdelta. reflexivity.
Qed.

Lemma black_scholes_zero_strike_witness :
  BlackScholes.greeks
    (BlackScholes.__init__ (float 100) (float 0) (float 1) (float 0.05)
                           (float 0.2) "straddle")
  = Raise ZeroDivisionError.
Proof.
  destruct (black_scholes_zero_strike (float 100) (float 1) (float 0.05)
              (float 0.2) "straddle" eq_refl)
    as (_ & _ & _ & _ & _ & _ & H).
  exact H.
Defined.

(** ** The binomial lattice: the stock tree *)

Lemma stock_columns_outside : forall self n,
  let tree :=
    fold_left
      (fun stock_tree i =>
         fold_left (fun stock_tree j =>
                      Np.setitem stock_tree j i
                        (BinomialTree.S self * BinomialTree.u self ^ (i - j)
                         * BinomialTree.d self ^ j))
                   (seq 0 (i + 1)) stock_tree)
      (seq 0 n) Np.zeros in
  forall j i, (n <= i)%nat \/ (i < j)%nat -> tree j i = 0.
Proof.
  intros self n. induction n as [|n IH]; cbv zeta; intros j i H.
  - reflexivity.
  - rewrite seq_S, fold_left_app. simpl.
    match goal with
    | |- fold_left _ _ ?t j i = _ =>
        destruct (stock_column self n (n + 1) t) as [_ C2]
    end.
    rewrite C2 by lia. apply IH. lia.
Qed.

Lemma build_stock_tree_outside : forall self j i,
  (BinomialTree.steps self < i)%nat \/ (i < j)%nat ->
  BinomialTree._build_stock_tree self j i = 0.
Proof.
  intros self j i H. unfold BinomialTree._build_stock_tree.
  apply stock_columns_outside. lia.
Qed.

(** The engine [__init__] builds for a step count that is not zero. *)
Lemma binomial_init_ok :
  forall (S K T r sigma : scalar) (N : nat) (kind exercise : string),
  N <> 0%nat ->
  let dt := T / INR N in
  let u := exp (sigma * sqrt dt) in
  BinomialTree.__init__ S K T r sigma N kind exercise
  = Ok {| BinomialTree.S := S; BinomialTree.K := K; BinomialTree.T := T;
          BinomialTree.r := r; BinomialTree.sigma := sigma;
          BinomialTree.steps := N;
          BinomialTree.option_type := lower kind;
          BinomialTree.exercise := lower exercise;
          BinomialTree.dt := dt; BinomialTree.u := u;
          BinomialTree.d := 1 / u;
          BinomialTree.p := (exp (r * dt) - 1 / u) / (u - 1 / u);
          BinomialTree.discount := exp (- r * dt) |}.
Proof.
  intros S K T r sigma N kind exercise HN dt u.
  unfold BinomialTree.__init__. rewrite truediv_int_nonzero by exact HN.
  reflexivity.
Qed.

Lemma node_price_up : forall self j i, (j <= i)%nat ->
  node_price self j (i + 1) = BinomialTree.u self * node_price self j i.
Proof.
  intros self j i H. unfold node_price.
  replace (i + 1 - j)%nat with (S (i - j)) by lia. simpl. ring.
Qed.

Lemma node_price_down : forall self j i,
  node_price self (j + 1) (i + 1) = BinomialTree.d self * node_price self j i.
Proof.
  intros self j i. unfold node_price.
  replace (i + 1 - (j + 1))%nat with (i - j)%nat by lia.
  replace (j + 1)%nat with (S j) by lia. simpl. ring.
Qed.

Lemma node_price_root : forall self, node_price self 0 0 = BinomialTree.S self.
Proof. intro self. unfold node_price. simpl. ring. Qed.

(** X6.  The stock tree of an engine with N >= 1 steps holds S u^(i-j) d^j
    at node (j, i) for j <= i <= N, and zero everywhere else; its root is S,
    and it recombines: an up-move followed by a down-move returns to the
    price two columns back. *)
Theorem stock_tree_shape :
  forall (S K T r sigma : scalar) (N : nat) (kind exercise : string),
  N <> 0%nat ->
  exists self,
    BinomialTree.__init__ S K T r sigma N kind exercise = Ok self /\
    let tree := BinomialTree._build_stock_tree self in
    (forall j i, (j <= i <= N)%nat ->
       tree j i = S * BinomialTree.u self ^ (i - j) * BinomialTree.d self ^ j) /\
    (forall j i, (N < i)%nat \/ (i < j)%nat -> tree j i = 0) /\
    tree 0%nat 0%nat = S /\
    (forall j i, (j <= i)%nat -> (i + 2 <= N)%nat ->
       tree (j + 1)%nat (i + 2)%nat = tree j i).
Proof.
  intros S K T r sigma N kind exercise HN.
  rewrite binomial_init_ok by exact HN. eexists. split; [reflexivity|].
  cbv zeta. split; [|split; [|split]].
  - intros j i H. rewrite build_stock_tree_node by (simpl; lia). reflexivity.
  - intros j i H. apply build_stock_tree_outside. simpl. lia.
  - rewrite build_stock_tree_node by (simpl; lia). apply node_price_root.
  - intros j i Hj Hi.
    rewrite !build_stock_tree_node by (simpl; lia).
    replace (i + 2)%nat with (i + 1 + 1)%nat by lia.
    rewrite node_price_down, node_price_up by lia.
    cbn [BinomialTree.u BinomialTree.d].
    set (u := exp _). assert (Hu : 0 < u) by apply exp_pos.
    field. lra.
Qed.

Lemma stock_tree_shape_witness :
  exists self,
    BinomialTree.__init__ (float 100) (float 100) (float 1) (float 0.05)
                          (float 0.2) 100 "call" "european" = Ok self /\
    BinomialTree._build_stock_tree self 0%nat 0%nat = 100.
Proof.
  destruct (stock_tree_shape (float 100) (float 100) (float 1) (float 0.05)
              (float 0.2) 100 "call" "european" ltac:(discriminate))
    as (self & Hinit & _ & _ & Hroot & _).
  exists self. split; [exact Hinit | exact Hroot].
Defined.

(** ** The binomial lattice: the trees of [get_tree] *)

Section Trees.

Variable self : BinomialTree.BinomialTreeModel.

Hypothesis kind_valid :
  BinomialTree.option_type self = "call"%string
  \/ BinomialTree.option_type self = "put"%string.

Lemma get_tree_as_folds :
  BinomialGreeks.get_tree self
  = Ok ({| Indexed.shape0 := BinomialTree.steps self + 1;
           Indexed.shape1 := BinomialTree.steps self + 1;
           Indexed.data := BinomialTree._build_stock_tree self |},
        {| Indexed.shape0 := BinomialTree.steps self + 1;
           Indexed.shape1 := BinomialTree.steps self + 1;
           Indexed.data :=
             fold_left (backward_column self)
                       (rev (seq 0 (BinomialTree.steps self)))
                       (fold_left (terminal_node self)
                                  (seq 0 (BinomialTree.steps self + 1))
                                  Np.zeros) |}).
Proof.
  unfold BinomialGreeks.get_tree. cbv zeta.
  rewrite (for_each_pure _ _ _ (terminal_node self)).
  2:{ intros a x. rewrite calculate_option_value_valid by exact kind_valid.
      reflexivity. }
  cbn [Py.bind].
  rewrite (for_each_pure _ _ _ (backward_column self)).
  2:{ intros a i. unfold backward_column.
      apply for_each_pure. intros a' j.
      apply induction_node_pure. exact kind_valid. }
  reflexivity.
Qed.

Lemma get_tree_lattice :
  exists stock_tree option_tree,
    BinomialGreeks.get_tree self = Ok (stock_tree, option_tree) /\
    Indexed.shape0 stock_tree = (BinomialTree.steps self + 1)%nat /\
    Indexed.shape1 stock_tree = (BinomialTree.steps self + 1)%nat /\
    Indexed.shape0 option_tree = (BinomialTree.steps self + 1)%nat /\
    Indexed.shape1 option_tree = (BinomialTree.steps self + 1)%nat /\
    (forall j i, (j <= i <= BinomialTree.steps self)%nat ->
       Indexed.data stock_tree j i = node_price self j i /\
       Indexed.data option_tree j i
       = lattice_value self (BinomialTree.steps self - i) j i).
Proof.
  rewrite get_tree_as_folds. eexists. eexists.
  split; [reflexivity|]. cbn [Indexed.shape0 Indexed.shape1 Indexed.data].
  repeat (split; [reflexivity|]).
  intros j i H. split.
  - apply build_stock_tree_node. lia.
  - apply (backward_columns_done self (BinomialTree.steps self) _
             (le_n _) (terminal_column_done self)); lia.
Qed.

Lemma getitem_inside : forall (a : Indexed.array2) j i,
  (j < Indexed.shape0 a)%nat -> (i < Indexed.shape1 a)%nat ->
  Indexed.getitem a j i = Indexed.Ok (Indexed.data a j i).
Proof.
  intros a j i Hj Hi. unfold Indexed.getitem.
  destruct (Nat.leb_spec (Indexed.shape0 a) j); [lia|].
  destruct (Nat.leb_spec (Indexed.shape1 a) i); [lia|]. reflexivity.
Qed.

(** [delta] in terms of the lattice. *)
Lemma binomial_delta_lattice :
  (1 <= BinomialTree.steps self)%nat ->
  BinomialGreeks.delta self
  = Indexed.Ok
      ((lattice_value self (BinomialTree.steps self - 1) 0 1
        - lattice_value self (BinomialTree.steps self - 1) 1 1)
       / (node_price self 0 1 - node_price self 1 1)).
Proof.
  intro HN. unfold BinomialGreeks.delta.
  destruct get_tree_lattice as (st & ot & -> & Hs0 & Hs1 & Ho0 & Ho1 & Hnode).
  cbn [Indexed.lift Indexed.bind].
  rewrite !getitem_inside by lia. cbn [Indexed.bind].
  destruct (Hnode 0%nat 1%nat ltac:(lia)) as [-> ->].
  destruct (Hnode 1%nat 1%nat ltac:(lia)) as [-> ->].
  reflexivity.
Qed.

(** [gamma] in terms of the lattice. *)
Lemma binomial_gamma_lattice :
  (2 <= BinomialTree.steps self)%nat ->
  let V := lattice_value self (BinomialTree.steps self - 2) in
  let s := node_price self in
  BinomialGreeks.gamma self
  = Indexed.Ok
      (((V 0%nat 2%nat - V 1%nat 2%nat) / (s 0%nat 2%nat - s 1%nat 2%nat)
        - (V 1%nat 2%nat - V 2%nat 2%nat) / (s 1%nat 2%nat - s 2%nat 2%nat))
       / ((s 0%nat 2%nat - s 2%nat 2%nat) / 2)).
Proof.
  intros HN V s. unfold BinomialGreeks.gamma.
  destruct get_tree_lattice as (st & ot & -> & Hs0 & Hs1 & Ho0 & Ho1 & Hnode).
  cbn [Indexed.lift Indexed.bind].
  rewrite !getitem_inside by lia. cbn [Indexed.bind].
  destruct (Hnode 0%nat 2%nat ltac:(lia)) as [-> ->].
  destruct (Hnode 1%nat 2%nat ltac:(lia)) as [-> ->].
  destruct (Hnode 2%nat 2%nat ltac:(lia)) as [-> ->].
  reflexivity.
Qed.

Lemma binomial_gamma_one_step :
  BinomialTree.steps self = 1%nat ->
  BinomialGreeks.gamma self = Indexed.Raise (Indexed.IndexError 2 1 2).
Proof.
  intro HN. unfold BinomialGreeks.gamma.
  destruct get_tree_lattice as (st & ot & -> & Hs0 & Hs1 & Ho0 & Ho1 & Hnode).
  cbn [Indexed.lift Indexed.bind].
  unfold Indexed.getitem at 1. rewrite Ho0, Ho1, HN. reflexivity.
Qed.

End Trees.

(** ** The binomial lattice: the parameters [__init__] computes *)

Lemma exp_pow : forall x n, exp x ^ n = exp (INR n * x).
Proof.
  intros x n. induction n as [|n IH].
  - simpl. rewrite Rmult_0_l, exp_0. reflexivity.
  - rewrite S_INR. simpl pow. rewrite IH, <- exp_plus. f_equal. ring.
Qed.

(** For a positive maturity and volatility the up-factor exceeds the
    down-factor, and the discounted one-step expectation of the stock price
    is the stock price. *)
Lemma lattice_parameters : forall (T r sigma : R) (N : nat),
  0 < T -> 0 < sigma -> (1 <= N)%nat ->
  let dt := T / INR N in
  let u := exp (sigma * sqrt dt) in
  let d := 1 / u in
  let p := (exp (r * dt) - d) / (u - d) in
  let discount := exp (- r * dt) in
  0 < d /\ d < u /\
  discount * (p * u + (1 - p) * d) = 1 /\
  0 < discount /\
  discount ^ N = exp (- r * T).
Proof.
  intros T r sigma N HT Hsig HN dt u d p discount.
  assert (HN' : 0 < INR N) by (apply lt_0_INR; lia).
  assert (Hdt : 0 < dt) by (apply Rdiv_lt_0_compat; assumption).
  assert (Ha : 0 < sigma * sqrt dt).
  { apply Rmult_lt_0_compat; [exact Hsig|]. apply sqrt_lt_R0. exact Hdt. }
  assert (Hu : 0 < u) by apply exp_pos.
  assert (Hd : d = exp (- (sigma * sqrt dt))).
  { unfold d, u. rewrite exp_Ropp. field. apply Rgt_not_eq, exp_pos. }
  assert (Hdu : d < u).
  { rewrite Hd. unfold u. apply exp_increasing. lra. }
  assert (Hd0 : 0 < d) by (rewrite Hd; apply exp_pos).
  split; [exact Hd0|]. split; [exact Hdu|]. split; [|split].
  - assert (Hp : p * u + (1 - p) * d = exp (r * dt)).
    { unfold p. field. lra. }
    rewrite Hp. unfold discount. rewrite <- exp_plus.
    replace (- r * dt + r * dt) with 0 by ring. apply exp_0.
  - apply exp_pos.
  - unfold discount. rewrite exp_pow. f_equal. unfold dt. field. lra.
Qed.

(** ** The binomial lattice: put-call parity *)

Section LatticeParity.

Variables call put : BinomialTree.BinomialTreeModel.

Hypothesis same_S : BinomialTree.S call = BinomialTree.S put.
Hypothesis same_K : BinomialTree.K call = BinomialTree.K put.
Hypothesis same_u : BinomialTree.u call = BinomialTree.u put.
Hypothesis same_d : BinomialTree.d call = BinomialTree.d put.
Hypothesis same_p : BinomialTree.p call = BinomialTree.p put.
Hypothesis same_discount :
  BinomialTree.discount call = BinomialTree.discount put.
Hypothesis is_call : BinomialTree.option_type call = "call"%string.
Hypothesis is_put : BinomialTree.option_type put = "put"%string.
Hypothesis european_call : BinomialTree.exercise call = "european"%string.
Hypothesis european_put : BinomialTree.exercise put = "european"%string.
Hypothesis martingale :
  BinomialTree.discount call
  * (BinomialTree.p call * BinomialTree.u call
     + (1 - BinomialTree.p call) * BinomialTree.d call) = 1.



End LatticeParity.



(** ** The binomial lattice: bounds on prices and on delta *)

Lemma call_payoff_gap : forall K a b : R, b <= a ->
  0 <= Rmax 0 (a - K) - Rmax 0 (b - K) <= a - b.
Proof.
  intros K a b H. unfold Rmax.
  destruct (Rle_dec 0 (a - K)); destruct (Rle_dec 0 (b - K)); lra.
Qed.

Lemma put_payoff_gap : forall K a b : R, b <= a ->
  0 <= Rmax 0 (K - b) - Rmax 0 (K - a) <= a - b.
Proof.
  intros K a b H. unfold Rmax.
  destruct (Rle_dec 0 (K - a)); destruct (Rle_dec 0 (K - b)); lra.
Qed.

Lemma Rmax_gap : forall a b c d g : R,
  0 <= a - b <= g -> 0 <= c - d <= g -> 0 <= Rmax a c - Rmax b d <= g.
Proof.
  intros a b c d g H1 H2. unfold Rmax.
  destruct (Rle_dec a c); destruct (Rle_dec b d); lra.
Qed.

Section LatticeBounds.

Variable self : BinomialTree.BinomialTreeModel.

Hypothesis spot_nonneg : 0 <= BinomialTree.S self.
Hypothesis down_nonneg : 0 <= BinomialTree.d self.
Hypothesis down_le_up : BinomialTree.d self <= BinomialTree.u self.
Hypothesis probability : 0 <= BinomialTree.p self <= 1.
Hypothesis discount_nonneg : 0 <= BinomialTree.discount self.
Hypothesis martingale :
  BinomialTree.discount self
  * (BinomialTree.p self * BinomialTree.u self
     + (1 - BinomialTree.p self) * BinomialTree.d self) = 1.

Lemma node_price_nonneg : forall j i, 0 <= node_price self j i.
Proof.
  intros j i. unfold node_price.
  apply Rmult_le_pos; [apply Rmult_le_pos|].
  - exact spot_nonneg.
  - apply pow_le. lra.
  - apply pow_le. exact down_nonneg.
Qed.

Lemma exercise_payoff_nonneg : forall s, 0 <= exercise_payoff self s.
Proof.
  intro s. unfold exercise_payoff.
  destruct (BinomialTree.option_type self =? "call")%string; apply Rmax_l.
Qed.

Lemma continuation_nonneg : forall a b, 0 <= a -> 0 <= b ->
  0 <= continuation self a b.
Proof.
  intros a b Ha Hb. unfold continuation.
  apply Rmult_le_pos; [exact discount_nonneg|].
  apply Rplus_le_le_0_compat; apply Rmult_le_pos; lra.
Qed.

Lemma continuation_le : forall a b a' b', a <= a' -> b <= b' ->
  continuation self a b <= continuation self a' b'.
Proof.
  intros a b a' b' Ha Hb. unfold continuation.
  apply Rmult_le_compat_l; [exact discount_nonneg|].
  apply Rplus_le_compat; apply Rmult_le_compat_l; lra.
Qed.

Lemma continuation_of_node : forall n,
  continuation self (BinomialTree.u self * n) (BinomialTree.d self * n) = n.
Proof.
  intro n. unfold continuation.
  transitivity
    (BinomialTree.discount self
     * (BinomialTree.p self * BinomialTree.u self
        + (1 - BinomialTree.p self) * BinomialTree.d self) * n); [ring|].
  rewrite martingale. ring.
Qed.

Lemma lattice_value_nonneg : forall depth j i,
  0 <= lattice_value self depth j i.
Proof.
  induction depth as [|depth IH]; intros j i; cbn [lattice_value].
  - apply exercise_payoff_nonneg.
  - pose proof (continuation_nonneg _ _ (IH j (i + 1)%nat)
                  (IH (j + 1)%nat (i + 1)%nat)) as Hc.
    destruct (BinomialTree.exercise self =? "american")%string; [|exact Hc].
    eapply Rle_trans; [exact Hc | apply Rmax_l].
Qed.

Lemma call_value_le_node :
  BinomialTree.option_type self = "call"%string ->
  0 <= BinomialTree.K self ->
  forall depth j i, (j <= i)%nat ->
    lattice_value self depth j i <= node_price self j i.
Proof.
  intros Hcall HK.
  assert (Hpay : forall j i,
            exercise_payoff self (node_price self j i) <= node_price self j i).
  { intros j i. unfold exercise_payoff. rewrite Hcall. simpl String.eqb.
    cbv iota. pose proof (node_price_nonneg j i).
    apply Rmax_lub; lra. }
  induction depth as [|depth IH]; intros j i Hj; cbn [lattice_value].
  - apply Hpay.
  - assert (Hc : continuation self (lattice_value self depth j (i + 1))
                   (lattice_value self depth (j + 1) (i + 1))
                 <= node_price self j i).
    { rewrite <- (continuation_of_node (node_price self j i)).
      apply continuation_le.
      - rewrite <- node_price_up by exact Hj. apply IH. lia.
      - rewrite <- node_price_down. apply IH. lia. }
    destruct (BinomialTree.exercise self =? "american")%string; [|exact Hc].
    apply Rmax_lub; [exact Hc | apply Hpay].
Qed.

Lemma put_value_le_strike :
  BinomialTree.option_type self = "put"%string ->
  0 <= BinomialTree.K self ->
  BinomialTree.discount self <= 1 ->
  forall depth j i, lattice_value self depth j i <= BinomialTree.K self.
Proof.
  intros Hput HK Hdisc.
  assert (Hpay : forall j i,
            exercise_payoff self (node_price self j i) <= BinomialTree.K self).
  { intros j i. unfold exercise_payoff. rewrite Hput. simpl String.eqb.
    cbv iota. pose proof (node_price_nonneg j i).
    apply Rmax_lub; lra. }
  induction depth as [|depth IH]; intros j i; cbn [lattice_value].
  - apply Hpay.
  - assert (Hc : continuation self (lattice_value self depth j (i + 1))
                   (lattice_value self depth (j + 1) (i + 1))
                 <= BinomialTree.K self).
    { eapply Rle_trans.
      - apply continuation_le; apply IH.
      - unfold continuation.
        set (k := Py.val (BinomialTree.K self)) in *.
        replace (BinomialTree.p self * k + (1 - BinomialTree.p self) * k)
          with k by ring.
        rewrite <- (Rmult_1_l k) at 2.
        apply Rmult_le_compat_r; assumption. }
    destruct (BinomialTree.exercise self =? "american")%string; [|exact Hc].
    apply Rmax_lub; [exact Hc | apply Hpay].
Qed.

(** The gap between two neighbouring nodes of a column. *)
Lemma node_gap_nonneg : forall j i, (j + 1 <= i)%nat ->
  0 <= node_price self j i - node_price self (j + 1) i.
Proof.
  intros j i Hj. destruct i as [|i]; [lia|].
  replace (S i) with (i + 1)%nat by lia.
  rewrite node_price_up by lia. rewrite node_price_down.
  pose proof (node_price_nonneg j i) as Hn.
  replace (BinomialTree.u self * node_price self j i
           - BinomialTree.d self * node_price self j i)
    with ((BinomialTree.u self - BinomialTree.d self) * node_price self j i)
    by ring.
  apply Rmult_le_pos; lra.
Qed.

Lemma continuation_gap : forall x y z g,
  0 <= g ->
  0 <= x - y <= BinomialTree.u self * g ->
  0 <= y - z <= BinomialTree.d self * g ->
  0 <= continuation self x y - continuation self y z <= g.
Proof.
  intros x y z g Hg H1 H2.
  replace (continuation self x y - continuation self y z)
    with (continuation self (x - y) (y - z))
    by (unfold continuation; ring).
  split.
  - apply continuation_nonneg; lra.
  - rewrite <- (continuation_of_node g).
    apply continuation_le; lra.
Qed.

Lemma call_value_gap :
  BinomialTree.option_type self = "call"%string ->
  forall depth j i, (j + 1 <= i)%nat ->
    0 <= lattice_value self depth j i - lattice_value self depth (j + 1) i
      <= node_price self j i - node_price self (j + 1) i.
Proof.
  intro Hcall.
  assert (Hpay : forall j i, (j + 1 <= i)%nat ->
            0 <= exercise_payoff self (node_price self j i)
                 - exercise_payoff self (node_price self (j + 1) i)
              <= node_price self j i - node_price self (j + 1) i).
  { intros j i Hj. unfold exercise_payoff. rewrite Hcall. simpl String.eqb.
    cbv iota. apply call_payoff_gap.
    pose proof (node_gap_nonneg j i Hj). lra. }
  induction depth as [|depth IH]; intros j i Hj; cbn [lattice_value].
  - apply Hpay. exact Hj.
  - pose proof (node_gap_nonneg j i Hj) as Hg.
    pose proof (IH j (i + 1)%nat ltac:(lia)) as H1.
    pose proof (IH (j + 1)%nat (i + 1)%nat ltac:(lia)) as H2.
    rewrite (node_price_up self j i) in H1 by lia.
    rewrite (node_price_up self (j + 1) i) in H1 by lia.
    rewrite !node_price_down in H2.
    assert (Hc := continuation_gap
                    (lattice_value self depth j (i + 1))
                    (lattice_value self depth (j + 1) (i + 1))
                    (lattice_value self depth (j + 1 + 1) (i + 1))
                    (node_price self j i - node_price self (j + 1) i)
                    Hg ltac:(lra) ltac:(lra)).
    destruct (BinomialTree.exercise self =? "american")%string; [|exact Hc].
    apply Rmax_gap; [exact Hc | apply Hpay; exact Hj].
Qed.

Lemma put_value_gap :
  BinomialTree.option_type self = "put"%string ->
  forall depth j i, (j + 1 <= i)%nat ->
    0 <= lattice_value self depth (j + 1) i - lattice_value self depth j i
      <= node_price self j i - node_price self (j + 1) i.
Proof.
  intro Hput.
  assert (Hpay : forall j i, (j + 1 <= i)%nat ->
            0 <= exercise_payoff self (node_price self (j + 1) i)
                 - exercise_payoff self (node_price self j i)
              <= node_price self j i - node_price self (j + 1) i).
  { intros j i Hj. unfold exercise_payoff. rewrite Hput. simpl String.eqb.
    cbv iota. apply put_payoff_gap.
    pose proof (node_gap_nonneg j i Hj). lra. }
  induction depth as [|depth IH]; intros j i Hj; cbn [lattice_value].
  - apply Hpay. exact Hj.
  - pose proof (node_gap_nonneg j i Hj) as Hg.
    pose proof (IH j (i + 1)%nat ltac:(lia)) as H1.
    pose proof (IH (j + 1)%nat (i + 1)%nat ltac:(lia)) as H2.
    rewrite (node_price_up self j i) in H1 by lia.
    rewrite (node_price_up self (j + 1) i) in H1 by lia.
    rewrite !node_price_down in H2.
    assert (Hc := continuation_gap
                    (- lattice_value self depth j (i + 1))
                    (- lattice_value self depth (j + 1) (i + 1))
                    (- lattice_value self depth (j + 1 + 1) (i + 1))
                    (node_price self j i - node_price self (j + 1) i)
                    Hg ltac:(lra) ltac:(lra)).
    replace (continuation self (- lattice_value self depth j (i + 1))
               (- lattice_value self depth (j + 1) (i + 1))
             - continuation self (- lattice_value self depth (j + 1) (i + 1))
                 (- lattice_value self depth (j + 1 + 1) (i + 1)))
      with (continuation self (lattice_value self depth (j + 1) (i + 1))
              (lattice_value self depth (j + 1 + 1) (i + 1))
            - continuation self (lattice_value self depth j (i + 1))
                (lattice_value self depth (j + 1) (i + 1))) in Hc
      by (unfold continuation; ring).
    destruct (BinomialTree.exercise self =? "american")%string; [|exact Hc].
    apply Rmax_gap; [exact Hc | apply Hpay; exact Hj].
Qed.

End LatticeBounds.

Lemma node_gap_eq : forall self j i, (j <= i)%nat ->
  node_price self j (i + 1) - node_price self (j + 1) (i + 1)
  = (BinomialTree.u self - BinomialTree.d self) * node_price self j i.
Proof.
  intros self j i Hj. rewrite node_price_up by exact Hj.
  rewrite node_price_down. ring.
Qed.




Lemma discount_le_1 : forall r dt : R, 0 <= r -> 0 <= dt ->
  exp (- r * dt) <= 1.
Proof.
  intros r dt Hr Hdt.
  assert (H : - r * dt <= 0).
  { replace (- r * dt) with (- (r * dt)) by ring.
    pose proof (Rmult_le_pos r dt Hr Hdt). lra. }
  destruct H as [H | H].
  - left. rewrite <- exp_0. apply exp_increasing. exact H.
  - rewrite H, exp_0. apply Rle_refl.
Qed.

(** X9.  With a non-negative spot and strike, a positive maturity and
    volatility, N >= 1 steps and a one-step drift within the one-step
    volatility, |r| dt <= sigma sqrt(dt), the binomial prices are bounded for
    either exercise style: the call lies between 0 and the spot, the put is
    non-negative, and for a non-negative rate the put is at most the
    strike. *)
Theorem binomial_price_bounds :
  forall (S K T r sigma : scalar) (N : nat) (exercise : string),
  0 <= S -> 0 <= K -> 0 < T -> 0 < sigma -> (1 <= N)%nat ->
  Rabs (r * (T / INR N)) <= sigma * sqrt (T / INR N) ->
  exists call put c p,
    BinomialTree.__init__ S K T r sigma N "call" exercise = Ok call /\
    BinomialTree.__init__ S K T r sigma N "put" exercise = Ok put /\
    BinomialTree.price call = Ok c /\
    BinomialTree.price put = Ok p /\
    0 <= c <= S /\ 0 <= p /\ (0 <= r -> p <= K).
Proof.
  intros S K T r sigma N exercise HS HK HT Hsig HN Hdrift.
  rewrite !binomial_init_ok by lia.
  change (lower "call") with "call"%string.
  change (lower "put") with "put"%string.
  destruct (lattice_parameters T r sigma N HT Hsig HN)
    as (Hd0 & Hdu & Hmart & Hdisc & Hpow).
  assert (Hdt : 0 < T / INR N).
  { apply Rdiv_lt_0_compat; [exact HT|]. apply lt_0_INR. lia. }
  assert (Hp : 0 <= (exp (r * (T / INR N)) - 1 / exp (sigma * sqrt (T / INR N)))
                    / (exp (sigma * sqrt (T / INR N))
                       - 1 / exp (sigma * sqrt (T / INR N))) <= 1).
  { apply risk_neutral_probability_range; [|exact Hdrift].
    apply Rmult_lt_0_compat; [exact Hsig|]. apply sqrt_lt_R0. exact Hdt. }
  eexists; eexists; eexists; eexists.
  split; [reflexivity|]. split; [reflexivity|].
  split; [apply binomial_price_lattice; left; reflexivity|].
  split; [apply binomial_price_lattice; right; reflexivity|].
  cbn [BinomialTree.steps]. split; [split|split].
  - apply lattice_value_nonneg; cbn; lra.
  - eapply Rle_trans.
    + apply call_value_le_node; cbn; try lra; try reflexivity; try lia.
    + rewrite node_price_root. apply Rle_refl.
  - apply lattice_value_nonneg; cbn; lra.
  - intro Hr.
    match goal with
    | |- lattice_value ?m _ _ _ <= _ =>
        apply (put_value_le_strike m); cbn; try lra; try reflexivity
    end.
    apply discount_le_1; lra.
Qed.

Lemma binomial_price_bounds_witness :
  exists call put c p,
    BinomialTree.__init__ (float 100) (float 100) (float 2) (float 0.05)
                          (float 0.2) 2 "call" "american" = Ok call /\
    BinomialTree.__init__ (float 100) (float 100) (float 2) (float 0.05)
                          (float 0.2) 2 "put" "american" = Ok put /\
    BinomialTree.price call = Ok c /\
    BinomialTree.price put = Ok p /\
    0 <= c <= 100 /\ 0 <= p /\ (0 <= 0.05 -> p <= 100).
Proof.
  apply (binomial_price_bounds (float 100) (float 100) (float 2)
           (float 0.05) (float 0.2) 2 "american"); simpl; try lra; try lia.
  replace (2 / (1 + 1)) with 1 by lra. rewrite sqrt_1.
  rewrite Rabs_right; lra.
Defined.

(** ** The binomial lattice: the trees and the lattice Greeks *)

Lemma get_tree_unknown_kind : forall self,
  BinomialTree.option_type self <> "call"%string ->
  BinomialTree.option_type self <> "put"%string ->
  BinomialGreeks.get_tree self = Raise kind_error.
Proof.
  intros self Hc Hp. unfold BinomialGreeks.get_tree.
  rewrite Nat.add_1_r. cbn [seq for_each].
  unfold BinomialTree._calculate_option_value at 1.
  apply String.eqb_neq in Hc, Hp. rewrite Hc, Hp. reflexivity.
Qed.

Lemma kind_valid_dec : forall kind : string,
  {kind = "call"%string \/ kind = "put"%string}
  + {kind <> "call"%string /\ kind <> "put"%string}.
Proof.
  intro kind.
  destruct (string_dec kind "call") as [Hc | Hc]; [left; left; exact Hc|].
  destruct (string_dec kind "put") as [Hp | Hp]; [left; right; exact Hp|].
  right. split; assumption.
Qed.

(** X10.  The root of the option tree [get_tree] returns is what [price]
    returns, for every engine: both succeed with the same value, or both
    raise the same exception.  On success both trees have shape
    (steps + 1, steps + 1), the stock tree holds S u^(i-j) d^j and the
    option tree the backward-induction value at every node j <= i <= steps. *)
Theorem get_tree_agrees_with_price :
  forall self : BinomialTree.BinomialTreeModel,
  (' (stock_tree, option_tree) <-- Indexed.lift (BinomialGreeks.get_tree self) ;;
   Indexed.getitem option_tree 0 0)%py
  = Indexed.lift (BinomialTree.price self) /\
  forall stock_tree option_tree,
    BinomialGreeks.get_tree self = Ok (stock_tree, option_tree) ->
    Indexed.shape0 stock_tree = (BinomialTree.steps self + 1)%nat /\
    Indexed.shape1 stock_tree = (BinomialTree.steps self + 1)%nat /\
    Indexed.shape0 option_tree = (BinomialTree.steps self + 1)%nat /\
    Indexed.shape1 option_tree = (BinomialTree.steps self + 1)%nat /\
    (forall j i, (j <= i <= BinomialTree.steps self)%nat ->
       Indexed.getitem stock_tree j i
       = Indexed.Ok (BinomialTree.S self * BinomialTree.u self ^ (i - j)
                     * BinomialTree.d self ^ j) /\
       Indexed.getitem option_tree j i
       = Indexed.Ok (lattice_value self (BinomialTree.steps self - i) j i)).
Proof.
  intro self.
  destruct (kind_valid_dec (BinomialTree.option_type self)) as [Hk | [Hc Hp]].
  - destruct (get_tree_lattice self Hk)
      as (st & ot & Ht & Hs0 & Hs1 & Ho0 & Ho1 & Hnode).
    split.
    + rewrite Ht, (binomial_price_lattice self Hk).
      cbn [Indexed.lift Indexed.bind].
      rewrite getitem_inside by lia.
      destruct (Hnode 0%nat 0%nat ltac:(lia)) as [_ ->].
      rewrite Nat.sub_0_r. reflexivity.
    + intros st' ot' Ht'. rewrite Ht in Ht'.
      injection Ht' as <- <-.
      repeat (split; [assumption|]).
      intros j i Hji. rewrite !getitem_inside by lia.
      destruct (Hnode j i Hji) as [-> ->]. split; reflexivity.
  - split.
    + rewrite get_tree_unknown_kind, binomial_price_unknown_kind by assumption.
      reflexivity.
    + intros st ot Ht.
      rewrite get_tree_unknown_kind in Ht by assumption. discriminate.
Qed.

Lemma get_tree_agrees_with_price_witness :
  exists self,
    BinomialTree.__init__ (float 100) (float 100) (float 1) (float 0.05)
                          (float 0.2) 2 "put" "american" = Ok self /\
    (' (stock_tree, option_tree) <--
       Indexed.lift (BinomialGreeks.get_tree self) ;;
     Indexed.getitem option_tree 0 0)%py
    = Indexed.lift (BinomialTree.price self).
Proof.
  eexists. split.
  - apply binomial_init_ok. discriminate.
  - apply get_tree_agrees_with_price.
Defined.

(** X11.  The lattice Greeks of an engine with N >= 1 steps on a call or a
    put: [delta] returns a value; [gamma] returns a value when N >= 2, and
    for N = 1 it raises IndexError, index 2 being out of bounds for axis 1
    of size 2.  For any other kind both raise the ValueError of the payoff,
    also for N = 1. *)
Theorem lattice_greeks_need_two_steps :
  forall (S K T r sigma : scalar) (N : nat) (kind exercise : string),
  (1 <= N)%nat ->
  exists self,
    BinomialTree.__init__ S K T r sigma N kind exercise = Ok self /\
    (lower kind = "call"%string \/ lower kind = "put"%string ->
     (exists delta, BinomialGreeks.delta self = Indexed.Ok delta) /\
     (N = 1%nat ->
      BinomialGreeks.gamma self = Indexed.Raise (Indexed.IndexError 2 1 2)) /\
     ((2 <= N)%nat ->
      exists gamma, BinomialGreeks.gamma self = Indexed.Ok gamma)) /\
    (lower kind <> "call"%string -> lower kind <> "put"%string ->
     BinomialGreeks.delta self = Indexed.Raise (Indexed.Raised kind_error) /\
     BinomialGreeks.gamma self = Indexed.Raise (Indexed.Raised kind_error)).
Proof.
  intros S K T r sigma N kind exercise HN.
  rewrite binomial_init_ok by lia. eexists. split; [reflexivity|].
  split.
  - intro Hk. split; [|split].
    + eexists. apply binomial_delta_lattice; [exact Hk | exact HN].
    + intro H1. apply binomial_gamma_one_step; [exact Hk | exact H1].
    + intro H2. eexists. apply binomial_gamma_lattice; [exact Hk | exact H2].
  - intros Hc Hp.
    unfold BinomialGreeks.delta, BinomialGreeks.gamma.
    rewrite get_tree_unknown_kind by assumption. split; reflexivity.
Qed.

Lemma lattice_greeks_need_two_steps_witness :
  exists self,
    BinomialTree.__init__ (float 100) (float 100) (float 1) (float 0.05)
                          (float 0.2) 1 "call" "european" = Ok self /\
    (exists delta, BinomialGreeks.delta self = Indexed.Ok delta) /\
    BinomialGreeks.gamma self = Indexed.Raise (Indexed.IndexError 2 1 2).
Proof.
  destruct (lattice_greeks_need_two_steps (float 100) (float 100) (float 1)
              (float 0.05) (float 0.2) 1 "call" "european" ltac:(lia))
    as (self & Hinit & Hvalid & _).
  destruct (Hvalid ltac:(left; reflexivity)) as (Hdelta & Hgamma & _).
  exists self. split; [exact Hinit|]. split; [exact Hdelta|].
  apply Hgamma. reflexivity.
Defined.






Lemma ratio_unit : forall x g : R, 0 < g -> 0 <= x <= g -> 0 <= x / g <= 1.
Proof.
  intros x g Hg Hx. split.
  - apply Rmult_le_pos; [lra|]. left. apply Rinv_0_lt_compat. exact Hg.
  - apply (Rmult_le_reg_r g); [exact Hg|].
    unfold Rdiv. rewrite Rmult_assoc, Rinv_l by lra. lra.
Qed.

(** X13.  With a positive spot, maturity and volatility, N >= 1 steps and a
    one-step drift within the one-step volatility, the lattice delta of a
    call lies in [0, 1] and that of a put in [-1, 0], for either exercise
    style and any strike. *)
Theorem lattice_delta_range :
  forall (S K T r sigma : scalar) (N : nat) (exercise : string),
  0 < S -> 0 < T -> 0 < sigma -> (1 <= N)%nat ->
  Rabs (r * (T / INR N)) <= sigma * sqrt (T / INR N) ->
  exists call put delta_call delta_put,
    BinomialTree.__init__ S K T r sigma N "call" exercise = Ok call /\
    BinomialTree.__init__ S K T r sigma N "put" exercise = Ok put /\
    BinomialGreeks.delta call = Indexed.Ok delta_call /\
    BinomialGreeks.delta put = Indexed.Ok delta_put /\
    0 <= delta_call <= 1 /\ -1 <= delta_put <= 0.
Proof.
  intros S K T r sigma N exercise HS HT Hsig HN Hdrift.
  rewrite !binomial_init_ok by lia.
  change (lower "call") with "call"%string.
  change (lower "put") with "put"%string.
  destruct (lattice_parameters T r sigma N HT Hsig HN)
    as (Hd0 & Hdu & Hmart & Hdisc & Hpow).
  assert (Hdt : 0 < T / INR N).
  { apply Rdiv_lt_0_compat; [exact HT|]. apply lt_0_INR. lia. }
  assert (Hp : 0 <= (exp (r * (T / INR N)) - 1 / exp (sigma * sqrt (T / INR N)))
                    / (exp (sigma * sqrt (T / INR N))
                       - 1 / exp (sigma * sqrt (T / INR N))) <= 1).
  { apply risk_neutral_probability_range; [|exact Hdrift].
    apply Rmult_lt_0_compat; [exact Hsig|]. apply sqrt_lt_R0. exact Hdt. }
  match goal with
  | |- exists call put _ _, Ok ?mc = Ok call /\ Ok ?mp = Ok put /\ _ =>
      set (c := mc); set (p := mp)
  end.
  assert (Hnode : forall j i, node_price p j i = node_price c j i)
    by reflexivity.
  assert (Hgap : 0 < node_price c 0 1 - node_price c 1 1).
  { pose proof (node_gap_eq c 0 0 ltac:(lia)) as E.
    change (0 + 1)%nat with 1%nat in E. rewrite E, node_price_root.
    apply Rmult_lt_0_compat; cbn; lra. }
  pose proof (call_value_gap c ltac:(cbn; lra) ltac:(cbn; lra)
                ltac:(cbn; lra) ltac:(cbn; lra) ltac:(cbn; lra)
                ltac:(exact Hmart) ltac:(reflexivity)
                (BinomialTree.steps c - 1) 0%nat 1%nat ltac:(lia)) as Hc.
  pose proof (put_value_gap p ltac:(cbn; lra) ltac:(cbn; lra)
                ltac:(cbn; lra) ltac:(cbn; lra) ltac:(cbn; lra)
                ltac:(exact Hmart) ltac:(reflexivity)
                (BinomialTree.steps p - 1) 0%nat 1%nat ltac:(lia)) as Hq.
  rewrite !Hnode in Hq.
  change (0 + 1)%nat with 1%nat in Hc, Hq.
  exists c, p. eexists. eexists.
  split; [reflexivity|]. split; [reflexivity|].
  split; [apply binomial_delta_lattice; [left; reflexivity | exact HN]|].
  split; [apply binomial_delta_lattice; [right; reflexivity | exact HN]|].
  rewrite !Hnode. split.
  - apply ratio_unit; [exact Hgap | exact Hc].
  - pose proof (ratio_unit _ _ Hgap Hq) as Hr.
    replace ((lattice_value p (BinomialTree.steps p - 1) 0 1
              - lattice_value p (BinomialTree.steps p - 1) 1 1)
             / (node_price c 0 1 - node_price c 1 1))
      with (- ((lattice_value p (BinomialTree.steps p - 1) 1 1
                - lattice_value p (BinomialTree.steps p - 1) 0 1)
               / (node_price c 0 1 - node_price c 1 1)))
      by (field; lra).
    lra.
Qed.

Lemma lattice_delta_range_witness :
  exists call put delta_call delta_put,
    BinomialTree.__init__ (float 100) (float 100) (float 2) (float 0.05)
                          (float 0.2) 2 "call" "american" = Ok call /\
    BinomialTree.__init__ (float 100) (float 100) (float 2) (float 0.05)
                          (float 0.2) 2 "put" "american" = Ok put /\
    BinomialGreeks.delta call = Indexed.Ok delta_call /\
    BinomialGreeks.delta put = Indexed.Ok delta_put /\
    0 <= delta_call <= 1 /\ -1 <= delta_put <= 0.
Proof.
  apply (lattice_delta_range (float 100) (float 100) (float 2)
           (float 0.05) (float 0.2) 2 "american"); simpl; try lra; try lia.
  replace (2 / (1 + 1)) with 1 by lra. rewrite sqrt_1.
  rewrite Rabs_right; lra.
Defined.

(** ** Monte Carlo: sample means *)

Lemma sum_map_scale : forall (c : R) (l : list R),
  Np.sum (map (fun x => c * x) l) = c * Np.sum l.
Proof.
  intros c l. unfold Np.sum. induction l as [|x l IH]; simpl.
  - ring.
  - rewrite IH. ring.
Qed.

Lemma mean_map_scale : forall (c : R) (l : list R),
  Np.mean (map (fun x => c * x) l) = c * Np.mean l.
Proof.
  intros c l. unfold Np.mean. rewrite sum_map_scale, length_map.
  unfold Rdiv. ring.
Qed.

Lemma sum_map_minus : forall (X : Type) (f h : X -> R) (l : list X),
  Np.sum (map f l) - Np.sum (map h l) = Np.sum (map (fun x => f x - h x) l).
Proof.
  intros X f h l. unfold Np.sum. induction l as [|x l IH]; simpl.
  - ring.
  - rewrite <- IH. ring.
Qed.

Lemma mean_map_minus : forall (X : Type) (f h : X -> R) (l : list X),
  Np.mean (map f l) - Np.mean (map h l)
  = Np.mean (map (fun x => f x - h x) l).
Proof.
  intros X f h l. unfold Np.mean. rewrite <- sum_map_minus, !length_map.
  unfold Rdiv. ring.
Qed.

Lemma sum_map_shift : forall (k : R) (l : list R),
  Np.sum (map (fun x => x - k) l) = Np.sum l - INR (List.length l) * k.
Proof.
  intros k l. unfold Np.sum. induction l as [|x l IH].
  - simpl. ring.
  - cbn [map fold_right List.length]. rewrite IH, S_INR. ring.
Qed.

Lemma mean_map_shift : forall (k : R) (l : list R),
  l <> [] -> Np.mean (map (fun x => x - k) l) = Np.mean l - k.
Proof.
  intros k l Hl. unfold Np.mean. rewrite sum_map_shift, length_map.
  field. apply not_0_INR. destruct l; [contradiction | discriminate].
Qed.

Lemma sum_bounds : forall (a b : R) (l : list R),
  (forall x, In x l -> a <= x <= b) ->
  INR (List.length l) * a <= Np.sum l <= INR (List.length l) * b.
Proof.
  intros a b l. unfold Np.sum. induction l as [|x l IH]; intro H.
  - simpl. lra.
  - cbn [fold_right List.length]. rewrite S_INR.
    pose proof (H x (or_introl eq_refl)).
    pose proof (IH (fun y Hy => H y (or_intror Hy))). lra.
Qed.

Lemma mean_bounds : forall (a b : R) (l : list R),
  l <> [] -> (forall x, In x l -> a <= x <= b) -> a <= Np.mean l <= b.
Proof.
  intros a b l Hl H. unfold Np.mean.
  assert (Hn : 0 < INR (List.length l)).
  { apply lt_0_INR. destruct l; [contradiction | simpl; lia]. }
  pose proof (sum_bounds a b l H) as [H1 H2]. split.
  - apply (Rmult_le_reg_r (INR (List.length l))); [exact Hn|].
    unfold Rdiv. rewrite Rmult_assoc, Rinv_l by lra. lra.
  - apply (Rmult_le_reg_r (INR (List.length l))); [exact Hn|].
    unfold Rdiv. rewrite Rmult_assoc, Rinv_l by lra. lra.
Qed.

Lemma mean_nonneg : forall l : list R,
  l <> [] -> (forall x, In x l -> 0 <= x) -> 0 <= Np.mean l.
Proof.
  intros l Hl H. unfold Np.mean.
  assert (Hn : 0 < INR (List.length l)).
  { apply lt_0_INR. destruct l; [contradiction | simpl; lia]. }
  assert (Hs : 0 <= Np.sum l).
  { unfold Np.sum. clear Hl Hn. induction l as [|x l IH]; simpl; [lra|].
    pose proof (H x (or_introl eq_refl)).
    pose proof (IH (fun y Hy => H y (or_intror Hy))). unfold Np.sum in *.
    lra. }
  apply Rmult_le_pos; [exact Hs|]. left. apply Rinv_0_lt_compat. exact Hn.
Qed.

Lemma mean_constant : forall (X : Type) (c : R) (l : list X),
  l <> [] -> Np.mean (map (fun _ => c) l) = c.
Proof.
  intros X c l Hl.
  apply Rle_antisym; apply (mean_bounds c c);
    try (intros x Hx; apply in_map_iff in Hx; destruct Hx as (y & <- & _);
         lra);
    destruct l; [contradiction | discriminate | contradiction | discriminate].
Qed.

Lemma terminal_prices_nonempty : forall self steps normals,
  MonteCarlo.simulations self <> 0%nat ->
  terminal_prices self steps normals <> [].
Proof.
  intros self steps normals H. unfold terminal_prices.
  destruct (MonteCarlo.simulations self); [contradiction | discriminate].
Qed.

(** The paths do not depend on the option kind or on the strike. *)
Lemma gbm_path_same : forall a b dt normals i t,
  MonteCarlo.S a = MonteCarlo.S b -> MonteCarlo.r a = MonteCarlo.r b ->
  MonteCarlo.sigma a = MonteCarlo.sigma b ->
  MonteCarlo.simulations a = MonteCarlo.simulations b ->
  gbm_path a dt normals i t = gbm_path b dt normals i t.
Proof.
  intros a b dt normals i t HS Hr Hsig Hn.
  induction t as [|t IH]; simpl.
  - rewrite HS. reflexivity.
  - rewrite IH. unfold gbm_factor. rewrite Hr, Hsig, Hn. reflexivity.
Qed.

Lemma gbm_path_pos : forall self dt normals i t,
  0 < MonteCarlo.S self -> 0 < gbm_path self dt normals i t.
Proof.
  intros self dt normals i t HS. induction t as [|t IH]; simpl.
  - exact HS.
  - apply Rmult_lt_0_compat; [exact IH | apply exp_pos].
Qed.

(** X14.  Put-call parity of the Monte Carlo estimates: a call engine and a
    put engine with the same parameters, priced from the same generator
    state with steps >= 1 and at least one simulation, differ by the
    discounted sample mean of the terminal prices minus the discounted
    strike, whatever the draws. *)
Theorem monte_carlo_put_call_parity :
  forall (S K T r sigma : scalar) (simulations : nat) (seed : Z)
         (steps : nat) (g : Random.state),
  steps <> 0%nat -> simulations <> 0%nat ->
  let call := constructed S K T r sigma simulations "call" seed in
  let put := constructed S K T r sigma simulations "put" seed in
  exists c p,
    MonteCarlo.price call steps g
    = (Ok c, Random.advance g (steps * simulations)) /\
    MonteCarlo.price put steps g
    = (Ok p, Random.advance g (steps * simulations)) /\
    c - p = exp (- r * T)
            * (Np.mean (terminal_prices call steps (upcoming g)) - K).
Proof.
  intros S K T r sigma simulations seed steps g Hsteps Hsims call put.
  exists (mc_price_value call steps (upcoming g)),
         (mc_price_value put steps (upcoming g)).
  split; [apply (mc_price_spec call); [exact Hsteps | left; reflexivity]|].
  split; [apply (mc_price_spec put); [exact Hsteps | right; reflexivity]|].
  unfold mc_price_value.
  assert (Hsame : terminal_prices put steps (upcoming g)
                  = terminal_prices call steps (upcoming g)).
  { unfold terminal_prices. apply map_ext. intro i.
    apply gbm_path_same; reflexivity. }
  rewrite Hsame.
  change (Py.val (MonteCarlo.r call)) with (Py.val r).
  change (Py.val (MonteCarlo.T call)) with (Py.val T).
  change (Py.val (MonteCarlo.r put)) with (Py.val r).
  change (Py.val (MonteCarlo.T put)) with (Py.val T).
  rewrite <- Rmult_minus_distr_l. f_equal.
  rewrite mean_map_minus.
  rewrite <- (mean_map_shift K)
    by (apply terminal_prices_nonempty; exact Hsims).
  f_equal. apply map_ext. intro x.
  unfold mc_payoff, call, put, constructed.
  cbn [MonteCarlo.option_type MonteCarlo.K].
  change (lower "call") with "call"%string.
  change (lower "put") with "put"%string.
  simpl String.eqb. cbv iota. unfold Rmax.
  destruct (Rle_dec (x - K) 0); destruct (Rle_dec (K - x) 0); lra.
Qed.

Lemma monte_carlo_put_call_parity_witness :
  exists c p,
    MonteCarlo.price (constructed (float 100) (float 100) (float 1)
                        (float 0.05) (float 0.2) 1000 "call" 42)
                     100 seeded_42
    = (Ok c, Random.advance seeded_42 (100 * 1000)) /\
    MonteCarlo.price (constructed (float 100) (float 100) (float 1)
                        (float 0.05) (float 0.2) 1000 "put" 42)
                     100 seeded_42
    = (Ok p, Random.advance seeded_42 (100 * 1000)) /\
    c - p = exp (- (0.05) * 1)
            * (Np.mean (terminal_prices
                          (constructed (float 100) (float 100) (float 1)
                             (float 0.05) (float 0.2) 1000 "call" 42)
                          100 (upcoming seeded_42)) - 100).
Proof.
  apply (monte_carlo_put_call_parity (float 100) (float 100) (float 1)
           (float 0.05) (float 0.2) 1000 42 100 seeded_42); discriminate.
Defined.

(** ** Monte Carlo: the simulated paths *)

(** X15.  The paths [get_paths] returns for steps >= 1 and a positive spot:
    every path starts at the spot, each step multiplies the path by
    exp((r - sigma^2 / 2) dt + sigma sqrt(dt) z) with dt = T / steps, where
    z is draw number t * num_paths + i from the current position for step
    t + 1 of path i, and every entry is positive. *)
Theorem simulated_paths_stay_positive :
  forall (self : MonteCarlo.MonteCarloModel) (num_paths steps : nat)
         (g : Random.state),
  steps <> 0%nat -> 0 < MonteCarlo.S self ->
  exists paths,
    MonteCarlo.get_paths self num_paths steps g
    = (Ok paths, self, Random.advance g (steps * num_paths)) /\
    forall i, (i < num_paths)%nat ->
      paths i 0%nat = MonteCarlo.S self /\
      (forall t, (t <= steps)%nat -> 0 < paths i t) /\
      (forall t, (t < steps)%nat ->
         paths i (t + 1)%nat
         = paths i t
           * exp ((MonteCarlo.r self - 0.5 * MonteCarlo.sigma self ^ 2)
                  * (MonteCarlo.T self / INR steps)
                  + MonteCarlo.sigma self
                    * sqrt (MonteCarlo.T self / INR steps)
                    * Random.stream g (Random.pos g + (t * num_paths + i)))).
Proof.
  intros self num_paths steps g Hsteps HS.
  destruct (simulate_paths_spec (MonteCarlo.set_simulations self num_paths)
              steps g Hsteps) as (paths & Hrun & Hp).
  cbn [MonteCarlo.set_simulations MonteCarlo.simulations] in Hrun, Hp.
  exists paths. split.
  - unfold MonteCarlo.get_paths. rewrite Hrun.
    rewrite set_simulations_restore. reflexivity.
  - intros i Hi. split; [|split].
    + rewrite Hp by (try exact Hi; lia). reflexivity.
    + intros t Ht. rewrite Hp by assumption.
      apply gbm_path_pos. exact HS.
    + intros t Ht. rewrite !Hp by (try exact Hi; lia).
      replace (t + 1)%nat with (Datatypes.S t) by lia.
      reflexivity.
Qed.

Lemma simulated_paths_stay_positive_witness :
  exists paths,
    MonteCarlo.get_paths sample_engine 10 100 seeded_42
    = (Ok paths, sample_engine, Random.advance seeded_42 (100 * 10)) /\
    forall i, (i < 10)%nat -> 0 < paths i 100%nat.
Proof.
  destruct (simulated_paths_stay_positive sample_engine 10 100 seeded_42
              ltac:(discriminate) ltac:(simpl; lra))
    as (paths & Hget & Hpaths).
  exists paths. split; [exact Hget|].
  intros i Hi. destruct (Hpaths i Hi) as (_ & Hpos & _).
  apply Hpos. lia.
Defined.

(** ** Monte Carlo: prices that do not depend on the draws *)

Lemma gbm_path_zero_volatility : forall self dt normals i t,
  Py.val (MonteCarlo.sigma self) = 0 ->
  gbm_path self dt normals i t
  = MonteCarlo.S self * exp (MonteCarlo.r self * dt) ^ t.
Proof.
  intros self dt normals i t Hsig. induction t as [|t IH].
  - simpl. ring.
  - cbn [gbm_path]. rewrite IH. unfold gbm_factor. rewrite Hsig.
    replace ((MonteCarlo.r self - 0.5 * 0 ^ 2) * dt + 0 * sqrt dt
             * normals (t * MonteCarlo.simulations self + i)%nat)
      with (MonteCarlo.r self * dt) by (simpl; lra).
    simpl. ring.
Qed.

(** X16.  With a volatility of zero the Monte Carlo price of a call or a
    put does not depend on the draws: for steps >= 1 and at least one
    simulation it is the discounted payoff at the forward price
    S exp(r T). *)
Theorem monte_carlo_zero_volatility :
  forall (self : MonteCarlo.MonteCarloModel) (steps : nat) (g : Random.state),
  steps <> 0%nat -> MonteCarlo.simulations self <> 0%nat ->
  Py.val (MonteCarlo.sigma self) = 0 ->
  MonteCarlo.option_type self = "call"%string
  \/ MonteCarlo.option_type self = "put"%string ->
  let forward :=
    MonteCarlo.S self * exp (MonteCarlo.r self * MonteCarlo.T self) in
  MonteCarlo.price self steps g
  = (Ok (exp (- MonteCarlo.r self * MonteCarlo.T self)
         * (if (MonteCarlo.option_type self =? "call")%string
            then Rmax (forward - MonteCarlo.K self) 0
            else Rmax (MonteCarlo.K self - forward) 0)),
     Random.advance g (steps * MonteCarlo.simulations self)).
Proof.
  intros self steps g Hsteps Hsims Hsig Hkind forward.
  rewrite mc_price_spec by assumption. do 2 f_equal.
  unfold mc_price_value. f_equal.
  assert (Hterm : terminal_prices self steps (upcoming g)
                  = map (fun _ => forward)
                        (seq 0 (MonteCarlo.simulations self))).
  { unfold terminal_prices. apply map_ext. intro i.
    rewrite gbm_path_zero_volatility by exact Hsig.
    unfold forward. f_equal. rewrite exp_pow. f_equal.
    unfold step_length. field. apply not_0_INR. exact Hsteps. }
  rewrite Hterm, map_map.
  rewrite mean_constant.
  - reflexivity.
  - destruct (MonteCarlo.simulations self); [contradiction | discriminate].
Qed.

Lemma monte_carlo_zero_volatility_witness :
  MonteCarlo.price (constructed (float 100) (float 90) (float 1) (float 0.05)
                      (float 0) 1000 "call" 42) 100 seeded_42
  = (Ok (exp (- (0.05) * 1) * Rmax (100 * exp (0.05 * 1) - 90) 0),
     Random.advance seeded_42 (100 * 1000)).
Proof.
  apply (monte_carlo_zero_volatility
           (constructed (float 100) (float 90) (float 1) (float 0.05)
              (float 0) 1000 "call" 42) 100 seeded_42);
    try discriminate; try reflexivity.
  left. reflexivity.
Defined.

(** X17.  Bounds on the Monte Carlo price that hold whatever the draws, for
    steps >= 1, at least one simulation, a positive spot and a non-negative
    strike: the price of a call or a put is non-negative, the call is at
    most the discounted sample mean of the terminal prices, and the put is
    at most the discounted strike. *)
Theorem monte_carlo_price_bounds :
  forall (self : MonteCarlo.MonteCarloModel) (steps : nat) (g : Random.state),
  steps <> 0%nat -> MonteCarlo.simulations self <> 0%nat ->
  0 < MonteCarlo.S self -> 0 <= MonteCarlo.K self ->
  MonteCarlo.option_type self = "call"%string
  \/ MonteCarlo.option_type self = "put"%string ->
  exists v,
    MonteCarlo.price self steps g
    = (Ok v, Random.advance g (steps * MonteCarlo.simulations self)) /\
    0 <= v /\
    (MonteCarlo.option_type self = "call"%string ->
     v <= exp (- MonteCarlo.r self * MonteCarlo.T self)
          * Np.mean (terminal_prices self steps (upcoming g))) /\
    (MonteCarlo.option_type self = "put"%string ->
     v <= exp (- MonteCarlo.r self * MonteCarlo.T self) * MonteCarlo.K self).
Proof.
  intros self steps g Hsteps Hsims HS HK Hkind.
  eexists. split; [apply mc_price_spec; assumption|].
  unfold mc_price_value.
  pose proof (exp_pos (- MonteCarlo.r self * MonteCarlo.T self)) as Hd.
  pose proof (terminal_prices_nonempty self steps (upcoming g) Hsims) as Hne.
  assert (Hne' : map (mc_payoff self) (terminal_prices self steps (upcoming g))
                 <> []).
  { destruct (terminal_prices self steps (upcoming g));
      [contradiction | discriminate]. }
  assert (Hpos : forall x, In x (terminal_prices self steps (upcoming g)) ->
                 0 < x).
  { intros x Hx. unfold terminal_prices in Hx. apply in_map_iff in Hx.
    destruct Hx as (i & <- & _). apply gbm_path_pos. exact HS. }
  split; [|split].
  - apply Rmult_le_pos; [lra|]. apply mean_nonneg; [exact Hne'|].
    intros y Hy. apply in_map_iff in Hy. destruct Hy as (x & <- & _).
    unfold mc_payoff.
    destruct (MonteCarlo.option_type self =? "call")%string; apply Rmax_r.
  - intro Hcall. apply Rmult_le_compat_l; [lra|].
    assert (Hle : Np.mean (terminal_prices self steps (upcoming g))
                  - Np.mean (map (mc_payoff self)
                               (terminal_prices self steps (upcoming g)))
                  >= 0).
    { rewrite <- (map_id (terminal_prices self steps (upcoming g))) at 1.
      rewrite mean_map_minus. apply Rle_ge. apply mean_nonneg.
      - destruct (terminal_prices self steps (upcoming g));
          [contradiction | discriminate].
      - intros y Hy. apply in_map_iff in Hy. destruct Hy as (x & <- & Hx).
        apply Hpos in Hx. unfold mc_payoff. rewrite Hcall.
        simpl String.eqb. cbv iota. unfold Rmax.
        destruct (Rle_dec (x - MonteCarlo.K self) 0); lra. }
    lra.
  - intro Hput. apply Rmult_le_compat_l; [lra|].
    apply (mean_bounds 0); [exact Hne'|].
    intros y Hy. apply in_map_iff in Hy. destruct Hy as (x & <- & Hx).
    apply Hpos in Hx. unfold mc_payoff. rewrite Hput.
    simpl String.eqb. cbv iota. unfold Rmax.
    destruct (Rle_dec (MonteCarlo.K self - x) 0); lra.
Qed.

Lemma monte_carlo_price_bounds_witness :
  exists v,
    MonteCarlo.price sample_engine 100 seeded_42
    = (Ok v, Random.advance seeded_42 (100 * 1000)) /\ 0 <= v.
Proof.
  destruct (monte_carlo_price_bounds sample_engine 100 seeded_42
              ltac:(discriminate) ltac:(discriminate)
              ltac:(simpl; lra) ltac:(simpl; lra)
              ltac:(left; reflexivity))
    as (v & Hprice & Hv & _).
  exists v. split; [exact Hprice | exact Hv].
Defined.

(** ** Monte Carlo: the confidence interval *)

Lemma mc_payoff_not_call : forall a b x,
  MonteCarlo.option_type a <> "call"%string ->
  MonteCarlo.option_type b <> "call"%string ->
  MonteCarlo.K a = MonteCarlo.K b ->
  mc_payoff a x = mc_payoff b x.
Proof.
  intros a b x Ha Hb HK. unfold mc_payoff.
  apply String.eqb_neq in Ha, Hb. rewrite Ha, Hb, HK. reflexivity.
Qed.

(** X18.  [price_with_confidence] with steps >= 1, at least one simulation
    and a non-negative quantile z = norm.ppf((1 + confidence) / 2): the
    standard deviation and the standard error are non-negative, the bounds
    lie at z standard errors on either side of the price, so the interval
    contains it, and on a call or a put the price is the one [price]
    returns from the same generator state, both advancing the generator by
    steps * simulations draws. *)
Theorem confidence_interval_brackets_price :
  forall (norm_ppf : R -> R) (self : MonteCarlo.MonteCarloModel)
         (steps : nat) (confidence : R) (g : Random.state),
  steps <> 0%nat -> MonteCarlo.simulations self <> 0%nat ->
  0 <= norm_ppf ((1 + confidence) / 2) ->
  exists c,
    MonteCarlo.price_with_confidence norm_ppf self steps confidence g
    = (Ok c, Random.advance g (steps * MonteCarlo.simulations self)) /\
    0 <= MonteCarlo.c_std c /\
    0 <= MonteCarlo.c_std_error c /\
    MonteCarlo.c_lower_bound c
    = MonteCarlo.c_price c
      - norm_ppf ((1 + confidence) / 2) * MonteCarlo.c_std_error c /\
    MonteCarlo.c_upper_bound c
    = MonteCarlo.c_price c
      + norm_ppf ((1 + confidence) / 2) * MonteCarlo.c_std_error c /\
    MonteCarlo.c_lower_bound c <= MonteCarlo.c_price c
      <= MonteCarlo.c_upper_bound c /\
    (MonteCarlo.option_type self = "call"%string
     \/ MonteCarlo.option_type self = "put"%string ->
     MonteCarlo.price self steps g
     = (Ok (MonteCarlo.c_price c),
        Random.advance g (steps * MonteCarlo.simulations self))).
Proof.
  intros norm_ppf self steps confidence g Hsteps Hsims Hz.
  eexists. split; [apply mc_confidence_spec; exact Hsteps|].
  unfold mc_confidence_value.
  cbn [MonteCarlo.c_price MonteCarlo.c_std MonteCarlo.c_std_error
       MonteCarlo.c_lower_bound MonteCarlo.c_upper_bound].
  set (discounted := map _ (map _ _)).
  assert (Hstd : 0 <= Np.std discounted) by (unfold Np.std; apply sqrt_pos).
  assert (Hn : 0 < sqrt (INR (MonteCarlo.simulations self))).
  { apply sqrt_lt_R0. apply lt_0_INR. lia. }
  assert (Herr : 0 <= Np.std discounted
                      / sqrt (INR (MonteCarlo.simulations self))).
  { apply Rmult_le_pos; [exact Hstd|]. left. apply Rinv_0_lt_compat.
    exact Hn. }
  split; [exact Hstd|]. split; [exact Herr|].
  split; [reflexivity|]. split; [reflexivity|]. split.
  - pose proof (Rmult_le_pos _ _ Hz Herr). lra.
  - intro Hkind. rewrite mc_price_spec by assumption.
    unfold mc_price_value, discounted. rewrite mean_map_scale. reflexivity.
Qed.

Lemma confidence_interval_brackets_price_witness :
  exists c,
    MonteCarlo.price_with_confidence z_95 sample_engine 100 0.95 seeded_42
    = (Ok c, Random.advance seeded_42 (100 * 1000)) /\
    MonteCarlo.c_lower_bound c <= MonteCarlo.c_price c
      <= MonteCarlo.c_upper_bound c.
Proof.
  destruct (confidence_interval_brackets_price z_95 sample_engine 100 0.95
              seeded_42 ltac:(discriminate) ltac:(discriminate)
              ltac:(unfold z_95; lra))
    as (c & Hrun & _ & _ & _ & _ & Hin & _).
  exists c. split; [exact Hrun | exact Hin].
Defined.

(** X19.  An option kind that is neither 'call' nor 'put' once lower-cased:
    with steps >= 1, [price] raises ValueError, while
    [price_with_confidence] raises nothing and returns the figures of the
    put with the same parameters. *)
Theorem price_with_confidence_defaults_to_put :
  forall (seeded_normals : Z -> nat -> R) (norm_ppf : R -> R)
         (S K T r sigma : scalar) (simulations : nat) (kind : string)
         (seed : option Z) (steps : nat) (confidence : R) (g : Random.state),
  steps <> 0%nat ->
  lower kind <> "call"%string -> lower kind <> "put"%string ->
  exists self put g1 c,
    MonteCarlo.__init__ seeded_normals S K T r sigma simulations kind seed g
    = (Ok self, g1) /\
    MonteCarlo.__init__ seeded_normals S K T r sigma simulations "put" seed g
    = (Ok put, g1) /\
    MonteCarlo.price self steps g1
    = (Raise kind_error, Random.advance g1 (steps * simulations)) /\
    MonteCarlo.price_with_confidence norm_ppf self steps confidence g1
    = (Ok c, Random.advance g1 (steps * simulations)) /\
    MonteCarlo.price_with_confidence norm_ppf put steps confidence g1
    = (Ok c, Random.advance g1 (steps * simulations)).
Proof.
  intros seeded_normals norm_ppf S K T r sigma simulations kind seed steps
         confidence g Hsteps Hc Hp.
  unfold MonteCarlo.__init__.
  change (lower "put") with "put"%string.
  match goal with
  | |- exists self put _ _,
         (match seed with
          | Some _ => _ <~ _ ;; Random.ret ?a
          | None => _ end) g = _ /\
         (match seed with
          | Some _ => _ <~ _ ;; Random.ret ?b
          | None => _ end) g = _ /\ _ =>
      set (self := a); set (put := b)
  end.
  exists self, put.
  exists (match seed with
          | Some s => {| Random.stream := seeded_normals s; Random.pos := 0 |}
          | None => g
          end).
  eexists.
  split; [destruct seed; reflexivity|].
  split; [destruct seed; reflexivity|].
  split; [apply (mc_price_unknown_kind self); assumption|].
  split; [apply (mc_confidence_spec norm_ppf self); exact Hsteps|].
  rewrite (mc_confidence_spec norm_ppf put) by exact Hsteps.
  do 2 f_equal. unfold mc_confidence_value.
  assert (Hterm : forall normals,
            terminal_prices put steps normals
            = terminal_prices self steps normals).
  { intro normals. unfold terminal_prices. apply map_ext. intro i.
    apply gbm_path_same; reflexivity. }
  assert (Hpay : forall l, map (mc_payoff put) l = map (mc_payoff self) l).
  { intro l. apply map_ext. intro x.
    apply mc_payoff_not_call; [discriminate | exact Hc | reflexivity]. }
  rewrite Hterm, Hpay. reflexivity.
Qed.

Lemma price_with_confidence_defaults_to_put_witness :
  exists self put g1 c,
    MonteCarlo.__init__ counting_normals (float 100) (float 100) (float 1)
                        (float 0.05) (float 0.2) 1000 "straddle" (Some 42%Z)
                        unseeded
    = (Ok self, g1) /\
    MonteCarlo.__init__ counting_normals (float 100) (float 100) (float 1)
                        (float 0.05) (float 0.2) 1000 "put" (Some 42%Z)
                        unseeded
    = (Ok put, g1) /\
    MonteCarlo.price self 100 g1
    = (Raise kind_error, Random.advance g1 (100 * 1000)) /\
    MonteCarlo.price_with_confidence z_95 self 100 0.95 g1
    = (Ok c, Random.advance g1 (100 * 1000)) /\
    MonteCarlo.price_with_confidence z_95 put 100 0.95 g1
    = (Ok c, Random.advance g1 (100 * 1000)).
Proof.
  apply (price_with_confidence_defaults_to_put counting_normals z_95
           (float 100) (float 100) (float 1) (float 0.05) (float 0.2)
           1000 "straddle" (Some 42%Z) 100 0.95 unseeded); discriminate.
Defined.

(** ** Monte Carlo: the finite-difference Greeks *)

Lemma set_S_restore : forall self v,
  MonteCarloGreeks.set_S (MonteCarloGreeks.set_S self v) (MonteCarlo.S self)
  = self.
Proof. intros self v. destruct self. reflexivity. Qed.

Lemma set_sigma_restore : forall self v,
  MonteCarloGreeks.set_sigma (MonteCarloGreeks.set_sigma self v)
                             (MonteCarlo.sigma self)
  = self.
Proof. intros self v. destruct self. reflexivity. Qed.

(** X20.  The finite-difference [delta] and [vega] of a call or put engine
    return with the engine as they found it and the generator 2 * 100 *
    simulations draws further on; the original price is computed on the
    first 100 * simulations draws and the bumped price on the 100 *
    simulations draws that follow them, not on the same draws.  On any
    other kind they raise the ValueError of the first [price] call, with the
    engine unchanged and 100 * simulations draws consumed. *)
Theorem finite_difference_greeks :
  forall (self : MonteCarlo.MonteCarloModel) (bump : R) (g : Random.state),
  let n := (MonteCarloGreeks.default_steps * MonteCarlo.simulations self)%nat in
  let g1 := Random.advance g n in
  let g2 := Random.advance g (2 * n) in
  let original :=
    mc_price_value self MonteCarloGreeks.default_steps (upcoming g) in
  let bumped_S :=
    MonteCarloGreeks.set_S self
      (MonteCarloGreeks.scale (MonteCarlo.S self) (1 + bump)) in
  let bumped_sigma :=
    MonteCarloGreeks.set_sigma self
      (MonteCarloGreeks.shift (MonteCarlo.sigma self) bump) in
  (MonteCarlo.option_type self = "call"%string
   \/ MonteCarlo.option_type self = "put"%string ->
   MonteCarloGreeks.delta self bump g
   = (Ok ((mc_price_value bumped_S MonteCarloGreeks.default_steps
                          (upcoming g1) - original)
          / (MonteCarlo.S self * bump)), self, g2) /\
   MonteCarloGreeks.vega self bump g
   = (Ok ((mc_price_value bumped_sigma MonteCarloGreeks.default_steps
                          (upcoming g1) - original) / bump / 100),
      self, g2)) /\
  (MonteCarlo.option_type self <> "call"%string ->
   MonteCarlo.option_type self <> "put"%string ->
   MonteCarloGreeks.delta self bump g = (Raise kind_error, self, g1) /\
   MonteCarloGreeks.vega self bump g = (Raise kind_error, self, g1)).
Proof.
  intros self bump g n g1 g2 original bumped_S bumped_sigma.
  assert (Hsteps : MonteCarloGreeks.default_steps <> 0%nat) by discriminate.
  assert (Hg2 : Random.advance g1 n = g2).
  { unfold g1, g2. rewrite advance_advance. f_equal. lia. }
  split.
  - intro Hkind. split.
    + unfold MonteCarloGreeks.delta.
      rewrite (mc_price_spec self) by assumption. cbv zeta.
      rewrite (mc_price_spec bumped_S) by assumption.
      rewrite set_S_restore.
      change (MonteCarlo.simulations bumped_S)
        with (MonteCarlo.simulations self).
      fold n. fold g1. rewrite Hg2. reflexivity.
    + unfold MonteCarloGreeks.vega.
      rewrite (mc_price_spec self) by assumption. cbv zeta.
      rewrite (mc_price_spec bumped_sigma) by assumption.
      rewrite set_sigma_restore.
      change (MonteCarlo.simulations bumped_sigma)
        with (MonteCarlo.simulations self).
      fold n. fold g1. rewrite Hg2. reflexivity.
  - intros Hc Hp. split.
    + unfold MonteCarloGreeks.delta.
      rewrite (mc_price_unknown_kind self) by assumption. reflexivity.
    + unfold MonteCarloGreeks.vega.
      rewrite (mc_price_unknown_kind self) by assumption. reflexivity.
Qed.

Lemma finite_difference_greeks_witness :
  exists delta vega,
    MonteCarloGreeks.delta sample_engine 0.01 seeded_42
    = (Ok delta, sample_engine, Random.advance seeded_42 (2 * (100 * 1000)))
    /\
    MonteCarloGreeks.vega sample_engine 0.01 seeded_42
    = (Ok vega, sample_engine, Random.advance seeded_42 (2 * (100 * 1000))).
Proof.
  destruct (finite_difference_greeks sample_engine 0.01 seeded_42)
    as [Hvalid _].
  destruct (Hvalid ltac:(left; reflexivity)) as [Hdelta Hvega].
  eexists. eexists. split; [exact Hdelta | exact Hvega].
Defined.

(** ** Monte Carlo: a step count of zero *)

(** X21.  With a step count of zero and a maturity that is a Python float,
    [price], [price_with_confidence] and [get_paths] raise
    ZeroDivisionError before any draw is taken.  [get_paths] leaves through
    the exception with the simulation count still overwritten by
    num_paths: a later [price] of that engine simulates num_paths paths. *)
Theorem zero_steps_raise_before_drawing :
  forall (norm_ppf : R -> R) (self : MonteCarlo.MonteCarloModel)
         (num_paths : nat) (confidence : R) (g : Random.state),
  is_numpy (MonteCarlo.T self) = false ->
  MonteCarlo.price self 0 g = (Raise ZeroDivisionError, g) /\
  MonteCarlo.price_with_confidence norm_ppf self 0 confidence g
  = (Raise ZeroDivisionError, g) /\
  exists self',
    MonteCarlo.get_paths self num_paths 0 g
    = (Raise ZeroDivisionError, self', g) /\
    MonteCarlo.simulations self' = num_paths /\
    forall steps, steps <> 0%nat ->
      snd (MonteCarlo.price self' steps g)
      = Random.advance g (steps * num_paths).
Proof.
  intros norm_ppf self num_paths confidence g HT.
  split; [|split].
  - unfold MonteCarlo.price, Random.bind.
    rewrite simulate_paths_zero_steps by exact HT. reflexivity.
  - unfold MonteCarlo.price_with_confidence, Random.bind.
    rewrite simulate_paths_zero_steps by exact HT. reflexivity.
  - exists (MonteCarlo.set_simulations self num_paths).
    split; [apply get_paths_zero_steps; exact HT|].
    split; [reflexivity|].
    intros steps Hsteps.
    destruct (simulate_paths_spec (MonteCarlo.set_simulations self num_paths)
                steps g Hsteps) as (paths & Hrun & _).
    unfold MonteCarlo.price, Random.bind. rewrite Hrun.
    cbn [MonteCarlo.set_simulations MonteCarlo.simulations
         MonteCarlo.option_type].
    destruct (MonteCarlo.option_type self =? "call")%string; [reflexivity|].
    destruct (MonteCarlo.option_type self =? "put")%string; reflexivity.
Qed.

Lemma zero_steps_raise_before_drawing_witness :
  MonteCarlo.price sample_engine 0 seeded_42
  = (Raise ZeroDivisionError, seeded_42) /\
  exists self',
    MonteCarlo.get_paths sample_engine 5 0 seeded_42
    = (Raise ZeroDivisionError, self', seeded_42) /\
    MonteCarlo.simulations self' = 5%nat.
Proof.
  destruct (zero_steps_raise_before_drawing z_95 sample_engine 5 0.95
              seeded_42 ltac:(reflexivity))
    as (Hprice & _ & self' & Hget & Hn & _).
  split; [exact Hprice|]. exists self'. split; [exact Hget | exact Hn].
Defined.

(** ** The implied-volatility solver: what it can return *)

Lemma newton_loop_positive :
  forall (market_price : R) (S K T r : scalar) (kind : string) (tolerance : R)
         (iterations : list nat) (sigma : scalar) (s : R),
  0 < sigma ->
  OptionsAnalyzer.newton_loop market_price S K T r kind tolerance
                              iterations sigma = Ok (Some s) ->
  0 < s.
Proof.
  intros market_price S K T r kind tolerance iterations.
  induction iterations as [|i iterations IH]; intros sigma s Hpos H;
    cbn [OptionsAnalyzer.newton_loop] in H; [discriminate|].
  destruct (BlackScholes.price _) as [p | e]; cbn [Py.bind] in H;
    [|discriminate].
  destruct (BlackScholes.vega _) as [v | e]; cbn [Py.bind] in H;
    [|discriminate].
  destruct (Rlt_dec _ tolerance) as [_ | _];
    [injection H as <-; exact Hpos|].
  destruct (Req_dec_T _ 0) as [_ | _]; [discriminate|].
  apply IH in H; [exact H|].
  destruct (Rle_dec _ 0) as [Hle | Hgt]; cbn in *; lra.
Qed.

Lemma newton_loop_needs_tolerance :
  forall (market_price : R) (S K T r : scalar) (kind : string) (tolerance : R)
         (iterations : list nat) (sigma : scalar) (s : R),
  tolerance <= 0 ->
  OptionsAnalyzer.newton_loop market_price S K T r kind tolerance
                              iterations sigma <> Ok (Some s).
Proof.
  intros market_price S K T r kind tolerance iterations.
  induction iterations as [|i iterations IH]; intros sigma s Htol H;
    cbn [OptionsAnalyzer.newton_loop] in H; [discriminate|].
  destruct (BlackScholes.price _) as [p | e]; cbn [Py.bind] in H;
    [|discriminate].
  destruct (BlackScholes.vega _) as [v | e]; cbn [Py.bind] in H;
    [|discriminate].
  destruct (Rlt_dec _ tolerance) as [Hlt | _].
  - pose proof (Rabs_pos (market_price - p)). lra.
  - destruct (Req_dec_T _ 0) as [_ | _]; [discriminate|].
    exact (IH _ _ Htol H).
Qed.

(** X22.  What the implied-volatility solver can return, for any inputs and
    any iteration budget: a returned volatility is strictly positive; with
    a tolerance that is not positive no volatility is ever returned; and on
    a call or a put with a strike other than zero and a budget of at least
    one iteration, a market price within the tolerance of the
    Black-Scholes price at sigma = 0.3 returns 0.3, the initial guess. *)
Theorem implied_volatility_results :
  forall (market_price : R) (S K T r : scalar) (kind : string)
         (tolerance : R) (max_iterations : nat),
  (forall sigma : R,
     OptionsAnalyzer.calculate_implied_volatility
       market_price S K T r kind tolerance max_iterations = Ok (Some sigma) ->
     0 < sigma) /\
  (tolerance <= 0 ->
   forall sigma : R,
     OptionsAnalyzer.calculate_implied_volatility
       market_price S K T r kind tolerance max_iterations
     <> Ok (Some sigma)) /\
  (val K <> 0 -> lower kind = "call"%string \/ lower kind = "put"%string ->
   (1 <= max_iterations)%nat ->
   Rabs (market_price - bs_value (lower kind) S K T r 0.3) < tolerance ->
   OptionsAnalyzer.calculate_implied_volatility
     market_price S K T r kind tolerance max_iterations = Ok (Some 0.3)).
Proof.
  intros market_price S K T r kind tolerance n.
  unfold OptionsAnalyzer.calculate_implied_volatility.
  split; [|split].
  - intros sigma H. apply newton_loop_positive in H; [exact H|]. simpl. lra.
  - intros Htol sigma. apply newton_loop_needs_tolerance. exact Htol.
  - intros HK Hkind Hn Hclose. destruct n as [|n]; [lia|].
    cbn [seq OptionsAnalyzer.newton_loop].
    rewrite bs_price_valid, bs_vega_ok by assumption.
    cbn [Py.bind].
    change (Py.val (float 0.3)) with 0.3.
    destruct (Rlt_dec _ tolerance) as [_ | N]; [reflexivity|].
    contradiction.
Qed.

Lemma implied_volatility_results_witness :
  OptionsAnalyzer.calculate_implied_volatility
    (bs_value "call" 100 100 1 0.05 0.3)
    (float 100) (float 100) (float 1) (float 0.05) "call"
    OptionsAnalyzer.default_tolerance OptionsAnalyzer.default_max_iterations
  = Ok (Some 0.3).
Proof.
  destruct (implied_volatility_results (bs_value "call" 100 100 1 0.05 0.3)
              (float 100) (float 100) (float 1) (float 0.05) "call"
              OptionsAnalyzer.default_tolerance
              OptionsAnalyzer.default_max_iterations) as (_ & _ & H).
  apply H.
  - simpl. lra.
  - left. reflexivity.
  - unfold OptionsAnalyzer.default_max_iterations. lia.
  - change (lower "call") with "call"%string.
    change (Py.val (float 100)) with 100.
    change (Py.val (float 1)) with 1.
    change (Py.val (float 0.05)) with 0.05.
    rewrite Rminus_diag, Rabs_R0.
    unfold OptionsAnalyzer.default_tolerance. lra.
Defined.

(** ** Errors of the analysis utilities *)

Lemma calculate_d1_d2_python_zero_strike :
  forall self : BlackScholes.BlackScholesModel,
  is_numpy (BlackScholes.S self) = false ->
  is_numpy (BlackScholes.K self) = false ->
  val (BlackScholes.K self) = 0 ->
  BlackScholes._calculate_d1_d2 self = Raise ZeroDivisionError.
Proof.
  intros self HS HK H0. unfold BlackScholes._calculate_d1_d2, truediv.
  rewrite HS, HK. simpl.
  destruct (Req_dec_T (val (BlackScholes.K self)) 0) as [_ | N];
    [reflexivity | contradiction].
Qed.

Lemma calculate_d1_d2_numpy_spot :
  forall self : BlackScholes.BlackScholesModel,
  is_numpy (BlackScholes.S self) = true ->
  BlackScholes._calculate_d1_d2 self
  = Ok (bs_d1 (BlackScholes.S self) (BlackScholes.K self)
              (BlackScholes.T self) (BlackScholes.r self)
              (BlackScholes.sigma self),
        bs_d2 (BlackScholes.S self) (BlackScholes.K self)
              (BlackScholes.T self) (BlackScholes.r self)
              (BlackScholes.sigma self)).
Proof.
  intros self HS. unfold BlackScholes._calculate_d1_d2, truediv.
  rewrite HS. reflexivity.
Qed.

Lemma price_python_zero_strike :
  forall self : BlackScholes.BlackScholesModel,
  is_numpy (BlackScholes.S self) = false ->
  is_numpy (BlackScholes.K self) = false ->
  val (BlackScholes.K self) = 0 ->
  BlackScholes.price self = Raise ZeroDivisionError.
Proof.
  intros self HS HK H0. unfold BlackScholes.price.
  rewrite calculate_d1_d2_python_zero_strike by assumption. reflexivity.
Qed.

Lemma price_unknown_kind_nonzero_strike :
  forall (S K T r sigma : scalar) (kind : string),
  lower kind <> "call"%string -> lower kind <> "put"%string ->
  val K <> 0 ->
  BlackScholes.price (BlackScholes.__init__ S K T r sigma kind)
  = Raise kind_error.
Proof.
  intros S K T r sigma kind Hc Hp HK.
  rewrite bs_price_unknown_kind by assumption.
  rewrite bs_d1_d2_ok by exact HK. reflexivity.
Qed.

(** X23.  Errors of the implied-volatility solver.  With a budget of zero
    iterations it returns None whatever the inputs, without pricing.  With
    a budget of at least one iteration, an option kind that is neither
    'call' nor 'put' once lower-cased raises ValueError (strike other than
    zero), and a strike of zero raises ZeroDivisionError when spot and
    strike are Python floats, whatever the kind. *)
Theorem implied_volatility_errors :
  forall (market_price : R) (S K T r : scalar) (kind : string)
         (tolerance : R),
  OptionsAnalyzer.calculate_implied_volatility
    market_price S K T r kind tolerance 0 = Ok None /\
  forall max_iterations : nat, (1 <= max_iterations)%nat ->
    (lower kind <> "call"%string -> lower kind <> "put"%string ->
     val K <> 0 ->
     OptionsAnalyzer.calculate_implied_volatility
       market_price S K T r kind tolerance max_iterations
     = Raise kind_error) /\
    (is_numpy S = false -> is_numpy K = false -> val K = 0 ->
     OptionsAnalyzer.calculate_implied_volatility
       market_price S K T r kind tolerance max_iterations
     = Raise ZeroDivisionError).
Proof.
  intros market_price S K T r kind tolerance.
  split; [reflexivity|].
  intros n Hn. destruct n as [|n]; [lia|].
  unfold OptionsAnalyzer.calculate_implied_volatility.
  cbn [seq OptionsAnalyzer.newton_loop]. split.
  - intros Hc Hp HK.
    rewrite price_unknown_kind_nonzero_strike by assumption. reflexivity.
  - intros HS HK H0.
    rewrite price_python_zero_strike by assumption. reflexivity.
Qed.

Lemma implied_volatility_errors_witness :
  OptionsAnalyzer.calculate_implied_volatility
    10 (float 100) (float 100) (float 1) (float 0.05) "straddle"
    OptionsAnalyzer.default_tolerance OptionsAnalyzer.default_max_iterations
  = Raise kind_error /\
  OptionsAnalyzer.calculate_implied_volatility
    10 (float 100) (float 0) (float 1) (float 0.05) "call"
    OptionsAnalyzer.default_tolerance OptionsAnalyzer.default_max_iterations
  = Raise ZeroDivisionError.
Proof.
  split.
  - destruct (implied_volatility_errors 10 (float 100) (float 100) (float 1)
                (float 0.05) "straddle" OptionsAnalyzer.default_tolerance)
      as [_ H].
    destruct (H OptionsAnalyzer.default_max_iterations
                ltac:(unfold OptionsAnalyzer.default_max_iterations; lia))
      as [Hkind _].
    apply Hkind; [discriminate | discriminate | simpl; lra].
  - destruct (implied_volatility_errors 10 (float 100) (float 0) (float 1)
                (float 0.05) "call" OptionsAnalyzer.default_tolerance)
      as [_ H].
    destruct (H OptionsAnalyzer.default_max_iterations
                ltac:(unfold OptionsAnalyzer.default_max_iterations; lia))
      as [_ Hzero].
    apply Hzero; reflexivity.
Defined.

Lemma sweep_raises_at_first_value :
  forall (mk : R -> BlackScholes.BlackScholesModel) (e : exn)
         (start stop : R),
  (forall v, BlackScholes.price (mk v) = Raise e) ->
  for_each (Np.linspace start stop 50)
    (fun prices value => pr <- BlackScholes.price (mk value) ;;
                         Ok (prices ++ [pr])) []
  = Raise e.
Proof.
  intros mk e start stop H. unfold Np.linspace.
  change (seq 0 50) with (0%nat :: seq 1 49).
  cbn [map for_each]. rewrite H. reflexivity.
Qed.

(** X24.  Errors of the sensitivity analysis on a recognised target.  An
    option kind that is neither 'call' nor 'put' once lower-cased raises
    ValueError (strike other than zero).  A strike of zero, with spot and
    strike Python floats, raises ZeroDivisionError on the volatility, time
    and rate targets; on the spot target the swept spot is a numpy scalar,
    the division is numpy's, and a call or a put is swept without an
    exception whatever the strike. *)
Theorem sensitivity_analysis_errors :
  forall (S K T r sigma : scalar) (kind : string) (range : R),
  (forall t : target,
     lower kind <> "call"%string -> lower kind <> "put"%string ->
     val K <> 0 ->
     OptionsAnalyzer.sensitivity_analysis S K T r sigma kind
                                          (target_name t) range
     = Raise kind_error) /\
  (forall t : target,
     t <> Spot -> is_numpy S = false -> is_numpy K = false -> val K = 0 ->
     OptionsAnalyzer.sensitivity_analysis S K T r sigma kind
                                          (target_name t) range
     = Raise ZeroDivisionError) /\
  (lower kind = "call"%string \/ lower kind = "put"%string ->
   exists values prices,
     OptionsAnalyzer.sensitivity_analysis S K T r sigma kind "spot" range
     = Ok {| OptionsAnalyzer.s_parameter := "spot";
             OptionsAnalyzer.s_values := values;
             OptionsAnalyzer.s_prices := prices |} /\
     List.length values = 50%nat /\ List.length prices = 50%nat).
Proof.
  intros S K T r sigma kind range. split; [|split].
  - intros t Hc Hp HK. rewrite sensitivity_analysis_unfold. cbv zeta.
    rewrite (sweep_raises_at_first_value
               (fun v => contract_at t (float64 v) S K T r sigma kind)
               kind_error).
    + reflexivity.
    + intro v. destruct t; simpl;
        apply price_unknown_kind_nonzero_strike; assumption.
  - intros t Ht HS HK H0. rewrite sensitivity_analysis_unfold. cbv zeta.
    rewrite (sweep_raises_at_first_value
               (fun v => contract_at t (float64 v) S K T r sigma kind)
               ZeroDivisionError).
    + reflexivity.
    + intro v. destruct t; [contradiction Ht; reflexivity | | |];
        simpl; apply price_python_zero_strike; assumption.
  - intro Hkind.
    rewrite (sensitivity_analysis_unfold Spot). cbv zeta.
    rewrite (sweep_prices
               (fun v => contract_at Spot (float64 v) S K T r sigma kind)
               (fun v => bs_value (lower kind) v K T r sigma)).
    + eexists. eexists. split; [reflexivity|].
      split; [apply linspace_length|].
      cbn [app]. rewrite length_map. apply linspace_length.
    + intro v. cbn [contract_at]. unfold BlackScholes.price.
      rewrite calculate_d1_d2_numpy_spot by reflexivity.
      cbn [BlackScholes.__init__ BlackScholes.option_type BlackScholes.S
           BlackScholes.K BlackScholes.T BlackScholes.r BlackScholes.sigma
           Py.bind].
      unfold bs_value. destruct Hkind as [E | E]; rewrite E; reflexivity.
Qed.

Lemma sensitivity_analysis_errors_witness :
  OptionsAnalyzer.sensitivity_analysis
    (float 100) (float 100) (float 1) (float 0.05) (float 0.2)
    "straddle" "spot" 0.2
  = Raise kind_error /\
  OptionsAnalyzer.sensitivity_analysis
    (float 100) (float 0) (float 1) (float 0.05) (float 0.2)
    "call" "volatility" 0.2
  = Raise ZeroDivisionError.
Proof.
  split.
  - destruct (sensitivity_analysis_errors (float 100) (float 100) (float 1)
                (float 0.05) (float 0.2) "straddle" 0.2) as [H _].
    apply (H Spot); [discriminate | discriminate | simpl; lra].
  - destruct (sensitivity_analysis_errors (float 100) (float 0) (float 1)
                (float 0.05) (float 0.2) "call" 0.2) as (_ & H & _).
    apply (H Volatility); [discriminate | reflexivity..].
Defined.

(** ** Payoff diagrams: long positions, offsetting positions, spelling *)

Lemma nth_map_inside : forall (f : R -> R) (l : list R) (k : nat),
  (k < List.length l)%nat -> nth k (map f l) 0 = f (nth k l 0).
Proof.
  intros f l k Hk.
  rewrite (nth_indep (map f l) 0 (f 0)) by (rewrite length_map; exact Hk).
  apply map_nth.
Qed.

(** X25.  The diagram of a long position keeps the spot prices and has one
    payoff and one profit/loss per spot price.  At every spot price the
    payoff is non-negative and the profit/loss is the payoff minus the
    premium, so the loss never exceeds the premium.  With a positive
    premium a long call breaks even exactly at K + premium, and a long put
    (any kind other than 'call') exactly at K - premium. *)
Theorem long_position_profile :
  forall (S_range : list R) (K premium : R) (kind : string) (k : nat),
  (k < List.length S_range)%nat ->
  let d := OptionsAnalyzer.payoff_diagram S_range K premium kind "long" in
  let s := nth k S_range 0 in
  let payoff := nth k (OptionsAnalyzer.payoff d) 0 in
  let profit_loss := nth k (OptionsAnalyzer.profit_loss d) 0 in
  OptionsAnalyzer.spot_prices d = S_range /\
  List.length (OptionsAnalyzer.payoff d) = List.length S_range /\
  List.length (OptionsAnalyzer.profit_loss d) = List.length S_range /\
  0 <= payoff /\
  profit_loss = payoff - premium /\
  - premium <= profit_loss /\
  (0 < premium ->
   (kind = "call"%string -> (profit_loss = 0 <-> s = K + premium)) /\
   (kind <> "call"%string -> (profit_loss = 0 <-> s = K - premium))).
Proof.
  intros S_range K premium kind k Hk d s payoff profit_loss.
  unfold payoff, profit_loss, d. rewrite payoff_diagram_long. cbv zeta.
  cbn [OptionsAnalyzer.spot_prices OptionsAnalyzer.payoff
       OptionsAnalyzer.profit_loss].
  rewrite !length_map.
  rewrite (nth_map_inside (intrinsic_value _ K)) by exact Hk.
  rewrite (nth_map_inside (fun s => intrinsic_value _ K s - premium))
    by exact Hk.
  fold s.
  assert (Hpay : 0 <= intrinsic_value (kind =? "call")%string K s).
  { unfold intrinsic_value.
    destruct (kind =? "call")%string; apply Rmax_r. }
  split; [reflexivity|]. split; [reflexivity|]. split; [reflexivity|].
  split; [exact Hpay|]. split; [reflexivity|]. split; [lra|].
  intro Hprem. split.
  - intros ->. simpl String.eqb. unfold intrinsic_value, Rmax.
    destruct (Rle_dec (s - K) 0); split; intro; lra.
  - intro Hne. apply String.eqb_neq in Hne. rewrite Hne.
    unfold intrinsic_value, Rmax.
    destruct (Rle_dec (K - s) 0); split; intro; lra.
Qed.

Lemma long_position_profile_witness :
  nth 0 (OptionsAnalyzer.profit_loss
           (OptionsAnalyzer.payoff_diagram [105; 80] 100 5 "call" "long")) 0
  = 0.
Proof.
  destruct (long_position_profile [105; 80] 100 5 "call" 0
              ltac:(simpl; lia))
    as (_ & _ & _ & _ & _ & _ & H).
  destruct (H ltac:(lra)) as [Hcall _].
  apply (Hcall eq_refl). simpl. lra.
Defined.

(** X26.  The two sides of one contract as the diagrams report them, at
    every spot price: the payoff of the short position is the negated
    payoff of the long position, and its profit/loss is the payoff of the
    long position plus the premium.  The two profit/loss figures therefore
    add up to twice the long payoff: they offset exactly where the option
    expires worthless, and the short profit/loss is never below the
    premium. *)
Theorem long_and_short_positions :
  forall (S_range : list R) (K premium : R) (kind position : string)
         (k : nat),
  (k < List.length S_range)%nat -> position <> "long"%string ->
  let long := OptionsAnalyzer.payoff_diagram S_range K premium kind "long" in
  let short :=
    OptionsAnalyzer.payoff_diagram S_range K premium kind position in
  let long_payoff := nth k (OptionsAnalyzer.payoff long) 0 in
  nth k (OptionsAnalyzer.payoff short) 0 = - long_payoff /\
  nth k (OptionsAnalyzer.profit_loss short) 0 = long_payoff + premium /\
  nth k (OptionsAnalyzer.profit_loss long) 0
  + nth k (OptionsAnalyzer.profit_loss short) 0 = 2 * long_payoff /\
  premium <= nth k (OptionsAnalyzer.profit_loss short) 0.
Proof.
  intros S_range K premium kind position k Hk Hpos long short long_payoff.
  assert (Hshort : short
                   = OptionsAnalyzer.payoff_diagram S_range K premium kind
                                                    "short").
  { unfold short, OptionsAnalyzer.payoff_diagram.
    apply String.eqb_neq in Hpos. rewrite Hpos. reflexivity. }
  rewrite Hshort. unfold long_payoff, long.
  rewrite payoff_diagram_long, payoff_diagram_short. cbv zeta.
  cbn [OptionsAnalyzer.payoff OptionsAnalyzer.profit_loss].
  rewrite (nth_map_inside (intrinsic_value _ K)) by exact Hk.
  rewrite (nth_map_inside (fun s => - intrinsic_value _ K s)) by exact Hk.
  rewrite (nth_map_inside (fun s => intrinsic_value _ K s + premium))
    by exact Hk.
  rewrite (nth_map_inside (fun s => intrinsic_value _ K s - premium))
    by exact Hk.
  assert (Hpay : 0 <= intrinsic_value (kind =? "call")%string K
                        (nth k S_range 0)).
  { unfold intrinsic_value.
    destruct (kind =? "call")%string; apply Rmax_r. }
  repeat split; lra.
Qed.

Lemma long_and_short_positions_witness :
  nth 0 (OptionsAnalyzer.profit_loss
           (OptionsAnalyzer.payoff_diagram [120] 100 5 "call" "long")) 0
  + nth 0 (OptionsAnalyzer.profit_loss
             (OptionsAnalyzer.payoff_diagram [120] 100 5 "call" "short")) 0
  = 2 * nth 0 (OptionsAnalyzer.payoff
                 (OptionsAnalyzer.payoff_diagram [120] 100 5 "call" "long")) 0.
Proof.
  destruct (long_and_short_positions [120] 100 5 "call" "short" 0
              ltac:(simpl; lia) ltac:(discriminate))
    as (_ & _ & H & _).
  exact H.
Defined.

(** X27.  The engines lower-case the option kind, the payoff diagram does
    not: for a kind that is spelled other than 'call' but lower-cases to
    it, such as 'Call', the Black-Scholes engine is the call engine, while
    the diagram is that of the put; likewise a position spelled other than
    'long' gives the diagram of the short position. *)
Theorem payoff_diagram_is_case_sensitive :
  forall (S K T r sigma : scalar) (S_range : list R) (premium : R)
         (kind position : string),
  kind <> "call"%string -> lower kind = "call"%string ->
  BlackScholes.__init__ S K T r sigma kind
  = BlackScholes.__init__ S K T r sigma "call" /\
  OptionsAnalyzer.payoff_diagram S_range K premium kind position
  = OptionsAnalyzer.payoff_diagram S_range K premium "put" position /\
  (position <> "long"%string ->
   OptionsAnalyzer.payoff_diagram S_range K premium kind position
   = OptionsAnalyzer.payoff_diagram S_range K premium "put" "short").
Proof.
  intros S K T r sigma S_range premium kind position Hne Hlow.
  apply String.eqb_neq in Hne.
  split; [|split].
  - unfold BlackScholes.__init__. rewrite Hlow. reflexivity.
  - unfold OptionsAnalyzer.payoff_diagram. rewrite Hne. reflexivity.
  - intro Hpos. apply String.eqb_neq in Hpos.
    unfold OptionsAnalyzer.payoff_diagram. rewrite Hne, Hpos. reflexivity.
Qed.

Lemma payoff_diagram_is_case_sensitive_witness :
  BlackScholes.__init__ (float 100) (float 100) (float 1) (float 0.05)
                        (float 0.2) "Call"
  = BlackScholes.__init__ (float 100) (float 100) (float 1) (float 0.05)
                          (float 0.2) "call" /\
  OptionsAnalyzer.payoff_diagram [120] 100 5 "Call" "long"
  = OptionsAnalyzer.payoff_diagram [120] 100 5 "put" "long".
Proof.
  destruct (payoff_diagram_is_case_sensitive (float 100) (float 100)
              (float 1) (float 0.05) (float 0.2) [120] 5 "Call" "long"
              ltac:(discriminate) ltac:(reflexivity))
    as (Hinit & Hdiagram & _).
  split; [exact Hinit | exact Hdiagram].
Defined.

(** ** The comparison of the three models *)

Lemma bs_greeks_ok : forall (S K T r sigma : scalar) (kind : string),
  val K <> 0 ->
  exists greeks,
    BlackScholes.greeks (BlackScholes.__init__ S K T r sigma kind)
    = Ok greeks.
Proof.
  intros S K T r sigma kind HK.
  unfold BlackScholes.greeks, BlackScholes.delta, BlackScholes.gamma,
         BlackScholes.vega, BlackScholes.theta, BlackScholes.rho.
  rewrite bs_d1_d2_ok by exact HK. cbn [Py.bind].
  destruct (BlackScholes.option_type _ =? "call")%string;
    cbn [Py.bind]; eexists; reflexivity.
Qed.

(** X28.  [compare_models] on a call or a put with a strike other than
    zero returns a report that does not depend on the state of the
    process-wide generator: the Black-Scholes price and Greeks, the price,
    delta and gamma of the European lattice of 100 steps, and the figures
    of [price_with_confidence] for 100 steps and 100 * 100 paths on the
    draws that follow [np.random.seed(42)].  It leaves the generator
    re-seeded with 42 and 100 * (100 * 100) draws further on, whatever the
    generator held before. *)
Theorem compare_models_is_reproducible :
  forall (seeded_normals : Z -> nat -> R) (norm_ppf : R -> R)
         (S K T r sigma : scalar) (kind : string),
  val K <> 0 -> lower kind = "call"%string \/ lower kind = "put"%string ->
  exists report bt,
    (forall g : Random.state,
       Comparison.compare_models seeded_normals norm_ppf S K T r sigma kind g
       = (Indexed.Ok report,
          Random.advance
            {| Random.stream := seeded_normals Comparison.monte_carlo_seed;
               Random.pos := 0 |}
            (MonteCarloGreeks.default_steps
             * Comparison.monte_carlo_simulations))) /\
    BlackScholes.price (BlackScholes.__init__ S K T r sigma kind)
    = Ok (Comparison.bs_price (Comparison.black_scholes report)) /\
    BlackScholes.greeks (BlackScholes.__init__ S K T r sigma kind)
    = Ok (Comparison.bs_greeks (Comparison.black_scholes report)) /\
    BinomialTree.__init__ S K T r sigma Comparison.binomial_steps kind
                          "european" = Ok bt /\
    BinomialTree.price bt
    = Ok (Comparison.bt_price (Comparison.binomial_tree report)) /\
    BinomialGreeks.delta bt
    = Indexed.Ok (Comparison.bt_delta (Comparison.binomial_tree report)) /\
    BinomialGreeks.gamma bt
    = Indexed.Ok (Comparison.bt_gamma (Comparison.binomial_tree report)) /\
    let c :=
      mc_confidence_value norm_ppf
        (constructed S K T r sigma Comparison.monte_carlo_simulations kind
                     Comparison.monte_carlo_seed)
        MonteCarloGreeks.default_steps Comparison.default_confidence
        (seeded_normals Comparison.monte_carlo_seed) in
    Comparison.monte_carlo report
    = {| Comparison.mc_price := MonteCarlo.c_price c;
         Comparison.mc_confidence_interval :=
           (MonteCarlo.c_lower_bound c, MonteCarlo.c_upper_bound c);
         Comparison.mc_std_error := MonteCarlo.c_std_error c |}.
Proof.
  intros seeded_normals norm_ppf S K T r sigma kind HK Hkind.
  pose proof (bs_price_valid S K T r sigma kind HK Hkind) as Hprice.
  destruct (bs_greeks_ok S K T r sigma kind HK) as (greeks & Hgreeks).
  assert (Hsteps : Comparison.binomial_steps <> 0%nat) by discriminate.
  pose proof (binomial_init_ok S K T r sigma Comparison.binomial_steps kind
                "european" Hsteps) as Hinit.
  cbv zeta in Hinit.
  match type of Hinit with _ = Ok ?m => set (bt := m) in * end.
  assert (Hbt : BinomialTree.option_type bt = "call"%string
                \/ BinomialTree.option_type bt = "put"%string)
    by exact Hkind.
  pose proof (binomial_price_lattice bt Hbt) as Hbtp.
  pose proof (binomial_delta_lattice bt Hbt
                ltac:(cbn; unfold Comparison.binomial_steps; lia)) as Hdelta.
  pose proof (binomial_gamma_lattice bt Hbt
                ltac:(cbn; unfold Comparison.binomial_steps; lia)) as Hgamma.
  cbv zeta in Hgamma.
  assert (Hmc : MonteCarloGreeks.default_steps <> 0%nat) by discriminate.
  eexists. exists bt. split; [|split; [|split; [|split; [|split;
                                [|split; [|split]]]]]].
  - intro g. unfold Comparison.compare_models.
    rewrite Hprice, Hgreeks, Hinit, Hbtp, Hdelta, Hgamma.
    rewrite construct_spec.
    rewrite mc_confidence_spec by exact Hmc.
    reflexivity.
  - exact Hprice.
  - exact Hgreeks.
  - exact Hinit.
  - exact Hbtp.
  - exact Hdelta.
  - exact Hgamma.
  - reflexivity.
Qed.

(** X29.  [compare_models] stops at the first model that raises.  An
    option kind that is neither 'call' nor 'put' once lower-cased (strike
    other than zero) raises the ValueError of the Black-Scholes price, and
    a strike of zero with spot and strike Python floats raises
    ZeroDivisionError; in both cases the Monte Carlo engine is never
    constructed, so the process-wide generator is not re-seeded. *)
Theorem compare_models_errors :
  forall (seeded_normals : Z -> nat -> R) (norm_ppf : R -> R)
         (S K T r sigma : scalar) (kind : string) (g : Random.state),
  (lower kind <> "call"%string -> lower kind <> "put"%string ->
   val K <> 0 ->
   Comparison.compare_models seeded_normals norm_ppf S K T r sigma kind g
   = (Indexed.Raise (Indexed.Raised kind_error), g)) /\
  (is_numpy S = false -> is_numpy K = false -> val K = 0 ->
   Comparison.compare_models seeded_normals norm_ppf S K T r sigma kind g
   = (Indexed.Raise (Indexed.Raised ZeroDivisionError), g)).
Proof.
  intros seeded_normals norm_ppf S K T r sigma kind g. split.
  - intros Hc Hp HK. unfold Comparison.compare_models.
    rewrite price_unknown_kind_nonzero_strike by assumption. reflexivity.
  - intros HS HK H0. unfold Comparison.compare_models.
    rewrite price_python_zero_strike by assumption. reflexivity.
Qed.

Lemma compare_models_is_reproducible_witness :
  exists report,
    Comparison.compare_models counting_normals z_95
      (float 100) (float 100) (float 1) (float 0.05) (float 0.2) "call"
      unseeded
    = (Indexed.Ok report,
       Random.advance seeded_42
         (MonteCarloGreeks.default_steps
          * Comparison.monte_carlo_simulations)).
Proof.
  destruct (compare_models_is_reproducible counting_normals z_95
              (float 100) (float 100) (float 1) (float 0.05) (float 0.2)
              "call" ltac:(simpl; lra) ltac:(left; reflexivity))
    as (report & bt & Hrun & _).
  exists report. apply Hrun.
Defined.

Lemma compare_models_errors_witness :
  Comparison.compare_models counting_normals z_95
    (float 100) (float 100) (float 1) (float 0.05) (float 0.2) "straddle"
    seeded_42
  = (Indexed.Raise (Indexed.Raised kind_error), seeded_42) /\
  Comparison.compare_models counting_normals z_95
    (float 100) (float 0) (float 1) (float 0.05) (float 0.2) "call"
    seeded_42
  = (Indexed.Raise (Indexed.Raised ZeroDivisionError), seeded_42).
Proof.
  split.
  - destruct (compare_models_errors counting_normals z_95
                (float 100) (float 100) (float 1) (float 0.05) (float 0.2)
                "straddle" seeded_42) as [H _].
    apply H; [discriminate | discriminate | simpl; lra].
  - destruct (compare_models_errors counting_normals z_95
                (float 100) (float 0) (float 1) (float 0.05) (float 0.2)
                "call" seeded_42) as [_ H].
    apply H; reflexivity.
Defined.
